(** * iBEAt-improc: harmonisation of multi-site Dixon series

    A shallow embedding of [src/dixon_2_data.py]: the channel classifiers
    ([*_add_series_name], [*_add_series_desc]), the per-patient ledger of
    assigned names, the fat/water swap correction ([swap_fat_water]), the
    gap interpolators ([bari_030], [exeter_interpolate_vol]) and the site
    drivers ([leeds], [bari], [sheffield], [turku_philips], ...).

    Conventions of the embedding:
    - Python exceptions are an explicit [result]; a function that mutates
      the ledger it is passed is a state transformer that returns the
      ledger next to the result, so that a raise may carry a changed ledger;
    - the external DICOM layer (pydicom, dbdicom, vreg, zipfile) is not
      code of the repository: what it returns is part of the input data
      (the datasets of a folder, the outcome of [db.volume], of
      [db.split_series], of an extraction);
    - pixel values and slice locations are exact rationals ([Qc]); the
      rounding of the floating point operations is not modelled. *)

From stdpp Require Import gmap strings list.
From Stdlib Require Import ZArith QArith Qcanon Lia Ascii DecimalString DecimalNat.

Close Scope Qc_scope.
Close Scope Q_scope.
Open Scope string_scope.
Open Scope list_scope.

(** ** Python values and exceptions *)

Inductive exn : Type :=
  | IndexError
  | KeyError
  | ValueError
  | NameError
  | InvalidDicomError   (* pydicom.dcmread on a file that is not DICOM *)
  | BadZipFile          (* zipfile.ZipFile / extractall *)
  | FileNotFoundError   (* os.listdir on a folder that does not exist *)
  | DbError             (* any exception raised inside dbdicom / vreg *)
  | NoTermination.      (* the loop bound of the embedding was exhausted *)

Inductive result (A : Type) : Type :=
  | Ok (a : A)
  | Raise (e : exn).
Arguments Ok {A} a.
Arguments Raise {A} e.

Definition is_ok {A} (r : result A) : bool :=
  match r with Ok _ => true | Raise _ => false end.

Definition rbind {A B} (r : result A) (k : A -> result B) : result B :=
  match r with Ok a => k a | Raise e => Raise e end.

(** ** Python strings *)

Module Py.

(** [s[n:]] for [n >= 0]. *)
Fixpoint drop (n : nat) (s : string) : string :=
  match n, s with
  | S k, String _ s' => drop k s'
  | _, _ => s
  end.

(** [s[:n]] for [n >= 0]. *)
Fixpoint take (n : nat) (s : string) : string :=
  match n, s with
  | S k, String c s' => String c (take k s')
  | _, _ => EmptyString
  end.

(** [s[-n:]] for [n > 0]: the last [n] characters, the whole string when
    it is shorter. *)
Definition last_chars (n : nat) (s : string) : string :=
  drop (String.length s - n) s.

(** [s[:-n]] for [n > 0]. *)
Definition drop_last (n : nat) (s : string) : string :=
  take (String.length s - n) s.

(** [s[a:b]] for [0 <= a <= b]. *)
Definition slice (a b : nat) (s : string) : string :=
  take (b - a) (drop a s).

Definition is_digit (c : ascii) : bool :=
  let n := nat_of_ascii c in (48 <=? n)%nat && (n <=? 57)%nat.

Definition digit_val (c : ascii) : Z := Z.of_nat (nat_of_ascii c - 48).

(** Whitespace that [str.strip()] and [int()] skip (ASCII part). *)
Definition is_space (c : ascii) : bool :=
  let n := nat_of_ascii c in
  ((9 <=? n)%nat && (n <=? 13)%nat) || ((28 <=? n)%nat && (n <=? 32)%nat).

Fixpoint lstrip (s : string) : string :=
  match s with
  | String c s' => if is_space c then lstrip s' else s
  | EmptyString => EmptyString
  end.

Fixpoint rev_string (acc s : string) : string :=
  match s with
  | EmptyString => acc
  | String c s' => rev_string (String c acc) s'
  end.

Definition strip (s : string) : string :=
  rev_string "" (lstrip (rev_string "" (lstrip s))).

(** The digits of an [int()] literal: decimal digits, single underscores
    allowed between two digits.  [prev] tells whether the previous
    character was a digit. *)
Fixpoint int_digits (prev : bool) (acc : Z) (s : string) : option Z :=
  match s with
  | EmptyString => if prev then Some acc else None
  | String c s' =>
      if is_digit c then int_digits true (10 * acc + digit_val c)%Z s'
      else if Ascii.eqb c "_" then
        (if prev then
           match s' with
           | String d _ => if is_digit d then int_digits false acc s' else None
           | EmptyString => None
           end
         else None)
      else None
  end.

(** [int(s)] in base ten; [None] stands for [ValueError]. *)
Definition int (s : string) : option Z :=
  match strip s with
  | String "+" s' => int_digits false 0%Z s'
  | String "-" s' => option_map Z.opp (int_digits false 0%Z s')
  | s' => int_digits false 0%Z s'
  end.

(** [str(n)] / [f'{n}'] of a natural number. *)
Definition str (n : nat) : string := NilZero.string_of_uint (Nat.to_uint n).

(** [old in s] at the head of [s]. *)
Fixpoint starts_with (old s : string) : bool :=
  match old, s with
  | EmptyString, _ => true
  | String a old', String b s' => Ascii.eqb a b && starts_with old' s'
  | String _ _, EmptyString => false
  end.

(** [s.replace(old, new)] for a non-empty [old]: a left to right scan that
    replaces every occurrence and resumes after it.  [skip] counts the
    characters of the current occurrence that are still to be passed. *)
Fixpoint replace_from (skip : nat) (old new s : string) : string :=
  match s with
  | EmptyString => EmptyString
  | String c s' =>
      match skip with
      | S k => replace_from k old new s'
      | O =>
          if starts_with old s
          then new +:+ replace_from (String.length old - 1) old new s'
          else String c (replace_from 0 old new s')
      end
  end.

(** With an empty [old] Python puts [new] before every character and at
    the end. *)
Fixpoint intersperse (new s : string) : string :=
  match s with
  | EmptyString => new
  | String c s' => new +:+ String c (intersperse new s')
  end.

Definition replace (old new s : string) : string :=
  match old with
  | EmptyString => intersperse new s
  | String _ _ => replace_from 0 old new s
  end.

(** The part of [s] before its last dot, if it has one. *)
Fixpoint before_last_dot (s : string) : option string :=
  match s with
  | EmptyString => None
  | String c s' =>
      match before_last_dot s' with
      | Some r => Some (String c r)
      | None => if Ascii.eqb c "." then Some EmptyString else None
      end
  end.

(** [os.path.splitext(name)[0]] for a name without directories: leading
    dots do not start an extension. *)
Fixpoint splitext_root (s : string) : string :=
  match s with
  | String "." s' => String "." (splitext_root s')
  | _ => match before_last_dot s with
         | Some r => r
         | None => s
         end
  end.

(** [x in l] for a list of strings. *)
Definition mem (x : string) (l : list string) : bool :=
  existsb (String.eqb x) l.

(** [sub in s] for strings. *)
Fixpoint contains (sub s : string) : bool :=
  starts_with sub s ||
  match s with
  | EmptyString => false
  | String _ s' => contains sub s'
  end.

End Py.

(** ** State and exceptions

    A Python function that mutates an object it was passed and may raise is
    a state transformer: the state that a raise leaves behind is returned
    next to the exception, as an in-place mutation survives it. *)

Definition ST (S A : Type) : Type := S -> result A * S.

Definition ret {S A} (a : A) : ST S A := fun s => (Ok a, s).
Definition raise {S A} (e : exn) : ST S A := fun s => (Raise e, s).
Definition lift {S A} (r : result A) : ST S A := fun s => (r, s).
Definition get {S} : ST S S := fun s => (Ok s, s).
Definition modify {S} (f : S -> S) : ST S unit := fun s => (Ok tt, f s).

Definition bind {S A B} (m : ST S A) (k : A -> ST S B) : ST S B :=
  fun s =>
    match m s with
    | (Ok a, s') => k a s'
    | (Raise e, s') => (Raise e, s')
    end.

(** [try: m  except Exception as e: h e  else: k a] *)
Definition try_except_else {S A B}
    (m : ST S A) (h : exn -> ST S B) (k : A -> ST S B) : ST S B :=
  fun s =>
    match m s with
    | (Ok a, s') => k a s'
    | (Raise e, s') => h e s'
    end.

(** [for x in xs: body x]; a raise leaves the loop. *)
Fixpoint for_each {S A} (xs : list A) (body : A -> ST S unit) : ST S unit :=
  match xs with
  | [] => ret tt
  | x :: xs' => bind (body x) (fun _ => for_each xs' body)
  end.

Declare Scope st_scope.
Delimit Scope st_scope with st.
Notation "x <- m ;; k" := (bind m (fun x => k))
  (at level 100, m at next level, right associativity) : st_scope.
Notation "m ;; k" := (bind m (fun _ => k))
  (at level 100, right associativity) : st_scope.
Notation "x <~ r ;; k" := (rbind r (fun x => k))
  (at level 100, r at next level, right associativity).

(** Indexing [l[i]] of a Python list. *)
Definition index {A} (l : list A) (i : nat) : result A :=
  match l !! i with
  | Some a => Ok a
  | None => Raise IndexError
  end.

(** ** DICOM datasets as pydicom delivers them

    [ds[tag].value] raises [KeyError] when the data element is absent. *)

Record dataset : Type := {
  ImageType : option (list string);
  SeriesDescription : option string;
  Manufacturer : option string;
  EchoTime : option Qc
}.

Definition attr {A} (a : option A) : result A :=
  match a with
  | Some v => Ok v
  | None => Raise KeyError
  end.

(** A folder of extracted files: its base name and, for each file that
    [os.listdir] lists, what [pydicom.dcmread] makes of it. *)
Record folder : Type := {
  basename : string;
  listdir : list (result dataset)
}.

(** [file = os.listdir(folder)[0]; ds = pydicom.dcmread(...)] *)
Definition read_first (f : folder) : result dataset :=
  file <~ index (listdir f) 0 ;; file.

(** ** The disambiguation ledger ([all_series], [pat_series]) *)

Abbreviation ledger := (list string) (only parsing).

(** [f'_{counter}_'] *)
Definition counter_token (counter : nat) : string :=
  "_" +:+ Py.str counter +:+ "_".

(** The loop shared by all classifiers (e.g. lines 176-181):
[[
    new_series_name = series_name
    counter = 2
    while new_series_name in all_series:
        new_series_name = series_name.replace('_1_', f'_{counter}_')
        counter += 1
]]
    [fuel] bounds the number of tests of the loop condition; running out
    of it is reported as [NoTermination]. *)
Fixpoint next_available (fuel : nat) (series_name new_series_name : string)
    (counter : nat) (all_series : ledger) : result string :=
  match fuel with
  | O => Raise NoTermination
  | S fuel' =>
      if Py.mem new_series_name all_series
      then next_available fuel' series_name
             (Py.replace "_1_" (counter_token counter) series_name)
             (S counter) all_series
      else Ok new_series_name
  end.

(** The loop followed by [all_series.append(new_series_name)].  A ledger of
    [n] names is given [n + 1] tests of the loop condition. *)
Definition add_number (series_name : string) : ST ledger unit :=
  (all_series <- get ;;
   new_series_name <-
     lift (next_available (S (length all_series)) series_name series_name 2 all_series) ;;
   modify (fun l => l ++ [new_series_name]))%st.

(** *** Leeds: position and attribute heuristics (lines 150-182) *)

Definition image_type_suffix (props : string) : string :=
  if String.eqb props "IN_PHASE" then "in_phase"
  else if String.eqb props "OUT_PHASE" then "out_phase"
  else if String.eqb props "WATER" then "water"
  else if String.eqb props "FAT" then "fat"
  else props.

(** [int(s)] with its [ValueError]. *)
Definition py_int (s : string) : result Z :=
  match Py.int s with
  | Some z => Ok z
  | None => Raise ValueError
  end.

Definition position_prefix (series_nr threshold : Z) : string :=
  if (series_nr <? threshold)%Z then "Dixon_1_" else "Dixon_post_contrast_1_".

Definition leeds_series_name (f : folder) : result string :=
  series_nr <~ py_int (Py.last_chars 2 (basename f)) ;;
  let series_name := position_prefix series_nr 20 in
  ds <~ read_first f ;;
  image_type <~ attr (ImageType ds) ;;
  props <~ index image_type 3 ;;
  Ok (series_name +:+ image_type_suffix props).

Definition leeds_add_series_name (f : folder) : ST ledger unit :=
  (series_name <- lift (leeds_series_name f) ;; add_number series_name)%st.

(** *** Bordeaux and Exeter: description lookup (lines 185-238) *)

Definition dict_get (d : gmap string string) (k : string) : result string :=
  match d !! k with
  | Some v => Ok v
  | None => Raise KeyError
  end.

Definition siemens_series_desc : gmap string string :=
  list_to_map [
    ("T1w_abdomen_dixon_cor_bh_opp", "Dixon_1_out_phase");
    ("T1w_abdomen_dixon_cor_bh_in", "Dixon_1_in_phase");
    ("T1w_abdomen_dixon_cor_bh_F", "Dixon_1_fat");
    ("T1w_abdomen_dixon_cor_bh_W", "Dixon_1_water");
    ("T1w_abdomen_post_contrast_dixon_cor_bh_opp", "Dixon_post_contrast_1_out_phase");
    ("T1w_abdomen_post_contrast_dixon_cor_bh_in", "Dixon_post_contrast_1_in_phase");
    ("T1w_abdomen_post_contrast_dixon_cor_bh_F", "Dixon_post_contrast_1_fat");
    ("T1w_abdomen_post_contrast_dixon_cor_bh_W", "Dixon_post_contrast_1_water")
  ].

Definition bordeaux_series_desc (f : folder) : result string :=
  ds <~ read_first f ;;
  original_series_desc <~ attr (SeriesDescription ds) ;;
  dict_get siemens_series_desc original_series_desc.

Definition bordeaux_add_series_desc (f : folder) : ST ledger unit :=
  (series_desc <- lift (bordeaux_series_desc f) ;; add_number series_desc)%st.

Definition exeter_series_desc (f : folder) : result string :=
  ds <~ read_first f ;;
  original_series_desc <~ attr (SeriesDescription ds) ;;
  dict_get siemens_series_desc original_series_desc.

Definition exeter_add_series_desc (f : folder) : ST ledger unit :=
  (series_desc <- lift (exeter_series_desc f) ;; add_number series_desc)%st.

(** *** Sheffield and Turku GE: manufacturer-conditional rule (lines 241-323) *)

Definition ge_series_desc : gmap string string :=
  list_to_map [
    ("WATER: T1_abdomen_dixon_cor_bh", "Dixon_1_water");
    ("FAT: T1_abdomen_dixon_cor_bh", "Dixon_1_fat");
    ("InPhase: T1_abdomen_dixon_cor_bh", "Dixon_1_in_phase");
    ("OutPhase: T1_abdomen_dixon_cor_bh", "Dixon_1_out_phase");
    ("WATER: T1_abdomen_post_contrast_dixon_cor_bh", "Dixon_post_contrast_1_water");
    ("FAT: T1_abdomen_post_contrast_dixon_cor_bh", "Dixon_post_contrast_1_fat");
    ("InPhase: T1_abdomen_post_contrast_dixon_cor_bh", "Dixon_post_contrast_1_in_phase");
    ("OutPhase: T1_abdomen_post_contrast_dixon_cor_bh", "Dixon_post_contrast_1_out_phase")
  ].

(** [x < y] on rationals. *)
Definition Qc_ltb (x y : Qc) : bool := negb (Qle_bool y x).

Definition sheffield_series_desc (f : folder) : result string :=
  ds <~ read_first f ;;
  original_series_desc <~ attr (SeriesDescription ds) ;;
  manufacturer <~ attr (Manufacturer ds) ;;
  if String.eqb manufacturer "Philips Healthcare" then
    echo_time <~ attr (EchoTime ds) ;;
    if Qc_ltb echo_time (Q2Qc (2 # 1)%Q) then
      (if String.eqb original_series_desc "T1w_abdomen_dixon_cor_bh"
       then Ok "Dixon_1_out_phase"
       else Ok "Dixon_post_contrast_1_out_phase")
    else
      (if String.eqb original_series_desc "T1w_abdomen_dixon_cor_bh"
       then Ok "Dixon_1_in_phase"
       else Ok "Dixon_post_contrast_1_in_phase")
  else dict_get ge_series_desc original_series_desc.

Definition sheffield_add_series_desc (f : folder) : ST ledger unit :=
  (series_desc <- lift (sheffield_series_desc f) ;; add_number series_desc)%st.

Definition turku_series_desc (f : folder) : result string :=
  sheffield_series_desc f.

Definition turku_add_series_desc (f : folder) : ST ledger unit :=
  (series_desc <- lift (turku_series_desc f) ;; add_number series_desc)%st.

(** *** Bari and Turku Philips: position heuristic on the zip name
    (lines 325-357) *)

Definition bari_series_name (name : string) : result string :=
  series_nr <~ py_int (Py.drop 7 name) ;;
  Ok (position_prefix series_nr 1000).

Definition bari_add_series_name (name : string) : ST ledger unit :=
  (series_name <- lift (bari_series_name name) ;; add_number series_name)%st.

Definition turku_philips_series_name (name : string) : result string :=
  series_nr <~ py_int (Py.drop 7 name) ;;
  Ok (position_prefix series_nr 1000).

Definition turku_philips_add_series_name (name : string) : ST ledger unit :=
  (series_name <- lift (turku_philips_series_name name) ;; add_number series_name)%st.

(** ** Addresses of the canonical store

    An address is the Python list [[path, patient, study, series]]; a
    component is a string or a tuple [(description, index)]. *)

Inductive component : Type :=
  | CStr (s : string)
  | CTup (s : string) (n : Z).

Abbreviation address := (list component) (only parsing).

Definition component_eqb (c d : component) : bool :=
  match c, d with
  | CStr s, CStr t => String.eqb s t
  | CTup s n, CTup t m => String.eqb s t && Z.eqb n m
  | _, _ => false
  end.

(** [l1 == l2] on Python lists. *)
Fixpoint list_eqb {A} (eqb : A -> A -> bool) (l1 l2 : list A) : bool :=
  match l1, l2 with
  | [], [] => true
  | a :: l1', b :: l2' => eqb a b && list_eqb eqb l1' l2'
  | _, _ => false
  end.

(** [c[0]]: the description of a tuple, the first character of a string. *)
Definition component_first (c : component) : result component :=
  match c with
  | CTup s _ => Ok (CStr s)
  | CStr (String a _) => Ok (CStr (String a EmptyString))
  | CStr EmptyString => Raise IndexError
  end.

(** ** The swap-correction table (lines 359-368)

    [record] holds the rows of [fat_water_swap_record.csv] as [csv.reader]
    yields them, each a list of strings. *)

Definition swap_row_matches (row : list string) (c1 c2 : component) (series : string) : bool :=
  list_eqb component_eqb (map CStr (take 3 (drop 1 row))) [c1; c2; CStr series].

Fixpoint swap_fat_water (record : list (list string)) (dixon : address)
    (series image_type : string) : result address :=
  match record with
  | [] => Ok dixon
  | row :: record' =>
      c1 <~ index dixon 1 ;;
      study <~ index dixon 2 ;;
      c2 <~ component_first study ;;
      if swap_row_matches row c1 c2 series then
        flag <~ index row 4 ;;
        if String.eqb flag "1" then
          if String.eqb image_type "fat"
          then Ok (take 3 dixon ++ [CStr (series +:+ "_water")])
          else if String.eqb image_type "water"
          then Ok (take 3 dixon ++ [CStr (series +:+ "_fat")])
          else swap_fat_water record' dixon series image_type
        else swap_fat_water record' dixon series image_type
      else swap_fat_water record' dixon series image_type
  end.

(** ** Pixel arrays and volumes

    A three-dimensional array [arr] is the list of its frames
    [arr[:,:,k]], each a list of rows. *)

Abbreviation frame := (list (list Qc)) (only parsing).
Abbreviation stack := (list (list (list Qc))) (only parsing).

(** [a * x + b * y] on two frames of the same shape. *)
Definition blend (a : Qc) (x : frame) (b : Qc) (y : frame) : frame :=
  zip_with (zip_with (fun p q => a * p + b * q)%Qc) x y.

(** [np.zeros(arr.shape[:2] + (n,))] *)
Definition zero_frame (arr : stack) : frame :=
  match arr with
  | [] => []
  | f :: _ => map (map (fun _ => 0%Qc)) f
  end.

Definition zeros (arr : stack) (n : nat) : stack := replicate n (zero_frame arr).

(** [np.where(cond)[0][0]] over a one-dimensional array. *)
Fixpoint where_first {A} (cond : A -> bool) (l : list A) : result nat :=
  match l with
  | [] => Raise IndexError
  | x :: l' => if cond x then Ok 0%nat else (i <~ where_first cond l' ;; Ok (S i))
  end.

(** The values that [db.affine_matrix] is given. *)
Record geometry : Type := {
  ImageOrientationPatient : list Qc;
  ImagePositionPatient : list Qc;
  PixelSpacing : list Qc;
  SpacingBetweenSlices : Qc   (* [SliceThickness] for Exeter *)
}.

(** [vreg.volume(pixel_data, affine)]; the affine matrix is kept as the
    geometry it is built from. *)
Record volume : Type := {
  values : stack;
  affine : geometry
}.

(** What [db.pixel_data(series, dims='SliceLocation', coords=True, attr=aff)]
    returns: the frames sorted by slice location, the locations
    [crd[0,:]] and the attributes of each slice. *)
Record pixel_data : Type := {
  arr : stack;
  crd : list Qc;
  val : list geometry
}.

Definition one_third : Qc := Q2Qc (1 # 3)%Q.
Definition two_thirds : Qc := Q2Qc (2 # 3)%Q.
Definition one_half : Qc := Q2Qc (1 # 2)%Q.

(** *** Two missing slices: the out-phase part of [bari_030] (lines 503-520) *)

Definition loc0_out_phase : Qc := Q2Qc (116357442880728 # 10000000000000)%Q.
Definition loc0_in_phase : Qc := Q2Qc (131357467355428 # 10000000000000)%Q.

Definition interpolate_two (arr : stack) (i0 : nat) : result stack :=
  let pixel_data := zeros arr (length arr + 2) in
  let pixel_data := list_inserts 0 (take (i0 + 1) arr) pixel_data in
  a <~ index arr i0 ;;
  b <~ index arr (i0 + 1) ;;
  let pixel_data := <[i0 + 1 := blend one_third a two_thirds b]> pixel_data in
  let pixel_data := <[i0 + 2 := blend two_thirds a one_third b]> pixel_data in
  let pixel_data := list_inserts (i0 + 3) (drop (i0 + 1) arr) pixel_data in
  Ok pixel_data.

(** *** One missing slice: the in-phase part of [bari_030] (lines 529-533)
    and [exeter_interpolate_vol] (lines 1045-1048) *)

Definition interpolate_one (arr : stack) (i0 : nat) : result stack :=
  let pixel_data := zeros arr (length arr + 1) in
  let pixel_data := list_inserts 0 (take (i0 + 1) arr) pixel_data in
  a <~ index arr i0 ;;
  b <~ index arr (i0 + 1) ;;
  let pixel_data := <[i0 + 1 := blend one_half a one_half b]> pixel_data in
  let pixel_data := list_inserts (i0 + 2) (drop (i0 + 1) arr) pixel_data in
  Ok pixel_data.

Definition bari_030_out_phase (p : pixel_data) : result volume :=
  i0 <~ where_first (Qc_eq_bool loc0_out_phase) (crd p) ;;
  pixel_data <~ interpolate_two (arr p) i0 ;;
  g <~ index (val p) 0 ;;
  Ok {| values := pixel_data; affine := g |}.

(** The in-phase volume reuses the affine of the out-phase one. *)
Definition bari_030_in_phase (affine : geometry) (p : pixel_data) : result volume :=
  i0 <~ where_first (Qc_eq_bool loc0_in_phase) (crd p) ;;
  pixel_data <~ interpolate_one (arr p) i0 ;;
  Ok {| values := pixel_data; affine := affine |}.

(** [crd[0,1:] - crd[0,:-1]] *)
Definition diffs (crd : list Qc) : list Qc :=
  zip_with (fun next prev => next - prev)%Qc (drop 1 crd) (take (length crd - 1) crd).

Definition exeter_interpolate_vol (p : pixel_data) : result volume :=
  i0 <~ where_first (Qc_eq_bool (Q2Qc (3 # 1)%Q)) (diffs (crd p)) ;;
  pixel_data <~ interpolate_one (arr p) i0 ;;
  g <~ index (val p) 0 ;;
  Ok {| values := pixel_data; affine := g |}.

(** ** What the external layers deliver

    [zipfile], [pydicom] and [dbdicom] are not code of the repository; what
    they return for a given source is input data of the drivers. *)

(** One part of a series split by [db.split_series]. *)
Record subseries : Type := {
  sub_ref : string;
  sub_volume : result volume;          (* [db.volume(series)] *)
  sub_pixel_data : result pixel_data   (* [db.pixel_data(series, ...)] *)
}.

Record series : Type := {
  ref : string;
  SeriesNumber : list Z;               (* [db.unique('SeriesNumber', s)] *)
  db_volume : result volume;           (* [db.volume(series)] *)
  db_pixel_data : result pixel_data;   (* [db.pixel_data(series, ...)] *)
  split_EchoTime : result (list (Qc * subseries));
                                       (* [db.split_series(s, 'EchoTime')] *)
  split_ImageType : result (list (string * subseries))
                         (* [db.split_series(s, 'ImageType', key=lambda x:x[2])] *)
}.

(** A zip archive extracted and flattened: the DICOM files of the folder
    and the series that [db.series(extract_to)] finds in it. *)
Record extracted : Type := {
  ex_files : list (result dataset);
  ex_series : list series
}.

Record zip_file : Type := {
  zip_filename : string;
  zip_extractall : result extracted
}.

(** A patient folder of the download area: the files it holds and, for
    Sheffield, the files of its sub-directories. *)
Record patient_dir : Type := {
  dir_name : string;
  dir_files : list zip_file;
  dir_subdirs : list (list zip_file)
}.

Definition folder_of (name : string) (x : extracted) : folder :=
  {| basename := name; listdir := ex_files x |}.

(** ** The canonical store and the state of a driver *)

Record write : Type := {
  w_address : address;
  w_volume : volume;
  w_ref : string
}.

Abbreviation log_entry := (string * option exn)%type (only parsing).

(** The state a driver runs in: the store and the error log, and the local
    variables of the driver that outlive one iteration of its loops. *)
Record state : Type := {
  store : list write;
  log : list log_entry;
  pat_series : ledger;
  tmp_series_folder : gmap string extracted;
  vol : option volume
}.

Definition initial (st : list write) : state :=
  {| store := st; log := []; pat_series := []; tmp_series_folder := ∅; vol := None |}.

Definition set_pat_series (l : ledger) (s : state) : state :=
  {| store := store s; log := log s; pat_series := l;
     tmp_series_folder := tmp_series_folder s; vol := vol s |}.

Definition set_tmp_series_folder (m : gmap string extracted) (s : state) : state :=
  {| store := store s; log := log s; pat_series := pat_series s;
     tmp_series_folder := m; vol := vol s |}.

Definition set_vol (v : volume) (s : state) : state :=
  {| store := store s; log := log s; pat_series := pat_series s;
     tmp_series_folder := tmp_series_folder s; vol := Some v |}.

(** [db.write_volume(vol, address, ref=ref)]: the store is the sequence of
    the volumes written to it. *)
Definition db_write_volume (v : volume) (a : address) (r : string) : ST state unit :=
  modify (fun s =>
    {| store := store s ++ [{| w_address := a; w_volume := v; w_ref := r |}];
       log := log s; pat_series := pat_series s;
       tmp_series_folder := tmp_series_folder s; vol := vol s |}).

(** [logging.error(f"{msg}: {e}")] *)
Definition logging_error (msg : string) (e : option exn) : ST state unit :=
  modify (fun s =>
    {| store := store s; log := log s ++ [(msg, e)]; pat_series := pat_series s;
       tmp_series_folder := tmp_series_folder s; vol := vol s |}).

(** A classifier called on the list [pat_series] of the driver. *)
Definition on_pat_series {A} (m : ST ledger A) : ST state A :=
  fun s => let (r, l) := m (pat_series s) in (r, set_pat_series l s).

(** [pat_series[-1]] *)
Definition last_name : ST state string :=
  fun s =>
    match last (pat_series s) with
    | Some n => (Ok n, s)
    | None => (Raise IndexError, s)
    end.

(** dbdicom names a study or a series by [(description, index)]; a plain
    string stands for index 0. *)
Definition norm_component (c : component) : string * Z :=
  match c with
  | CStr s => (s, 0%Z)
  | CTup s n => (s, n)
  end.

Definition norm (a : address) : list (string * Z) := map norm_component a.

Definition stored (st : list write) : list (list (string * Z)) :=
  map (fun w => norm (w_address w)) st.

(** [a in db.series(study)] *)
Definition series_exists (a : address) (st : list write) : bool :=
  bool_decide (norm a ∈ stored st).

(** [study in db.studies(...)] *)
Definition study_exists (study : address) (st : list write) : bool :=
  bool_decide (norm study ∈ map (take 3) (stored st)).

(** [f'Patient__{pat_id}' in subdirs], the folders of [sitedatapath] *)
Definition patient_exists (sitedatapath pat_id : string) (st : list write) : bool :=
  bool_decide (norm [CStr sitedatapath; CStr pat_id] ∈ map (take 2) (stored st)).

Definition EXCLUDE : list string := ["7128_048"; "7128_068"].

Definition datapath : string := "build/dixon_2_data".

Definition site_patients (site : string) : string :=
  datapath +:+ "/" +:+ site +:+ "/Patients".

(** ** Patient identifiers (lines 61-111) *)

Definition dashes_to_underscores (s : string) : string := Py.replace "-" "_" s.

Definition exeter_ibeat_patient_id (folder : string) : string :=
  if String.eqb folder "3128-542" then "3128_542"
  else dashes_to_underscores (Py.slice 4 12 folder).

Definition bordeaux_ibeat_patient_id (folder : string) : string :=
  dashes_to_underscores (Py.slice 4 12 folder).

Definition leeds_ibeat_patient_id (folder : string) : string :=
  if String.eqb (Py.take 3 folder) "iBE"
  then dashes_to_underscores (Py.drop 4 folder)
  else Py.slice (String.length folder - 7) (String.length folder - 3) folder
       +:+ "_" +:+ Py.last_chars 3 folder.

Definition bari_ibeat_patient_id (folder : string) : string :=
  if String.eqb (Py.take 3 folder) "iBE"
  then dashes_to_underscores (Py.drop 4 folder)
  else Py.take 4 folder +:+ "_" +:+ Py.drop 4 folder.

Definition sheffield_ibeat_patient_id (folder : string) : string :=
  let id := Py.drop 3 folder in
  let id := Py.take 4 id +:+ "_" +:+ Py.drop 4 id in
  if String.eqb id "2178_157" then "7128_157" else id.

Definition turku_ge_ibeat_patient_id (folder : string) : string * string :=
  let id := dashes_to_underscores (Py.drop 4 folder) in
  if Py.contains "_followup" id
  then (Py.take 8 id, "Followup")
  else (Py.take 8 id, "Baseline").

Definition turku_philips_ibeat_patient_id (folder : string) : string * string :=
  let id := dashes_to_underscores (Py.take 8 folder) in
  if Py.contains "_followup" id
  then (Py.take 8 id, "Followup")
  else (Py.take 8 id, "Baseline").

(** ** Ordering the archives of a patient

    [sorted(all_zip_series, key=lambda x: int(x[7:-4]))]: the keys are
    computed first, the sort is stable. *)

Definition zip_series_number (z : zip_file) : result Z :=
  let x := zip_filename z in
  py_int (Py.slice 7 (String.length x - 4) x).

(** [a] comes before every element of [l] in the input. *)
Fixpoint insert_by_key {A} (k : Z) (a : A) (l : list (Z * A)) : list (Z * A) :=
  match l with
  | [] => [(k, a)]
  | (k', a') :: l' =>
      if (k <=? k')%Z then (k, a) :: l else (k', a') :: insert_by_key k a l'
  end.

Fixpoint keyed {A} (key : A -> result Z) (l : list A) : result (list (Z * A)) :=
  match l with
  | [] => Ok []
  | a :: l' => k <~ key a ;; kl <~ keyed key l' ;; Ok ((k, a) :: kl)
  end.

Definition sorted_by {A} (key : A -> result Z) (l : list A) : result (list A) :=
  kl <~ keyed key l ;;
  Ok (map snd (fold_right (fun ka acc => insert_by_key (fst ka) (snd ka) acc) [] kl)).

(** [zip_series[:-4]] *)
Definition zip_name_of (z : zip_file) : string := Py.drop_last 4 (zip_filename z).

(** The index of the out-phase and of the in-phase part of a series split
    by echo time (lines 496-501, 627-632 and 1105-1110):
[[
    if dixon_split[0][0] < dixon_split[1][0]:
        out_phase = 0;  in_phase = 1
    else:
        out_phase = 1;  in_phase = 0
]] *)
Definition phase_order (dixon_split : list (Qc * subseries)) : result (nat * nat) :=
  s0 <~ index dixon_split 0 ;;
  s1 <~ index dixon_split 1 ;;
  if Qc_ltb (fst s0) (fst s1) then Ok (0, 1)%nat else Ok (1, 0)%nat.

(** ** Bari (lines 480-642) *)

Definition bari_sitedatapath : string := site_patients "Bari".

(** [bari_030]: the pre-contrast Dixon of patient 1128_030 misses two slices
    in the out-phase and one in the in-phase. *)
Definition bari_030 (dixon_split : list (Qc * subseries)) : ST state unit :=
  (let sitedatapath := bari_sitedatapath in
   let pat_id := "1128_030" in
   let series_desc := "Dixon_1" in
   order <- lift (phase_order dixon_split) ;;
   let out_phase := fst order in
   let in_phase := snd order in
   (* out-phase *)
   series <- lift (index dixon_split out_phase) ;;
   p <- lift (sub_pixel_data (snd series)) ;;
   in_phase_vol <- lift (bari_030_out_phase p) ;;
   let in_phase_clean :=
     [CStr sitedatapath; CStr pat_id; CStr "Baseline"; CStr (series_desc +:+ "_out_phase")] in
   db_write_volume in_phase_vol in_phase_clean (sub_ref (snd series)) ;;
   (* in-phase *)
   series <- lift (index dixon_split in_phase) ;;
   p <- lift (sub_pixel_data (snd series)) ;;
   out_phase_vol <- lift (bari_030_in_phase (affine in_phase_vol) p) ;;
   let out_phase_clean :=
     [CStr sitedatapath; CStr pat_id; CStr "Baseline"; CStr (series_desc +:+ "_in_phase")] in
   db_write_volume out_phase_vol out_phase_clean (sub_ref (snd series)))%st.

(** Lines 634-642 (and 1117-1125): both volumes are read, then both are
    written. *)
Definition write_phases (pat_id name : string) (out_phase_clean in_phase_clean : address)
    (dixon_split : list (Qc * subseries)) (out_phase in_phase : nat) : ST state unit :=
  (try_except_else
     (lift (o <~ index dixon_split out_phase ;;
            out_phase_vol <~ sub_volume (snd o) ;;
            i <~ index dixon_split in_phase ;;
            in_phase_vol <~ sub_volume (snd i) ;;
            Ok (o, out_phase_vol, i, in_phase_vol)))
     (fun e => logging_error ("Patient " +:+ pat_id +:+ " - " +:+ name) (Some e))
     (fun '(o, out_phase_vol, i, in_phase_vol) =>
        db_write_volume out_phase_vol out_phase_clean (sub_ref (snd o)) ;;
        db_write_volume in_phase_vol in_phase_clean (sub_ref (snd i))))%st.

(** The body of the loop over the archives of one patient (lines 567-642). *)
Definition bari_series (pat_id : string) (zip_series : zip_file) : ST state unit :=
  (let sitedatapath := bari_sitedatapath in
   let zip_name := zip_name_of zip_series in
   try_except_else (on_pat_series (bari_add_series_name zip_name))
     (fun e => logging_error
                 ("Patient " +:+ pat_id +:+ " - error renaming " +:+ zip_name) (Some e))
     (fun _ =>
        name <- last_name ;;
        let study := [CStr sitedatapath; CStr pat_id; CTup "Baseline" 0] in
        let out_phase_clean := study ++ [CTup (name +:+ "out_phase") 0] in
        let in_phase_clean := study ++ [CTup (name +:+ "in_phase") 0] in
        s <- get ;;
        if series_exists out_phase_clean (store s) then ret tt else
        try_except_else (lift (zip_extractall zip_series))
          (fun e => logging_error
                      ("Patient " +:+ pat_id +:+ " - error extracting " +:+ zip_name) (Some e))
          (fun extract_to =>
             dixon <- lift (index (ex_series extract_to) 0) ;;
             try_except_else (lift (split_EchoTime dixon))
               (fun e => logging_error
                           ("Error splitting Bari series " +:+ pat_id +:+ " " +:+ zip_name) (Some e))
               (fun dixon_split =>
                  if (length dixon_split =? 1)%nat then
                    logging_error
                      ("Bari patient " +:+ pat_id +:+ ", series " +:+ zip_name
                       +:+ ": Only one echo time found. Excluded from database.") None
                  else if String.eqb pat_id "1128_030" && String.eqb name "Dixon_1_" then
                    bari_030 dixon_split
                  else
                    order <- lift (phase_order dixon_split) ;;
                    write_phases pat_id name out_phase_clean in_phase_clean
                      dixon_split (fst order) (snd order)))))%st.

Definition bari_patient (pat : patient_dir) : ST state unit :=
  (let pat_id := bari_ibeat_patient_id (dir_name pat) in
   if Py.mem pat_id EXCLUDE then ret tt else
   let all_zip_series :=
     List.filter (fun z => negb (Py.contains "OT" (zip_filename z))) (dir_files pat) in
   all_zip_series <- lift (sorted_by zip_series_number all_zip_series) ;;
   modify (set_pat_series []) ;;
   for_each all_zip_series (bari_series pat_id))%st.

Definition bari (patients : list patient_dir) : ST state unit :=
  for_each patients bari_patient.

(** ** Turku, Philips scanner (lines 862-950) *)

Definition turku_philips_sitedatapath : string := site_patients "Turku_Philips".

(** Lines 945-950.  [vol] is a local variable of [turku_philips]: it keeps
    the value of the last successful [db.volume], and reading it before
    any assignment raises [UnboundLocalError], a [NameError]. *)
Definition turku_philips_write_split (pat_id name : string)
    (dixon_clean : gmap string address) (split_series : string * subseries) : ST state unit :=
  (try_except_else (lift (sub_volume (snd split_series)))
     (fun e => logging_error ("Patient " +:+ pat_id +:+ " - " +:+ name) (Some e))
     (fun v => modify (set_vol v)) ;;
   s <- get ;;
   v <- lift (match vol s with Some v => Ok v | None => Raise NameError end) ;;
   a <- lift (match dixon_clean !! fst split_series with
              | Some a => Ok a
              | None => Raise KeyError
              end) ;;
   db_write_volume v a (sub_ref (snd split_series)))%st.

Definition turku_philips_series (pat_id : string) (zip_series : zip_file) : ST state unit :=
  (let sitedatapath := turku_philips_sitedatapath in
   let zip_name := zip_name_of zip_series in
   try_except_else (on_pat_series (turku_philips_add_series_name zip_name))
     (fun e => logging_error
                 ("Patient " +:+ pat_id +:+ " - error renaming " +:+ zip_name) (Some e))
     (fun _ =>
        name <- last_name ;;
        let study := [CStr sitedatapath; CStr pat_id; CTup "Baseline" 0] in
        let dixon_clean : gmap string address :=
          list_to_map [
            ("OP", study ++ [CTup (name +:+ "out_phase") 0]);
            ("IP", study ++ [CTup (name +:+ "in_phase") 0]);
            ("W", study ++ [CTup (name +:+ "water") 0]);
            ("F", study ++ [CTup (name +:+ "fat") 0])
          ] in
        s <- get ;;
        if series_exists (study ++ [CTup (name +:+ "out_phase") 0]) (store s) then ret tt else
        try_except_else (lift (zip_extractall zip_series))
          (fun e => logging_error
                      ("Patient " +:+ pat_id +:+ " - error extracting " +:+ zip_name) (Some e))
          (fun extract_to =>
             dixon <- lift (index (ex_series extract_to) 0) ;;
             try_except_else (lift (split_ImageType dixon))
               (fun e => logging_error
                           ("Error splitting Turku series " +:+ pat_id +:+ " " +:+ zip_name) (Some e))
               (fun dixon_split =>
                  if (length dixon_split =? 1)%nat then
                    logging_error
                      ("Turku patient " +:+ pat_id +:+ ", series " +:+ zip_name
                       +:+ ": Only one image type found. Excluded from database.") None
                  else
                    for_each dixon_split
                      (turku_philips_write_split pat_id name dixon_clean)))))%st.

Definition turku_philips_patient (pat : patient_dir) : ST state unit :=
  (let pat_id := fst (turku_philips_ibeat_patient_id (dir_name pat)) in
   if Py.mem pat_id EXCLUDE then ret tt else
   all_zip_series <- lift (sorted_by zip_series_number (dir_files pat)) ;;
   modify (set_pat_series []) ;;
   for_each all_zip_series (turku_philips_series pat_id))%st.

Definition turku_philips (patients : list patient_dir) : ST state unit :=
  for_each patients turku_philips_patient.

(** ** Exeter patient 3128_111 (lines 1058-1125) *)

Definition exeter_sitedatapath : string := site_patients "Exeter".

Definition exeter_111_series (zip_series : zip_file) : ST state unit :=
  (let sitedatapath := exeter_sitedatapath in
   let pat_id := "3128_111" in
   let zip_name := zip_name_of zip_series in
   try_except_else (lift (zip_extractall zip_series))
     (fun e => logging_error
                 ("Patient " +:+ pat_id +:+ " - error extracting " +:+ zip_name) (Some e))
     (fun extract_to =>
        dixon <- lift (index (ex_series extract_to) 0) ;;
        dixon_split <- lift (split_EchoTime dixon) ;;
        order <- lift (phase_order dixon_split) ;;
        let sequence :=
          if String.eqb zip_name "series_04" then "Dixon_1_" else "Dixon_post_contrast_1_" in
        let study := [CStr sitedatapath; CStr pat_id; CTup "Baseline" 0] in
        let out_phase_clean := study ++ [CTup (sequence +:+ "out_phase") 0] in
        let in_phase_clean := study ++ [CTup (sequence +:+ "in_phase") 0] in
        write_phases pat_id sequence out_phase_clean in_phase_clean
          dixon_split (fst order) (snd order)))%st.

(** The folder of the download area with the given name; [os.listdir] and
    [os.scandir] raise when it does not exist. *)
Definition find_dir (name : string) (patients : list patient_dir) : result patient_dir :=
  match List.find (fun d => String.eqb (dir_name d) name) patients with
  | Some d => Ok d
  | None => Raise FileNotFoundError
  end.

(** [exeter_111] reads the folder [iBE-3128-111] of the download area. *)
Definition exeter_111 (patients : list patient_dir) : ST state unit :=
  (let sitedatapath := exeter_sitedatapath in
   let pat_id := "3128_111" in
   let dixon_clean_study := [CStr sitedatapath; CStr pat_id; CTup "Baseline" 0] in
   s <- get ;;
   if study_exists dixon_clean_study (store s) then ret tt else
   patient <- lift (find_dir "iBE-3128-111" patients) ;;
   all_zip_series <- lift (sorted_by zip_series_number (dir_files patient)) ;;
   for_each all_zip_series exeter_111_series)%st.

(** ** The sites that extract all series of a patient before writing
    (Sheffield, Turku GE, Bordeaux, Exeter) *)

(** The first loop (e.g. lines 720-743): extract, classify, and remember the
    folder under the name just recorded. *)
Definition buffer_series (add_series_desc : folder -> ST ledger unit)
    (pat_id : string) (zip_series : zip_file) : ST state unit :=
  (let zip_name := zip_name_of zip_series in
   try_except_else (lift (zip_extractall zip_series))
     (fun e => logging_error
                 ("Patient " +:+ pat_id +:+ " - error extracting " +:+ zip_name) (Some e))
     (fun extract_to =>
        try_except_else (on_pat_series (add_series_desc (folder_of zip_name extract_to)))
          (fun e => logging_error
                      ("Patient " +:+ pat_id +:+ " - error renaming " +:+ zip_name) (Some e))
          (fun _ =>
             name <- last_name ;;
             s <- get ;;
             modify (set_tmp_series_folder (<[name := extract_to]> (tmp_series_folder s))))))%st.

Definition dixon_families : list string := ["Dixon"; "Dixon_post_contrast"].
Definition repetitions : list nat := [1; 2; 3]%nat.    (* never more than 3 repetitions *)
Definition image_types : list string := ["out_phase"; "in_phase"; "fat"; "water"].

(** The loop nest [for series .. for counter in [1,2,3] .. for image_type ..]
    shared by the second loops (e.g. lines 747-751). *)
Definition in_proper_order (body : string -> nat -> string -> ST state unit) : ST state unit :=
  for_each dixon_families (fun series =>
    for_each repetitions (fun counter =>
      for_each image_types (fun image_type => body series counter image_type))).

(** Lines 750-765, 844-860 and 1022-1035; [named] builds the last component
    of the address from the series description. *)
Definition write_buffered (record : list (list string)) (pat_id : string)
    (dixon_clean_study : address) (named : string -> component)
    (series : string) (counter : nat) (image_type : string) : ST state unit :=
  (let family := series +:+ "_" +:+ Py.str counter in
   let series_desc := family +:+ "_" +:+ image_type in
   s <- get ;;
   match tmp_series_folder s !! series_desc with
   | None => ret tt
   | Some extract_to =>
       dixon <- lift (index (ex_series extract_to) 0) ;;
       let dixon_clean := dixon_clean_study ++ [named series_desc] in
       dixon_clean <- lift (swap_fat_water record dixon_clean family image_type) ;;
       try_except_else (lift (db_volume dixon))
         (fun e => logging_error ("Patient " +:+ pat_id +:+ " - " +:+ series_desc) (Some e))
         (fun dixon_vol => db_write_volume dixon_vol dixon_clean (ref dixon))
   end)%st.

(** *** Sheffield (lines 669-765) *)

Definition sheffield_sitedatapath : string := site_patients "Sheffield".

Definition sheffield_patient (record : list (list string)) (patient : patient_dir) : ST state unit :=
  (let sitedatapath := sheffield_sitedatapath in
   let pat_id := sheffield_ibeat_patient_id (dir_name patient) in
   if Py.mem pat_id EXCLUDE then ret tt else
   s <- get ;;
   if patient_exists sitedatapath pat_id (store s) then ret tt else
   experiment <- lift (index (dir_subdirs patient) 0) ;;
   all_zip_series <- lift (sorted_by zip_series_number experiment) ;;
   modify (set_pat_series []) ;;
   modify (set_tmp_series_folder ∅) ;;
   for_each all_zip_series (buffer_series sheffield_add_series_desc pat_id) ;;
   in_proper_order
     (write_buffered record pat_id
        [CStr sitedatapath; CStr pat_id; CTup "Baseline" 0] CStr))%st.

Definition sheffield (record : list (list string)) (patients : list patient_dir) : ST state unit :=
  for_each patients (sheffield_patient record).

(** *** Turku, GE scanner (lines 767-860) *)

Definition turku_sitedatapath : string := site_patients "Turku".

Definition turku_ge_patient (record : list (list string)) (patient : patient_dir) : ST state unit :=
  (let sitedatapath := turku_sitedatapath in
   let '(pat_id, time_point) := turku_ge_ibeat_patient_id (dir_name patient) in
   if Py.mem pat_id EXCLUDE then ret tt else
   let dixon_clean_study := [CStr sitedatapath; CStr pat_id; CTup time_point 0] in
   s <- get ;;
   if study_exists dixon_clean_study (store s) then ret tt else
   all_zip_series <- lift (sorted_by zip_series_number (dir_files patient)) ;;
   modify (set_pat_series []) ;;
   modify (set_tmp_series_folder ∅) ;;
   for_each all_zip_series (buffer_series turku_add_series_desc pat_id) ;;
   in_proper_order (write_buffered record pat_id dixon_clean_study CStr))%st.

Definition turku_ge (record : list (list string)) (patients : list patient_dir) : ST state unit :=
  for_each patients (turku_ge_patient record).

(** *** Bordeaux (lines 953-1035) *)

Definition bordeaux_sitedatapath : string := site_patients "Bordeaux".

Definition bordeaux_patient (visit : string) (record : list (list string))
    (patient : patient_dir) : ST state unit :=
  (let sitedatapath := bordeaux_sitedatapath in
   let pat_id := bordeaux_ibeat_patient_id (dir_name patient) in
   if Py.mem pat_id EXCLUDE then ret tt else
   let dixon_clean_study := [CStr sitedatapath; CStr pat_id; CTup visit 0] in
   s <- get ;;
   if study_exists dixon_clean_study (store s) then ret tt else
   all_zip_series <- lift (sorted_by zip_series_number (dir_files patient)) ;;
   modify (set_pat_series []) ;;
   modify (set_tmp_series_folder ∅) ;;
   for_each all_zip_series (buffer_series bordeaux_add_series_desc pat_id) ;;
   in_proper_order (write_buffered record pat_id dixon_clean_study CStr))%st.

Definition bordeaux_patients (visit : string) (record : list (list string))
    (patients : list patient_dir) : ST state unit :=
  for_each patients (bordeaux_patient visit record).

(** *** Exeter (lines 1129-1239) *)

Definition split_on_xnat : list (string * string) :=
  [("Baseline", "3128_039"); ("Baseline", "3128_107"); ("Followup", "3128_012");
   ("Followup", "3128_031"); ("Followup", "3128_050")].

Definition pair_mem (x : string * string) (l : list (string * string)) : bool :=
  existsb (fun y => String.eqb (fst x) (fst y) && String.eqb (snd x) (snd y)) l.

Section Exeter.

(** [vol.reslice(orient='coronal', spacing=1.5)], an operation of vreg. *)
Variable reslice_coronal : volume -> result volume.

(** One missing slice in three known series. *)
Definition exeter_interpolated (visit pat_id series image_type : string) : bool :=
  (String.eqb visit "Baseline" && String.eqb pat_id "3128_044"
     && String.eqb series "Dixon_post_contrast" && String.eqb image_type "in_phase")
  || (String.eqb visit "Baseline" && String.eqb pat_id "3128_082"
     && String.eqb series "Dixon_post_contrast" && String.eqb image_type "fat")
  || (String.eqb visit "Baseline" && String.eqb pat_id "3128_120"
     && String.eqb series "Dixon_post_contrast" && String.eqb image_type "out_phase").

(** Series acquired axially. *)
Definition exeter_resliced (visit pat_id series : string) (counter : nat) : bool :=
  (String.eqb visit "Baseline" && String.eqb pat_id "3128_014"
     && String.eqb series "Dixon" && (counter =? 2)%nat)
  || (String.eqb visit "Baseline" && String.eqb pat_id "3128_086"
     && String.eqb series "Dixon_post_contrast" && (counter =? 1)%nat)
  || (String.eqb visit "Baseline" && String.eqb pat_id "3128_104"
     && String.eqb series "Dixon" && (counter =? 2)%nat)
  || (String.eqb visit "Baseline" && String.eqb pat_id "3128_104"
     && String.eqb series "Dixon_post_contrast" && (counter =? 1)%nat).

Definition exeter_write_buffered (visit : string) (record : list (list string))
    (pat_id : string) (dixon_clean_study : address)
    (series : string) (counter : nat) (image_type : string) : ST state unit :=
  (let family := series +:+ "_" +:+ Py.str counter in
   let series_desc := family +:+ "_" +:+ image_type in
   s <- get ;;
   match tmp_series_folder s !! series_desc with
   | None => ret tt
   | Some extract_to =>
       dixon <- lift (index (ex_series extract_to) 0) ;;
       let dixon_clean := dixon_clean_study ++ [CTup series_desc 0] in
       dixon_clean <- lift (swap_fat_water record dixon_clean family image_type) ;;
       if pair_mem (visit, pat_id) split_on_xnat
          && series_exists dixon_clean (store s)
       then ret tt else
       try_except_else
         (lift (if exeter_interpolated visit pat_id series image_type
                then (p <~ db_pixel_data dixon ;; exeter_interpolate_vol p)
                else db_volume dixon))
         (fun e => logging_error ("Patient " +:+ pat_id +:+ " - " +:+ series_desc) (Some e))
         (fun dixon_vol =>
            dixon_vol <- lift (if exeter_resliced visit pat_id series counter
                               then reslice_coronal dixon_vol
                               else Ok dixon_vol) ;;
            db_write_volume dixon_vol dixon_clean (ref dixon))
   end)%st.

Definition exeter_patient (visit : string) (record : list (list string))
    (patients : list patient_dir) (patient : patient_dir) : ST state unit :=
  (let sitedatapath := exeter_sitedatapath in
   let pat_id := exeter_ibeat_patient_id (dir_name patient) in
   if Py.mem pat_id EXCLUDE then ret tt else
   if String.eqb visit "Baseline" && String.eqb pat_id "3128_111" then
     exeter_111 patients
   else
   let dixon_clean_study := [CStr sitedatapath; CStr pat_id; CTup visit 0] in
   s <- get ;;
   if negb (pair_mem (visit, pat_id) split_on_xnat)
      && study_exists dixon_clean_study (store s)
   then ret tt else
   all_zip_series <- lift (sorted_by zip_series_number (dir_files patient)) ;;
   modify (set_pat_series []) ;;
   modify (set_tmp_series_folder ∅) ;;
   for_each all_zip_series (buffer_series exeter_add_series_desc pat_id) ;;
   in_proper_order (exeter_write_buffered visit record pat_id dixon_clean_study))%st.

Definition exeter_patients (visit : string) (record : list (list string))
    (patients : list patient_dir) : ST state unit :=
  for_each patients (exeter_patient visit record patients).

End Exeter.

(** ** Leeds (lines 371-476) *)

Definition leeds_sitedatapath : string := site_patients "Leeds".

Definition leeds_054_dixon : gmap Z string :=
  list_to_map [
    (4, "Dixon_1_out_phase"); (5, "Dixon_1_in_phase");
    (6, "Dixon_1_fat"); (7, "Dixon_1_water");
    (41, "Dixon_post_contrast_1_out_phase"); (42, "Dixon_post_contrast_1_in_phase");
    (43, "Dixon_post_contrast_1_fat"); (44, "Dixon_post_contrast_1_water")
  ]%Z.

(** [db.move(s, new_series)] into the second temporary database: the
    series moved under one name form one series, in the order of their
    arrival. *)
Fixpoint move_into (name : string) (x : series) (db2 : list (string * list series))
    : list (string * list series) :=
  match db2 with
  | [] => [(name, [x])]
  | (n, xs) :: db2' =>
      if String.eqb n name then (n, xs ++ [x]) :: db2'
      else (n, xs) :: move_into name x db2'
  end.

Fixpoint extract_all (zips : list zip_file) : result (list series) :=
  match zips with
  | [] => Ok []
  | z :: zips' =>
      x <~ zip_extractall z ;;
      rest <~ extract_all zips' ;;
      Ok (ex_series x ++ rest)
  end.

Fixpoint group_by_series_number (l : list series) (db2 : list (string * list series))
    : result (list (string * list series)) :=
  match l with
  | [] => Ok db2
  | x :: l' =>
      v <~ index (SeriesNumber x) 0 ;;
      name <~ match leeds_054_dixon !! v with
              | Some n => Ok n
              | None => Raise KeyError
              end ;;
      group_by_series_number l' (move_into name x db2)
  end.

Section Leeds.

(** [db.volume] on a series put together by [db.move]. *)
Variable db_volume_moved : list series -> result volume.

(** [leeds_054] reads the folder [iBE-4128-054] of the download area. *)
Definition leeds_054 (patients : list patient_dir) : ST state unit :=
  (let sitedatapath := leeds_sitedatapath in
   pat <- lift (find_dir "iBE-4128-054" patients) ;;
   temp_database_1 <- lift (extract_all (dir_files pat)) ;;
   temp_database_2 <- lift (group_by_series_number temp_database_1 []) ;;
   for_each temp_database_2 (fun s =>
     try_except_else (lift (db_volume_moved (snd s)))
       (fun e => logging_error ("Patient 4128_054 - " +:+ fst s) (Some e))
       (fun dixon_vol =>
          let new_series :=
            [CStr sitedatapath; CStr "4128_054"; CTup "Baseline" 0; CTup (fst s) 0] in
          db_write_volume dixon_vol new_series (fst s))))%st.

Definition leeds_series (pat_id : string) (zip_series : zip_file) : ST state unit :=
  (let sitedatapath := leeds_sitedatapath in
   let zip_name := Py.splitext_root (zip_filename zip_series) in
   extract_to <- lift (zip_extractall zip_series) ;;
   try_except_else (on_pat_series (leeds_add_series_name (folder_of zip_name extract_to)))
     (fun e => logging_error
                 ("Patient " +:+ pat_id +:+ " - error renaming " +:+ zip_name) (Some e))
     (fun _ =>
        dixon <- lift (index (ex_series extract_to) 0) ;;
        name <- last_name ;;
        let dixon_clean := [CStr sitedatapath; CStr pat_id; CStr "Baseline"; CStr name] in
        try_except_else (lift (db_volume dixon))
          (fun e => logging_error ("Patient " +:+ pat_id +:+ " - " +:+ name) (Some e))
          (fun dixon_vol => db_write_volume dixon_vol dixon_clean (ref dixon))))%st.

Definition leeds_patient (patients : list patient_dir) (pat : patient_dir) : ST state unit :=
  (let sitedatapath := leeds_sitedatapath in
   let pat_id := leeds_ibeat_patient_id (dir_name pat) in
   s <- get ;;
   if patient_exists sitedatapath pat_id (store s) then ret tt else
   if String.eqb pat_id "4128_054" then
     leeds_054 patients
   else
     modify (set_pat_series []) ;;
     for_each (dir_files pat) (leeds_series pat_id))%st.

Definition leeds (patients : list patient_dir) : ST state unit :=
  for_each patients (leeds_patient patients).

End Leeds.

(** ** The gap interpolator as the specification words it (section 4.5)

    For a gap of [m] missing slices the [k]-th synthesized slice
    ([k = 0 .. m-1]) blends the slice before the gap with weight
    [(m-k)/(m+1)] and the slice after it with weight [(k+1)/(m+1)]. *)

Definition weight (num den : nat) : Qc := Q2Qc (Z.of_nat num # Pos.of_nat den)%Q.

Definition linear_blend (m k : nat) (before after : list (list Qc)) : list (list Qc) :=
  blend (weight (m - k) (m + 1)) before (weight (k + 1) (m + 1)) after.

(** A frame of one pixel. *)
Definition pixel (x : Z) : list (list Qc) := [[Q2Qc (x # 1)%Q]].

Definition unit_geometry : geometry :=
  {| ImageOrientationPatient := []; ImagePositionPatient := [];
     PixelSpacing := []; SpacingBetweenSlices := Q2Qc (3 # 2)%Q |}.

(** A stack of two slices around the gap of [bari_030]: intensity 0 at the
    last slice before the gap, 3 at the first slice after it. *)
Definition gap_of_two : pixel_data :=
  {| arr := [pixel 0; pixel 3];
     crd := [loc0_out_phase; (loc0_out_phase + Q2Qc (9 # 2)%Q)%Qc];
     val := [unit_geometry; unit_geometry] |}.

(** ** The swap-correction table as the specification words it (section 4.3)

    A record matches when its columns 1 to 3 are the patient, the study and
    the channel family (with its repetition) of the lookup; it is flagged
    when its column 4 is ['1']. *)

Definition row_key (row : list string) : list string := take 3 (drop 1 row).

Definition flagged (record : list (list string)) (key : list string) : Prop :=
  exists row, row ∈ record /\ row_key row = key /\ row !! 4%nat = Some "1".

(** Every record that matches carries its flag column. *)
Definition flags_present (record : list (list string)) (key : list string) : Prop :=
  forall row, row ∈ record -> row_key row = key -> is_Some (row !! 4%nat).

(** ** The names a base name gives rise to

    The candidate that the loop of the classifiers tests at its [k]-th
    turn ([k >= 1]): the base name itself, then the base name with its
    ['_1_'] replaced. *)

Definition channel_name (series_name : string) (k : nat) : string :=
  if (k =? 1)%nat then series_name
  else Py.replace "_1_" (counter_token k) series_name.

Fixpoint all_digits (s : string) : bool :=
  match s with
  | EmptyString => true
  | String c s' => Py.is_digit c && all_digits s'
  end.

(** What follows the repetition index in the [k]-th name of a base name
    [family_1_rest]. *)
Definition name_tail (rest : string) (k : nat) : string :=
  if (k =? 1)%nat then rest
  else Py.replace_from 0 "_1_" (counter_token k) rest.

Definition is_family (family : string) : Prop :=
  family = "Dixon" \/ family = "Dixon_post_contrast".

(** A base name of one of the two families. *)
Definition has_family (base : string) : Prop :=
  exists family rest, is_family family /\ base = family +:+ "_1_" +:+ rest.

(** ** Names written to the store *)

(** [f'{series}_{counter}_{image_type}'] *)
Definition series_desc_of (series : string) (counter : nat) (image_type : string) : string :=
  (series +:+ "_" +:+ Py.str counter) +:+ "_" +:+ image_type.

Definition description (c : component) : string :=
  match c with
  | CStr s => s
  | CTup s _ => s
  end.

(** The channel name of a written volume: the description of the last
    component of its address. *)
Definition written_name (w : write) : option string :=
  option_map description (last (w_address w)).

(** A channel name of one of the two families with repetition index 1, 2
    or 3. *)
Definition repetition_1_to_3 (w : write) : Prop :=
  exists series counter image_type,
    series ∈ dixon_families /\ counter ∈ repetitions /\ image_type ∈ image_types /\
    written_name w = Some (series_desc_of series counter image_type).

(** The driver [m] only appends to the store, and what it appends
    satisfies [P]. *)
Definition appends {A} (P : write -> Prop) (m : ST state A) : Prop :=
  forall s r s', m s = (r, s') ->
    exists new, store s' = store s ++ new /\ Forall P new.

(** ** Sample inputs *)

Definition volume_of (x : Z) : volume :=
  {| values := [pixel x]; affine := unit_geometry |}.

(** A series that is not split. *)
Definition whole_series (r : string) (v : result volume) : series :=
  {| ref := r; SeriesNumber := []; db_volume := v; db_pixel_data := Raise DbError;
     split_EchoTime := Raise DbError; split_ImageType := Raise DbError |}.

(** A GE fat image as Sheffield receives it. *)
Definition ge_fat : dataset :=
  {| ImageType := None;
     SeriesDescription := Some "FAT: T1_abdomen_dixon_cor_bh";
     Manufacturer := Some "GE MEDICAL SYSTEMS";
     EchoTime := None |}.

Definition fat_zip (n : string) (x : Z) : zip_file :=
  {| zip_filename := "series_" +:+ n +:+ ".zip";
     zip_extractall :=
       Ok {| ex_files := [Ok ge_fat];
             ex_series := [whole_series n (Ok (volume_of x))] |} |}.

(** A Sheffield patient whose pre-contrast fat image was acquired four
    times. *)
Definition four_fat_series : patient_dir :=
  {| dir_name := "SHE7128001"; dir_files := [];
     dir_subdirs := [[fat_zip "3" 3; fat_zip "4" 4; fat_zip "5" 5; fat_zip "6" 6]] |}.

(** One part of a split series. *)
Definition part (r : string) (v : result volume) : subseries :=
  {| sub_ref := r; sub_volume := v; sub_pixel_data := Raise DbError |}.

(** A series that [db.split_series] splits by image type. *)
Definition typed_series (r : string) (parts : list (string * subseries)) : series :=
  {| ref := r; SeriesNumber := []; db_volume := Raise DbError;
     db_pixel_data := Raise DbError; split_EchoTime := Raise DbError;
     split_ImageType := Ok parts |}.

Definition philips_zip (n : string) (parts : list (string * subseries)) : zip_file :=
  {| zip_filename := "series_" +:+ n +:+ ".zip";
     zip_extractall := Ok {| ex_files := []; ex_series := [typed_series n parts] |} |}.

(** A Turku Philips patient with one Dixon series that holds an in-phase
    and a water image but no opposed-phase image. *)
Definition philips_without_OP : patient_dir :=
  {| dir_name := "5128-001";
     dir_files :=
       [philips_zip "501" [("IP", part "501/IP" (Ok (volume_of 1)));
                           ("W", part "501/W" (Ok (volume_of 2)))]];
     dir_subdirs := [] |}.

(** A Turku Philips patient whose first series has an opposed-phase part
    that [db.volume] cannot assemble, followed by a sound series. *)
Definition philips_corrupt_first : patient_dir :=
  {| dir_name := "5128-002";
     dir_files :=
       [philips_zip "501" [("OP", part "501/OP" (Raise DbError));
                           ("IP", part "501/IP" (Ok (volume_of 1)))];
        philips_zip "1201" [("OP", part "1201/OP" (Ok (volume_of 3)));
                            ("IP", part "1201/IP" (Ok (volume_of 4)))]];
     dir_subdirs := [] |}.

(** A sound Turku Philips patient. *)
Definition philips_sound : patient_dir :=
  {| dir_name := "5128-003";
     dir_files :=
       [philips_zip "501" [("OP", part "501/OP" (Ok (volume_of 5)));
                           ("IP", part "501/IP" (Ok (volume_of 6)))]];
     dir_subdirs := [] |}.

(** A Turku Philips patient whose in-phase part cannot be assembled, after
    an opposed-phase part that can. *)
Definition philips_corrupt_second : patient_dir :=
  {| dir_name := "5128-004";
     dir_files :=
       [philips_zip "501" [("OP", part "501/OP" (Ok (volume_of 7)));
                           ("IP", part "501/IP" (Raise DbError))]];
     dir_subdirs := [] |}.

(** Two parts of a series split by echo time, listed with the higher echo
    time first. *)
Definition te_out_phase : Qc := Q2Qc (115 # 100)%Q.
Definition te_in_phase : Qc := Q2Qc (230 # 100)%Q.

Definition two_echoes : list (Qc * subseries) :=
  [(te_in_phase, part "echo_2" (Ok (volume_of 2)));
   (te_out_phase, part "echo_1" (Ok (volume_of 1)))].

(** A swap record for the first pre-contrast Dixon of patient 7128_001. *)
Definition sample_record : list (list string) :=
  [["Site"; "Patient"; "Study"; "Series"; "Swap"];
   ["Sheffield"; "7128_001"; "Baseline"; "Dixon_1"; "1"];
   ["Sheffield"; "7128_002"; "Baseline"; "Dixon_1"; "0"]].

Definition sample_address (name : string) : list component :=
  [CStr sheffield_sitedatapath; CStr "7128_001"; CTup "Baseline" 0; CStr name].

(** A Siemens image whose series description the dictionary of Bordeaux
    does not know. *)
Definition unknown_description : folder :=
  {| basename := "series_12";
     listdir := [Ok {| ImageType := None; SeriesDescription := Some "T2_haste";
                       Manufacturer := Some "SIEMENS"; EchoTime := None |}] |}.

(** A Leeds fat image in the folder of series 4. *)
Definition leeds_fat_04 : folder :=
  {| basename := "series_04";
     listdir := [Ok {| ImageType := Some ["DERIVED"; "PRIMARY"; "DIXON"; "FAT"];
                       SeriesDescription := None; Manufacturer := Some "SIEMENS";
                       EchoTime := None |}] |}.

(** ** Classifications of one patient in call order *)

(** The number of earlier classifications that derived the base name [b]. *)
Definition occurrences (b : string) (seen : list string) : nat :=
  length (List.filter (String.eqb b) seen).

(** The names that a sequence of classifications is expected to record,
    given the base names [seen] derived before it: each base name gets the
    number of its occurrences so far. *)
Fixpoint numbered (seen calls : list string) : list string :=
  match calls with
  | [] => []
  | b :: calls' =>
      channel_name b (S (occurrences b seen)) :: numbered (seen ++ [b]) calls'
  end.

(** A base name of one of the two families whose image type holds no
    ['_1_'] of its own, as all names of the dictionaries do. *)
Definition plain_base (base : string) : Prop :=
  exists family rest,
    is_family family /\ Py.contains "_1_" rest = false /\
    base = family +:+ "_1_" +:+ rest.

(** The ledger after the classifications [seen]: it holds, of every plain
    base name, the names numbered 1 to the number of its occurrences. *)
Definition ledger_of (seen L : list string) : Prop :=
  length L = length seen /\
  forall b k, plain_base b -> 1 <= k -> channel_name b k ∈ L <-> k <= occurrences b seen.

(** The seven classifiers: how each derives its base name, and its update
    of the ledger. *)
Inductive classifier : forall {A : Type},
    (A -> result string) -> (A -> ST (list string) unit) -> Prop :=
  | classifier_leeds : classifier leeds_series_name leeds_add_series_name
  | classifier_bordeaux : classifier bordeaux_series_desc bordeaux_add_series_desc
  | classifier_exeter : classifier exeter_series_desc exeter_add_series_desc
  | classifier_sheffield : classifier sheffield_series_desc sheffield_add_series_desc
  | classifier_turku : classifier turku_series_desc turku_add_series_desc
  | classifier_bari : classifier bari_series_name bari_add_series_name
  | classifier_turku_philips :
      classifier turku_philips_series_name turku_philips_add_series_name.

(** The classifications of a patient scanned twice: the four images of the
    pre-contrast Dixon, then three of them again. *)
Definition two_acquisitions : list string :=
  ["Dixon_1_out_phase"; "Dixon_1_in_phase"; "Dixon_1_fat"; "Dixon_1_water";
   "Dixon_1_out_phase"; "Dixon_1_in_phase"; "Dixon_post_contrast_1_fat";
   "Dixon_1_out_phase"].



(** A Philips in-phase image of Sheffield, and a ledger that already holds
    two names of its base name. *)
Definition philips_in_phase : folder :=
  {| basename := "series_7";
     listdir := [Ok {| ImageType := None;
                       SeriesDescription := Some "T1w_abdomen_dixon_cor_bh";
                       Manufacturer := Some "Philips Healthcare";
                       EchoTime := Some (Q2Qc (23 # 10)%Q) |}] |}.

Definition ledger_with_gap : list string :=
  ["Dixon_1_in_phase"; "Dixon_1_out_phase"; "Dixon_3_in_phase"].

(** ** Sorting by series number *)

Fixpoint nondecreasing (ks : list Z) : Prop :=
  match ks with
  | [] => True
  | k :: ks' => Forall (fun k' => (k <= k')%Z) ks' /\ nondecreasing ks'
  end.

(** [fold_right] of the insertion, as in [sorted_by]. *)
Definition insertion_sort {A} (kl : list (Z * A)) : list (Z * A) :=
  fold_right (fun ka acc => insert_by_key (fst ka) (snd ka) acc) [] kl.

(** The elements whose key is [k]. *)
Definition with_key {A} (key : A -> result Z) (k : Z) (l : list A) : list A :=
  List.filter (fun a => match key a with Ok k' => (k' =? k)%Z | Raise _ => false end) l.

(** A patient folder of Bari that holds a file without a series number. *)
Definition folder_with_stray_file : patient_dir :=
  {| dir_name := "iBE-1128-007";
     dir_files :=
       [ {| zip_filename := "series_501.zip";
            zip_extractall := Ok {| ex_files := []; ex_series := [] |} |};
         {| zip_filename := "readme.txt"; zip_extractall := Raise BadZipFile |} ];
     dir_subdirs := [] |}.

(** Three archives listed out of order, two of them with the same number. *)
Definition unordered_names : list string :=
  ["series_1201.zip"; "series_501.zip"; "series_0501.zip"; "series_3.zip"].

Definition name_number (x : string) : result Z :=
  py_int (Py.slice 7 (String.length x - 4) x).


(** ** Two runs of a driver side by side *)

(** The local variables that two runs have in common: the list
    [pat_series], the dictionary [tmp_series_folder], or neither. *)
Definition agree (ledger buffer : bool) (s t : state) : Prop :=
  (ledger = true -> pat_series s = pat_series t) /\
  (buffer = true -> tmp_series_folder s = tmp_series_folder t).

(** Started in two states that agree, [m1] and [m2] return the same
    result, end in states that agree, and append the same writes, all
    satisfying [P]: they do not read the store. *)
Definition blind2 {A} (ledger buffer : bool) (P : write -> Prop)
    (m1 m2 : ST state A) : Prop :=
  forall s t, agree ledger buffer s t ->
    fst (m1 s) = fst (m2 t) /\
    agree ledger buffer (snd (m1 s)) (snd (m2 t)) /\
    exists new,
      store (snd (m1 s)) = store s ++ new /\
      store (snd (m2 t)) = store t ++ new /\
      Forall P new.

(** The address of a write lies under [prefix]. *)
Definition under (prefix : address) (w : write) : Prop :=
  take (length prefix) (norm (w_address w)) = norm prefix.

(** [m] tests the store once and, when the test fails, goes on without
    reading the store or the local variables it was started with. *)
Definition guarded (check : list write -> bool) (P : write -> Prop)
    (m : ST state unit) : Prop :=
  exists Q : ST state unit,
    (forall s, m s = if check (store s) then (Ok tt, s) else Q s) /\
    blind2 false false P Q Q.

(** The drivers that extract all series of a patient before they write. *)
Inductive buffered_driver : (list patient_dir -> ST state unit) -> Prop :=
  | sheffield_buffers record : buffered_driver (sheffield record)
  | turku_ge_buffers record : buffered_driver (turku_ge record)
  | bordeaux_buffers visit record : buffered_driver (bordeaux_patients visit record).

(** A Leeds patient with the fat image of the pre-contrast Dixon. *)
Definition leeds_fat_patient : patient_dir :=
  {| dir_name := "iBE-4128-001";
     dir_files :=
       [ {| zip_filename := "series_04.zip";
            zip_extractall :=
              Ok {| ex_files := listdir leeds_fat_04;
                    ex_series := [whole_series "4" (Ok (volume_of 4))] |} |} ];
     dir_subdirs := [] |}.

(** A Bari patient with one Dixon series of two echo times. *)
Definition bari_two_echoes : patient_dir :=
  {| dir_name := "iBE-1128-007";
     dir_files :=
       [ {| zip_filename := "series_501.zip";
            zip_extractall :=
              Ok {| ex_files := [];
                    ex_series :=
                      [ {| ref := "501"; SeriesNumber := []; db_volume := Raise DbError;
                           db_pixel_data := Raise DbError;
                           split_EchoTime := Ok two_echoes;
                           split_ImageType := Raise DbError |} ] |} |} ];
     dir_subdirs := [] |}.




(** ** The first loop of the sites that buffer their series *)


(** ** Steps that a second run repeats without writing *)






(** ** Where a driver writes *)

(** The seven drivers, with the folder of their site in the store and the
    identifier they derive from the folder of a patient. *)
Inductive site_driver :
    string -> (patient_dir -> string) -> (list patient_dir -> ST state unit) -> Prop :=
  | leeds_site db_volume_moved :
      site_driver leeds_sitedatapath
        (fun p => leeds_ibeat_patient_id (dir_name p)) (leeds db_volume_moved)
  | bari_site :
      site_driver bari_sitedatapath
        (fun p => bari_ibeat_patient_id (dir_name p)) bari
  | sheffield_site record :
      site_driver sheffield_sitedatapath
        (fun p => sheffield_ibeat_patient_id (dir_name p)) (sheffield record)
  | turku_ge_site record :
      site_driver turku_sitedatapath
        (fun p => fst (turku_ge_ibeat_patient_id (dir_name p))) (turku_ge record)
  | turku_philips_site :
      site_driver turku_philips_sitedatapath
        (fun p => fst (turku_philips_ibeat_patient_id (dir_name p))) turku_philips
  | bordeaux_site visit record :
      site_driver bordeaux_sitedatapath
        (fun p => bordeaux_ibeat_patient_id (dir_name p)) (bordeaux_patients visit record)
  | exeter_site reslice_coronal visit record :
      site_driver exeter_sitedatapath
        (fun p => exeter_ibeat_patient_id (dir_name p))
        (exeter_patients reslice_coronal visit record).

(** The address of a write starts with the folder of the site and the
    identifier of one of the patients. *)
Definition under_patient_of (site : string) (id : patient_dir -> string)
    (patients : list patient_dir) (w : write) : Prop :=
  exists p, p ∈ patients /\ under [CStr site; CStr (id p)] w.

(** * Properties *)

(** ** Rationals and frames *)

Lemma Qc_eq_this (x y : Qc) : this x = this y -> x = y.
Proof.
  intros H. apply Qc_is_canon. rewrite H. reflexivity.
Qed.

Ltac frames_eq := repeat f_equal; apply Qc_eq_this; reflexivity.

(** ** Gap interpolation *)

Lemma length_zeros (a : stack) n : length (zeros a n) = n.
Proof. unfold zeros. apply length_replicate. Qed.


Lemma interpolate_two_spec (a : stack) (i0 : nat) (x y : frame) :
  a !! i0 = Some x -> a !! (i0 + 1) = Some y ->
  interpolate_two a i0 =
    Ok (take (i0 + 1) a
        ++ [blend one_third x two_thirds y; blend two_thirds x one_third y]
        ++ drop (i0 + 1) a).
Proof.
  intros Hx Hy. unfold interpolate_two, index. cbv zeta.
  rewrite Hx. cbn [rbind]. rewrite Hy. cbn [rbind]. f_equal.
  assert (Hlen : i0 + 1 < length a) by (eapply lookup_lt_Some; eauto).
  apply list_eq. intros j.
  destruct (decide (j < i0 + 1)) as [Hlt|Hge].
  - rewrite lookup_app_l by (rewrite length_take; lia).
    rewrite list_lookup_inserts_lt by lia.
    rewrite !list_lookup_insert_ne by lia.
    rewrite list_lookup_inserts by (rewrite ?length_take, ?length_zeros; lia).
    f_equal; lia.
  - rewrite lookup_app_r by (rewrite length_take; lia).
    rewrite length_take, Nat.min_l by lia.
    destruct (decide (j = i0 + 1)) as [->|Hne1].
    { rewrite Nat.sub_diag. simpl.
      rewrite list_lookup_inserts_lt by lia.
      rewrite list_lookup_insert_ne by lia.
      rewrite list_lookup_insert_eq; [done|].
      rewrite length_inserts, length_zeros. lia. }
    destruct (decide (j = i0 + 2)) as [->|Hne2].
    { replace (i0 + 2 - (i0 + 1)) with 1 by lia. simpl.
      rewrite list_lookup_inserts_lt by lia.
      rewrite list_lookup_insert_eq; [done|].
      rewrite length_insert, length_inserts, length_zeros. lia. }
    destruct (decide (j < length a + 2)).
    + rewrite list_lookup_inserts.
      2: { rewrite length_drop. lia. }
      2: { rewrite !length_insert, length_inserts, length_zeros. lia. }
      replace (j - (i0 + 1)) with (S (S (j - (i0 + 3)))) by lia. simpl.
      rewrite !lookup_drop. f_equal; lia.
    + rewrite list_lookup_inserts_ge by (rewrite length_drop; lia).
      rewrite !list_lookup_insert_ne by lia.
      rewrite list_lookup_inserts_ge by (rewrite length_take; lia).
      rewrite (lookup_ge_None_2 (zeros _ _)) by (rewrite length_zeros; lia).
      symmetry. apply lookup_ge_None_2. simpl. rewrite length_drop. lia.
Qed.


(** Two missing slices: what [bari_030] computes for every input.  The
    original slices are kept; the first synthesized slice gives one third
    to the slice before the gap, the second one two thirds. *)
Lemma interpolate_two_weights (a : stack) (i0 : nat) (x y : frame) :
  a !! i0 = Some x -> a !! (i0 + 1) = Some y ->
  exists out,
    interpolate_two a i0 = Ok out /\
    length out = length a + 2 /\
    out !! (i0 + 1) = Some (blend one_third x two_thirds y) /\
    out !! (i0 + 2) = Some (blend two_thirds x one_third y) /\
    (forall j, j <= i0 -> out !! j = a !! j) /\
    (forall j, i0 < j -> out !! (j + 2) = a !! j).
Proof.
  intros Hx Hy. eexists. split; [apply (interpolate_two_spec a i0 x y Hx Hy)|].
  assert (Hlen : i0 + 1 < length a) by (eapply lookup_lt_Some; eauto).
  repeat split.
  - rewrite !length_app, length_take, length_drop. simpl. lia.
  - rewrite lookup_app_r by (rewrite length_take; lia).
    rewrite length_take, Nat.min_l, Nat.sub_diag by lia. reflexivity.
  - rewrite lookup_app_r by (rewrite length_take; lia).
    rewrite length_take, Nat.min_l by lia.
    replace (i0 + 2 - (i0 + 1)) with 1 by lia. reflexivity.
  - intros j Hj. rewrite lookup_app_l by (rewrite length_take; lia).
    apply lookup_take_lt. lia.
  - intros j Hj. rewrite lookup_app_r by (rewrite length_take; lia).
    rewrite length_take, Nat.min_l by lia.
    replace (j + 2 - (i0 + 1)) with (S (S (j - (i0 + 1)))) by lia. simpl.
    rewrite lookup_drop. f_equal. lia.
Qed.

(** C1.  The gap interpolator blends the k-th of m synthesized slices with
    weight (m-k)/(m+1) on the slice before the gap and (k+1)/(m+1) on the
    slice after it.  On the two-slice gap of [bari_030] the code does not:
    between a slice of intensity 0 and a slice of intensity 3 it writes 2
    and then 1, where the blend of the claim gives 1 and then 2. *)
Theorem bari_030_out_phase_weights_reversed :
  exists v,
    bari_030_out_phase gap_of_two = Ok v /\
    values v = [pixel 0; pixel 2; pixel 1; pixel 3] /\
    linear_blend 2 0 (pixel 0) (pixel 3) = pixel 1 /\
    linear_blend 2 1 (pixel 0) (pixel 3) = pixel 2 /\
    pixel 2 <> pixel 1.
Proof.
  eexists. split; [reflexivity|]. split; [|split; [|split]].
  - cbn. frames_eq.
  - cbn. frames_eq.
  - cbn. frames_eq.
  - intros H. inversion H.
Qed.

(** ** Echo-time split *)

Lemma Qc_ltb_lt (x y : Qc) : Qc_ltb x y = true <-> (x < y)%Qc.
Proof.
  unfold Qc_ltb, Qclt. rewrite negb_true_iff, <- not_true_iff_false, Qle_bool_iff.
  split; [apply Qnot_le_lt | apply Qlt_not_le].
Qed.

Lemma Qc_ltb_ge (x y : Qc) : (x < y)%Qc -> Qc_ltb y x = false.
Proof.
  intros H. apply not_true_iff_false. rewrite Qc_ltb_lt. intros H'.
  exact (Qclt_not_le _ _ H (Qclt_le_weak _ _ H')).
Qed.

(** Whatever the order in which [db.split_series] lists the two parts,
    [out_phase] is the index of the lower echo time. *)
Lemma phase_order_lower (lo hi : Qc) (a b : subseries) (dixon_split : list (Qc * subseries)) :
  (lo < hi)%Qc ->
  dixon_split = [(lo, a); (hi, b)] \/ dixon_split = [(hi, b); (lo, a)] ->
  exists out_phase in_phase,
    phase_order dixon_split = Ok (out_phase, in_phase) /\
    index dixon_split out_phase = Ok (lo, a) /\
    index dixon_split in_phase = Ok (hi, b).
Proof.
  intros Hlt [-> | ->]; unfold phase_order; cbn.
  - rewrite (proj2 (Qc_ltb_lt lo hi) Hlt). exists 0, 1. auto.
  - rewrite (Qc_ltb_ge lo hi Hlt). exists 1, 0. auto.
Qed.

Lemma write_phases_ok (pat_id name : string) (out_phase_clean in_phase_clean : address)
    (dixon_split : list (Qc * subseries)) (out_phase in_phase : nat)
    (o i : Qc * subseries) (vo vi : volume) (s : state) :
  index dixon_split out_phase = Ok o -> index dixon_split in_phase = Ok i ->
  sub_volume (snd o) = Ok vo -> sub_volume (snd i) = Ok vi ->
  write_phases pat_id name out_phase_clean in_phase_clean dixon_split out_phase in_phase s =
    (Ok tt,
     {| store := store s ++
          [ {| w_address := out_phase_clean; w_volume := vo; w_ref := sub_ref (snd o) |};
            {| w_address := in_phase_clean; w_volume := vi; w_ref := sub_ref (snd i) |} ];
        log := log s; pat_series := pat_series s;
        tmp_series_folder := tmp_series_folder s; vol := vol s |}).
Proof.
  intros Ho Hi Hvo Hvi. unfold write_phases, try_except_else, lift.
  rewrite Ho. cbn [rbind]. rewrite Hvo. cbn [rbind]. rewrite Hi. cbn [rbind]. rewrite Hvi.
  cbn. unfold bind, db_write_volume, modify. cbn. rewrite <- app_assoc. reflexivity.
Qed.

(** C2.  When a series holding two echo times is split, the part with the
    lower echo time is written under the out_phase name and the part with the
    higher echo time under the in_phase name, in whichever order the split
    lists them: in the Bari driver, in Exeter's patient 3128_111 and in the
    repair of Bari's patient 1128_030. *)
Theorem lower_echo_time_is_out_phase
    (lo hi : Qc) (a b : subseries) (dixon_split : list (Qc * subseries)) :
  (lo < hi)%Qc ->
  dixon_split = [(lo, a); (hi, b)] \/ dixon_split = [(hi, b); (lo, a)] ->
  (* the index computed by every site *)
  (exists out_phase in_phase,
     phase_order dixon_split = Ok (out_phase, in_phase) /\
     index dixon_split out_phase = Ok (lo, a) /\
     index dixon_split in_phase = Ok (hi, b)) /\
  (* Bari, lines 626-642 *)
  (forall pat_id zip_series s s1 name extract_to dixon rest va vb,
     on_pat_series (bari_add_series_name (zip_name_of zip_series)) s = (Ok tt, s1) ->
     last (pat_series s1) = Some name ->
     series_exists [CStr bari_sitedatapath; CStr pat_id; CTup "Baseline" 0;
                    CTup (name +:+ "out_phase") 0] (store s1) = false ->
     zip_extractall zip_series = Ok extract_to ->
     ex_series extract_to = dixon :: rest ->
     split_EchoTime dixon = Ok dixon_split ->
     String.eqb pat_id "1128_030" && String.eqb name "Dixon_1_" = false ->
     sub_volume a = Ok va -> sub_volume b = Ok vb ->
     exists s2,
       bari_series pat_id zip_series s = (Ok tt, s2) /\
       store s2 = store s ++
         [ {| w_address := [CStr bari_sitedatapath; CStr pat_id; CTup "Baseline" 0;
                            CTup (name +:+ "out_phase") 0];
              w_volume := va; w_ref := sub_ref a |};
           {| w_address := [CStr bari_sitedatapath; CStr pat_id; CTup "Baseline" 0;
                            CTup (name +:+ "in_phase") 0];
              w_volume := vb; w_ref := sub_ref b |} ]) /\
  (* Exeter 3128_111, lines 1100-1125 *)
  (forall zip_series s extract_to dixon rest va vb,
     zip_extractall zip_series = Ok extract_to ->
     ex_series extract_to = dixon :: rest ->
     split_EchoTime dixon = Ok dixon_split ->
     sub_volume a = Ok va -> sub_volume b = Ok vb ->
     exists s2 sequence,
       exeter_111_series zip_series s = (Ok tt, s2) /\
       store s2 = store s ++
         [ {| w_address := [CStr exeter_sitedatapath; CStr "3128_111"; CTup "Baseline" 0;
                            CTup (sequence +:+ "out_phase") 0];
              w_volume := va; w_ref := sub_ref a |};
           {| w_address := [CStr exeter_sitedatapath; CStr "3128_111"; CTup "Baseline" 0;
                            CTup (sequence +:+ "in_phase") 0];
              w_volume := vb; w_ref := sub_ref b |} ]) /\
  (* Bari 1128_030, lines 495-537 *)
  (forall s pa pb va vb,
     sub_pixel_data a = Ok pa -> sub_pixel_data b = Ok pb ->
     bari_030_out_phase pa = Ok va ->
     bari_030_in_phase (affine va) pb = Ok vb ->
     exists s2,
       bari_030 dixon_split s = (Ok tt, s2) /\
       store s2 = store s ++
         [ {| w_address := [CStr bari_sitedatapath; CStr "1128_030"; CStr "Baseline";
                            CStr "Dixon_1_out_phase"];
              w_volume := va; w_ref := sub_ref a |};
           {| w_address := [CStr bari_sitedatapath; CStr "1128_030"; CStr "Baseline";
                            CStr "Dixon_1_in_phase"];
              w_volume := vb; w_ref := sub_ref b |} ]).
Proof.
  intros Hlt Hsplit.
  destruct (phase_order_lower lo hi a b dixon_split Hlt Hsplit)
    as (out_phase & in_phase & Horder & Hout & Hin).
  split; [eauto|]. split; [|split].
  - intros pat_id zip_series s s1 name extract_to dixon rest va vb
      Hadd Hlast Hex Hzip Hser Hsp Hspecial Hva Hvb.
    eexists. split.
    + unfold bari_series, try_except_else. rewrite Hadd.
      unfold bind at 1. unfold last_name. rewrite Hlast.
      unfold bind at 1. unfold get. cbn [app]. rewrite Hex.
      unfold lift at 1. rewrite Hzip.
      unfold bind at 1. unfold lift at 1. rewrite Hser. cbn [index lookup list_lookup].
      unfold lift at 1. rewrite Hsp.
      assert (Hlen : (length dixon_split =? 1)%nat = false)
        by (destruct Hsplit as [-> | ->]; reflexivity).
      rewrite Hlen, Hspecial.
      unfold bind at 1. unfold lift at 1. rewrite Horder. cbn [fst snd].
      apply (write_phases_ok _ _ _ _ _ _ _ (lo, a) (hi, b));
        [exact Hout | exact Hin | exact Hva | exact Hvb].
    + cbn [store]. assert (Hst : store s1 = store s).
      { unfold on_pat_series in Hadd.
        destruct (bari_add_series_name (zip_name_of zip_series) (pat_series s)).
        inversion Hadd. reflexivity. }
      rewrite Hst. reflexivity.
  - intros zip_series s extract_to dixon rest va vb Hzip Hser Hsp Hva Hvb.
    eexists. eexists. split.
    + unfold exeter_111_series, try_except_else.
      unfold lift at 1. rewrite Hzip.
      unfold bind at 1. unfold lift at 1. rewrite Hser. cbn [index lookup list_lookup].
      unfold bind at 1. unfold lift at 1. rewrite Hsp.
      unfold bind at 1. unfold lift at 1. rewrite Horder. cbn [fst snd].
      apply (write_phases_ok _ _ _ _ _ _ _ (lo, a) (hi, b));
        [exact Hout | exact Hin | exact Hva | exact Hvb].
    + reflexivity.
  - intros s pa pb va vb Hpa Hpb Hva Hvb.
    eexists. split.
    + unfold bari_030.
      unfold bind at 1. unfold lift at 1. rewrite Horder. cbn [fst snd].
      unfold bind at 1. unfold lift at 1. rewrite Hout. cbn [fst snd].
      unfold bind at 1. unfold lift at 1. rewrite Hpa.
      unfold bind at 1. unfold lift at 1. rewrite Hva.
      unfold bind at 1. unfold db_write_volume at 1. unfold modify at 1.
      unfold bind at 1. unfold lift at 1. rewrite Hin. cbn [fst snd].
      unfold bind at 1. unfold lift at 1. rewrite Hpb.
      unfold bind at 1. unfold lift at 1. rewrite Hvb.
      unfold db_write_volume, modify. reflexivity.
    + cbn [store]. rewrite <- app_assoc. reflexivity.
Qed.

(** ** Swap correction *)

Lemma component_eqb_CStr (s : string) (c : component) :
  component_eqb (CStr s) c = true <-> c = CStr s.
Proof.
  destruct c as [t|t n]; cbn.
  - rewrite String.eqb_eq. split; congruence.
  - split; [discriminate | congruence].
Qed.

(** The test of line 361 on an address of the shape the drivers build. *)
Lemma swap_row_matches_key (row : list string) (pat visit series : string) :
  swap_row_matches row (CStr pat) (CStr visit) series = true
  <-> row_key row = [pat; visit; series].
Proof.
  unfold swap_row_matches, row_key.
  destruct (take 3 (drop 1 row)) as [|x [|y [|z [|w l]]]]; cbn;
    rewrite ?andb_true_iff, ?String.eqb_eq;
    (split; intros H;
     [ repeat match goal with H : _ /\ _ |- _ => destruct H end;
       try discriminate; subst; reflexivity
     | inversion H; subst; auto ]).
Qed.

Section SwapOnAddress.

Variables (root : component) (pat visit : string) (n : Z) (name : component).
Variable series : string.

Let dixon : address := [root; CStr pat; CTup visit n; name].
Let key : list string := [pat; visit; series].

(** One turn of the loop of [swap_fat_water] on such an address. *)
Lemma swap_fat_water_cons (row : list string) (record : list (list string))
    (image_type : string) :
  swap_fat_water (row :: record) dixon series image_type =
    if swap_row_matches row (CStr pat) (CStr visit) series then
      flag <~ index row 4 ;;
      if String.eqb flag "1" then
        if String.eqb image_type "fat"
        then Ok [root; CStr pat; CTup visit n; CStr (series +:+ "_water")]
        else if String.eqb image_type "water"
        then Ok [root; CStr pat; CTup visit n; CStr (series +:+ "_fat")]
        else swap_fat_water record dixon series image_type
      else swap_fat_water record dixon series image_type
    else swap_fat_water record dixon series image_type.
Proof. reflexivity. Qed.

Lemma swap_fat_water_returns (record : list (list string)) (image_type : string) :
  flags_present record key ->
  exists last, swap_fat_water record dixon series image_type
               = Ok [root; CStr pat; CTup visit n; last].
Proof.
  induction record as [|row record IH]; intros Hflags.
  - eexists. reflexivity.
  - assert (Hrest : flags_present record key).
    { intros r Hr. apply Hflags. now right. }
    rewrite swap_fat_water_cons.
    destruct (swap_row_matches row (CStr pat) (CStr visit) series) eqn:Hm; [|auto].
    apply swap_row_matches_key in Hm.
    destruct (Hflags row (list_elem_of_here _ _) Hm) as [flag Hflag].
    unfold index. rewrite Hflag. cbn [rbind].
    destruct (String.eqb flag "1"); [|auto].
    destruct (String.eqb image_type "fat"); [eexists; reflexivity|].
    destruct (String.eqb image_type "water"); [eexists; reflexivity|auto].
Qed.

Lemma flags_present_tail (row : list string) (record : list (list string)) :
  flags_present (row :: record) key -> flags_present record key.
Proof. intros H r Hr. apply H. now right. Qed.

Lemma swap_fat_water_flagged (record : list (list string)) :
  flags_present record key -> flagged record key ->
  swap_fat_water record dixon series "fat"
    = Ok [root; CStr pat; CTup visit n; CStr (series +:+ "_water")] /\
  swap_fat_water record dixon series "water"
    = Ok [root; CStr pat; CTup visit n; CStr (series +:+ "_fat")].
Proof.
  induction record as [|row record IH]; intros Hflags (r & Hr & Hkey & Hone).
  - inversion Hr.
  - pose proof (flags_present_tail _ _ Hflags) as Hrest.
    rewrite !swap_fat_water_cons.
    destruct (swap_row_matches row (CStr pat) (CStr visit) series) eqn:Hm.
    + apply swap_row_matches_key in Hm.
      destruct (Hflags row (list_elem_of_here _ _) Hm) as [flag Hflag].
      unfold index. rewrite Hflag. cbn [rbind].
      destruct (String.eqb flag "1") eqn:Hf; [split; reflexivity|].
      apply IH; [exact Hrest|].
      apply elem_of_cons in Hr as [-> | Hr]; [|exists r; auto].
      rewrite Hflag in Hone. inversion Hone; subst. discriminate Hf.
    + apply IH; [exact Hrest|].
      apply elem_of_cons in Hr as [-> | Hr]; [|exists r; auto].
      apply swap_row_matches_key in Hkey. congruence.
Qed.

Lemma swap_fat_water_unflagged (record : list (list string)) (image_type : string) :
  flags_present record key -> ~ flagged record key ->
  swap_fat_water record dixon series image_type = Ok dixon.
Proof.
  induction record as [|row record IH]; intros Hflags Hno; [reflexivity|].
  pose proof (flags_present_tail _ _ Hflags) as Hrest.
  assert (Hno' : ~ flagged record key).
  { intros (r & Hr & Hrk & Hone). apply Hno. exists r. split; [now right | auto]. }
  rewrite swap_fat_water_cons.
  destruct (swap_row_matches row (CStr pat) (CStr visit) series) eqn:Hm; [|auto].
  apply swap_row_matches_key in Hm.
  destruct (Hflags row (list_elem_of_here _ _) Hm) as [flag Hflag].
  unfold index. rewrite Hflag. cbn [rbind].
  destruct (String.eqb flag "1") eqn:Hf; [|auto].
  exfalso. apply Hno. exists row. apply String.eqb_eq in Hf. subst flag.
  split; [now left | auto].
Qed.

End SwapOnAddress.

(** A matching row that stops before its flag column makes line 362 raise. *)
Example swap_fat_water_short_row :
  swap_fat_water [["Sheffield"; "7128_001"; "Baseline"; "Dixon_1"]]
    [CStr "build"; CStr "7128_001"; CTup "Baseline" 0; CStr "Dixon_1_fat"]
    "Dixon_1" "fat" = Raise IndexError.
Proof. reflexivity. Qed.

(** Whatever the table and the address, a lookup that returns keeps the
    first three components, and keeps the whole address for an image type
    that is neither fat nor water. *)
Lemma swap_fat_water_keeps (record : list (list string)) (dixon : address)
    (series image_type : string) (out : address) :
  swap_fat_water record dixon series image_type = Ok out ->
  take 3 out = take 3 dixon /\
  (out = dixon \/ exists c, out = take 3 dixon ++ [c]) /\
  (image_type <> "fat" -> image_type <> "water" -> out = dixon).
Proof.
  induction record as [|row record IH]; cbn [swap_fat_water].
  - intros H. inversion H. auto.
  - destruct (index dixon 1) as [c1|] eqn:H1; [|discriminate]. cbn [rbind].
    destruct (index dixon 2) as [study|] eqn:H2; [|discriminate]. cbn [rbind].
    destruct (component_first study) as [c2|]; [|discriminate]. cbn [rbind].
    destruct (swap_row_matches row c1 c2 series); [|exact IH].
    destruct (index row 4) as [flag|]; [|discriminate]. cbn [rbind].
    destruct (String.eqb flag "1"); [|exact IH].
    assert (Hlen : length (take 3 dixon) = 3).
    { unfold index in H2. destruct (dixon !! 2) eqn:Hl; [|discriminate].
      apply lookup_lt_Some in Hl. rewrite length_take. lia. }
    destruct (String.eqb image_type "fat") eqn:Hfat;
      [|destruct (String.eqb image_type "water") eqn:Hwater; [|exact IH]];
      intros H; inversion H; subst out;
      (split; [apply take_app_length'; symmetry; exact Hlen|]);
      (split; [right; eexists; reflexivity|]);
      intros Hnf Hnw; exfalso.
    + apply Hnf. now apply String.eqb_eq.
    + apply Hnw. now apply String.eqb_eq.
Qed.

(** C3.  When the table holds a record that matches the patient, the study
    and the channel family (with its repetition) of the address and whose
    swap flag is set, image type 'fat' yields an address ending in '_water'
    and image type 'water' one ending in '_fat'; when it holds no such
    record the address is returned unchanged.  The address has the shape
    the drivers build, and the matching rows of the table have their flag
    column. *)
Theorem swap_fat_water_correct (record : list (list string))
    (root : component) (pat visit : string) (n : Z) (name : component) (series : string) :
  flags_present record [pat; visit; series] ->
  (flagged record [pat; visit; series] ->
     swap_fat_water record [root; CStr pat; CTup visit n; name] series "fat"
       = Ok [root; CStr pat; CTup visit n; CStr (series +:+ "_water")] /\
     swap_fat_water record [root; CStr pat; CTup visit n; name] series "water"
       = Ok [root; CStr pat; CTup visit n; CStr (series +:+ "_fat")]) /\
  (~ flagged record [pat; visit; series] ->
     forall image_type,
       swap_fat_water record [root; CStr pat; CTup visit n; name] series image_type
         = Ok [root; CStr pat; CTup visit n; name]).
Proof.
  intros Hflags. split.
  - intros Hf. apply swap_fat_water_flagged; assumption.
  - intros Hno image_type. apply swap_fat_water_unflagged; assumption.
Qed.

(** C10.  The swap correction changes at most the last component of the
    address: root, patient and study of the output are those of the input,
    and for an image type other than 'fat' and 'water' the whole address
    comes back unchanged, flagged record or not.  On the addresses the
    drivers build the lookup does return. *)
Theorem swap_fat_water_frame (record : list (list string)) (dixon : address)
    (series image_type : string) :
  (forall out,
     swap_fat_water record dixon series image_type = Ok out ->
     take 3 out = take 3 dixon /\
     (out = dixon \/ exists c, out = take 3 dixon ++ [c]) /\
     (image_type <> "fat" -> image_type <> "water" -> out = dixon)) /\
  (forall root pat visit n name,
     dixon = [root; CStr pat; CTup visit n; name] ->
     flags_present record [pat; visit; series] ->
     exists last,
       swap_fat_water record dixon series image_type
         = Ok [root; CStr pat; CTup visit n; last] /\
       (image_type <> "fat" -> image_type <> "water" -> last = name)).
Proof.
  split.
  - intros out. apply swap_fat_water_keeps.
  - intros root pat visit n name -> Hflags.
    destruct (swap_fat_water_returns root pat visit n name series record image_type Hflags)
      as [last Hlast].
    exists last. split; [exact Hlast|].
    intros Hnf Hnw.
    destruct (swap_fat_water_keeps _ _ _ _ _ Hlast) as (_ & _ & Hsame).
    specialize (Hsame Hnf Hnw). inversion Hsame. reflexivity.
Qed.

(** ** Strings *)

Lemma append_assoc (s1 s2 s3 : string) : (s1 +:+ s2) +:+ s3 = s1 +:+ (s2 +:+ s3).
Proof.
  induction s1 as [|c s1 IH]; [reflexivity|].
  change (String c ((s1 +:+ s2) +:+ s3) = String c (s1 +:+ (s2 +:+ s3))).
  f_equal. exact IH.
Qed.

Lemma append_cons (c : ascii) (s t : string) : String c s +:+ t = String c (s +:+ t).
Proof. reflexivity. Qed.

Lemma append_nil (s : string) : "" +:+ s = s.
Proof. reflexivity. Qed.

Lemma mem_elem_of (x : string) (l : list string) : Py.mem x l = true <-> x ∈ l.
Proof.
  unfold Py.mem. rewrite existsb_exists. split.
  - intros (y & Hin & Heq). apply String.eqb_eq in Heq. subst y.
    now apply list_elem_of_In.
  - intros Hin. exists x. split; [now apply list_elem_of_In | apply String.eqb_refl].
Qed.

Lemma mem_not_elem_of (x : string) (l : list string) : Py.mem x l = false <-> x ∉ l.
Proof. rewrite <- mem_elem_of. destruct (Py.mem x l); split; congruence. Qed.

Lemma to_uint_nonnil (n : nat) : Nat.to_uint n <> Decimal.Nil.
Proof.
  rewrite <- (Unsigned.of_to n) at 1. rewrite Unsigned.to_of.
  unfold Decimal.unorm. destruct (Decimal.nzhead (Nat.to_uint n)); discriminate.
Qed.

Lemma str_inj (n m : nat) : Py.str n = Py.str m -> n = m.
Proof.
  unfold Py.str. intros H. apply (f_equal NilZero.uint_of_string) in H.
  rewrite !NilZero.usu in H by apply to_uint_nonnil.
  inversion H. now apply Unsigned.to_uint_inj.
Qed.

Lemma all_digits_uint (d : Decimal.uint) : all_digits (NilEmpty.string_of_uint d) = true.
Proof. induction d; cbn; auto. Qed.

Lemma all_digits_str (n : nat) : all_digits (Py.str n) = true.
Proof.
  unfold Py.str, NilZero.string_of_uint.
  destruct (Nat.to_uint n) eqn:E; try reflexivity; rewrite <- E; apply all_digits_uint.
Qed.

(** Two runs of digits that stop at an underscore are the same run. *)
Lemma digits_until_underscore (d1 d2 r1 r2 : string) :
  all_digits d1 = true -> all_digits d2 = true ->
  d1 +:+ String "_" r1 = d2 +:+ String "_" r2 -> d1 = d2.
Proof.
  revert d2. induction d1 as [|c d1 IH]; intros [|c' d2]; cbn;
    rewrite ?append_cons, ?append_nil; intros H1 H2 H.
  - reflexivity.
  - inversion H; subst c'. discriminate.
  - inversion H; subst c. discriminate.
  - apply andb_true_iff in H1 as [_ H1]. apply andb_true_iff in H2 as [_ H2].
    inversion H. f_equal. eauto.
Qed.

(** ** The disambiguation ledger *)

Lemma replace_family (family tok rest : string) :
  is_family family ->
  Py.replace "_1_" tok (family +:+ "_1_" +:+ rest)
  = family +:+ tok +:+ Py.replace_from 0 "_1_" tok rest.
Proof. intros [-> | ->]; reflexivity. Qed.

(** The [k]-th name carries [k] where the base name carries 1. *)
Lemma channel_name_shape (family rest : string) (k : nat) :
  is_family family ->
  channel_name (family +:+ "_1_" +:+ rest) k
  = family +:+ "_" +:+ Py.str k +:+ "_" +:+ name_tail rest k.
Proof.
  intros Hf. unfold channel_name, name_tail.
  destruct (k =? 1)%nat eqn:Hk.
  - apply Nat.eqb_eq in Hk. subst k. reflexivity.
  - rewrite replace_family by exact Hf. unfold counter_token.
    rewrite !append_assoc. reflexivity.
Qed.

Lemma channel_name_inj (family rest : string) (j k : nat) :
  is_family family ->
  channel_name (family +:+ "_1_" +:+ rest) j = channel_name (family +:+ "_1_" +:+ rest) k ->
  j = k.
Proof.
  intros Hf. rewrite !channel_name_shape by exact Hf. intros H.
  apply String.app_inj in H. rewrite !append_cons, !append_nil in H.
  inversion H as [H']. apply str_inj.
  eapply digits_until_underscore; [apply all_digits_str | apply all_digits_str | exact H'].
Qed.

(** A name without ['_1_'] is left alone by the replacement. *)
Lemma replace_from_absent (tok rest : string) :
  Py.contains "_1_" rest = false -> Py.replace_from 0 "_1_" tok rest = rest.
Proof.
  induction rest as [|c rest IH]; [reflexivity|].
  intros H. cbn [Py.contains] in H. apply orb_false_iff in H as [Hs Hc].
  cbn [Py.replace_from]. rewrite Hs. f_equal. auto.
Qed.

Lemma name_tail_absent (rest : string) (k : nat) :
  Py.contains "_1_" rest = false -> name_tail rest k = rest.
Proof.
  intros H. unfold name_tail. destruct (k =? 1)%nat; [reflexivity|].
  now apply replace_from_absent.
Qed.

Section Loop.

Variables (series_name : string) (all_series : list string).

(** The loop started at its [c]-th turn stops at the first name that the
    ledger does not hold. *)
Lemma next_available_first_free (n fuel c : nat) :
  1 <= c <= n -> n - c < fuel ->
  (forall j, c <= j < n -> channel_name series_name j ∈ all_series) ->
  channel_name series_name n ∉ all_series ->
  next_available fuel series_name (channel_name series_name c) (S c) all_series
  = Ok (channel_name series_name n).
Proof.
  revert c. induction fuel as [|fuel IH]; intros c Hc Hfuel Hin Hout; [lia|].
  cbn [next_available].
  destruct (decide (c = n)) as [->|Hne].
  - apply mem_not_elem_of in Hout. rewrite Hout. reflexivity.
  - assert (Hmem : Py.mem (channel_name series_name c) all_series = true).
    { apply mem_elem_of, Hin. lia. }
    rewrite Hmem.
    replace (Py.replace "_1_" (counter_token (S c)) series_name)
      with (channel_name series_name (S c)).
    + apply IH; [lia | lia | | exact Hout]. intros j Hj. apply Hin. lia.
    + unfold channel_name. destruct (S c =? 1)%nat eqn:E; [|reflexivity].
      apply Nat.eqb_eq in E. lia.
Qed.

End Loop.

Lemma add_number_next (family rest : string) (L0 : list string) (i : nat) :
  is_family family ->
  let base := family +:+ "_1_" +:+ rest in
  (forall k, 1 <= k -> channel_name base k ∉ L0) ->
  add_number base (L0 ++ map (channel_name base) (seq 1 i))
  = (Ok tt, L0 ++ map (channel_name base) (seq 1 (S i))).
Proof.
  intros Hf base Hfree. unfold add_number, bind, get, lift, modify.
  set (L := L0 ++ map (channel_name base) (seq 1 i)).
  assert (Hnext : next_available (S (length L)) base base 2 L
                  = Ok (channel_name base (S i))).
  { apply (next_available_first_free base L (S i) (S (length L)) 1).
    - lia.
    - unfold L. rewrite length_app, length_map, length_seq. lia.
    - intros j Hj. unfold L. apply elem_of_app. right.
      apply list_elem_of_fmap. exists j. split; [reflexivity|].
      apply elem_of_seq. lia.
    - unfold L. intros Hin. apply elem_of_app in Hin as [Hin | Hin].
      + exact (Hfree (S i) ltac:(lia) Hin).
      + apply list_elem_of_fmap in Hin as (j & Heq & Hj).
        apply elem_of_seq in Hj.
        apply (channel_name_inj family rest) in Heq; [lia | exact Hf]. }
  rewrite Hnext. f_equal.
  rewrite seq_S, map_app, app_assoc. reflexivity.
Qed.

Lemma add_number_repeated (family rest : string) (L0 : list string) (N i : nat) :
  is_family family ->
  let base := family +:+ "_1_" +:+ rest in
  (forall k, 1 <= k -> channel_name base k ∉ L0) ->
  for_each (replicate N base) add_number (L0 ++ map (channel_name base) (seq 1 i))
  = (Ok tt, L0 ++ map (channel_name base) (seq 1 (i + N))).
Proof.
  intros Hf base Hfree. subst base. revert i. induction N as [|N IH]; intros i.
  - rewrite Nat.add_0_r. reflexivity.
  - cbn [replicate for_each]. unfold bind at 1.
    rewrite (add_number_next family rest L0 i Hf Hfree).
    rewrite IH. replace (S i + N) with (i + S N) by lia. reflexivity.
Qed.

(** Every classifier derives a base name and hands it to the same loop. *)
Lemma for_each_classified {A} (name_of : A -> result string) (add : A -> ST (list string) unit)
    (base : string) (xs : list A) (L : list string) :
  (forall x, add x = bind (lift (name_of x)) add_number) ->
  Forall (fun x => name_of x = Ok base) xs ->
  for_each xs add L = for_each (replicate (length xs) base) add_number L.
Proof.
  intros Hadd Hall. revert L. induction Hall as [|x xs Hx Hall IH]; intros L; [reflexivity|].
  cbn [length replicate for_each]. rewrite Hadd. unfold bind, lift. rewrite Hx.
  destruct (add_number base L) as [[[]|e] L']; [apply IH | reflexivity].
Qed.

(** C4.  N classifications that derive the same base name record N names
    that are pairwise distinct and carry the repetition indices 1..N in call
    order; each is the first candidate that the ledger does not hold, the
    candidates being the base name and the base name with its numeric
    component replaced by 2, 3, ...  The ledger they start from holds no
    name of that base name. *)
Theorem repeated_names_are_numbered (family rest : string) (L0 : list string) (N : nat) :
  is_family family ->
  (forall k, 1 <= k -> channel_name (family +:+ "_1_" +:+ rest) k ∉ L0) ->
  let base := family +:+ "_1_" +:+ rest in
  let names := map (channel_name base) (seq 1 N) in
  NoDup names /\
  (forall k, 1 <= k <= N ->
     names !! (k - 1) = Some (family +:+ "_" +:+ Py.str k +:+ "_" +:+ name_tail rest k)) /\
  (Py.contains "_1_" rest = false ->
     names = map (fun k => family +:+ "_" +:+ Py.str k +:+ "_" +:+ rest) (seq 1 N)) /\
  for_each (replicate N base) add_number L0 = (Ok tt, L0 ++ names) /\
  (forall fs, length fs = N ->
     Forall (fun f => leeds_series_name f = Ok base) fs ->
     for_each fs leeds_add_series_name L0 = (Ok tt, L0 ++ names)) /\
  (forall fs, length fs = N ->
     Forall (fun f => sheffield_series_desc f = Ok base) fs ->
     for_each fs sheffield_add_series_desc L0 = (Ok tt, L0 ++ names)).
Proof.
  intros Hf Hfree base names.
  assert (Hrun : for_each (replicate N base) add_number L0 = (Ok tt, L0 ++ names)).
  { pose proof (add_number_repeated family rest L0 N 0 Hf Hfree) as H.
    cbn [seq map] in H. rewrite app_nil_r in H. exact H. }
  split; [|split; [|split; [|split; [|split]]]].
  - apply NoDup_fmap_2_strong; [|apply NoDup_seq].
    intros j k _ _. apply channel_name_inj. exact Hf.
  - intros k Hk. unfold names. rewrite list_lookup_fmap.
    rewrite (lookup_seq_lt 1 N (k - 1)) by lia. cbn [fmap option_fmap option_map].
    replace (1 + (k - 1)) with k by lia.
    f_equal. apply channel_name_shape. exact Hf.
  - intros Hrest. unfold names. apply list_eq. intros i.
    rewrite !list_lookup_fmap. destruct (seq 1 N !! i) as [k|]; [|reflexivity].
    cbn [fmap option_fmap option_map]. f_equal. unfold base.
    rewrite channel_name_shape by exact Hf. now rewrite name_tail_absent.
  - exact Hrun.
  - intros fs Hlen Hall.
    rewrite (for_each_classified leeds_series_name leeds_add_series_name base fs L0);
      [rewrite Hlen; exact Hrun | reflexivity | exact Hall].
  - intros fs Hlen Hall.
    rewrite (for_each_classified sheffield_series_desc sheffield_add_series_desc base fs L0);
      [rewrite Hlen; exact Hrun | reflexivity | exact Hall].
Qed.

(** *** The loop always finds a free name *)

Lemma first_free_name (series_name : string) (L : list string) (m : nat) :
  (forall j, 1 <= j <= m -> channel_name series_name j ∈ L) \/
  (exists n, 1 <= n <= m /\ (channel_name series_name n ∉ L) /\
             forall j, 1 <= j < n -> channel_name series_name j ∈ L).
Proof.
  induction m as [|m [IH | (n & Hn & Hout & Hin)]].
  - left. intros j Hj. lia.
  - destruct (decide (channel_name series_name (S m) ∈ L)) as [Hin | Hout].
    + left. intros j Hj. destruct (decide (j = S m)) as [->|]; [exact Hin | apply IH; lia].
    + right. exists (S m). split; [lia|]. split; [exact Hout|].
      intros j Hj. apply IH. lia.
  - right. exists n. split; [lia | auto].
Qed.

(** With a base name of one of the two families the loop stops within
    [length all_series + 1] tests, so [add_number] returns and appends. *)
Lemma add_number_returns (family rest : string) (L : list string) :
  is_family family ->
  exists n, 1 <= n <= S (length L) /\
    add_number (family +:+ "_1_" +:+ rest) L
    = (Ok tt, L ++ [channel_name (family +:+ "_1_" +:+ rest) n]).
Proof.
  intros Hf. set (base := family +:+ "_1_" +:+ rest).
  destruct (first_free_name base L (S (length L))) as [Hall | (n & Hn & Hout & Hin)].
  - exfalso.
    assert (Hnd : NoDup (map (channel_name base) (seq 1 (S (length L))))).
    { apply NoDup_fmap_2_strong; [|apply NoDup_seq].
      intros j k _ _. apply channel_name_inj. exact Hf. }
    assert (Hsub : map (channel_name base) (seq 1 (S (length L))) ⊆+ L).
    { apply NoDup_submseteq; [exact Hnd|].
      intros x Hx. apply list_elem_of_fmap in Hx as (j & -> & Hj).
      apply elem_of_seq in Hj. apply Hall. lia. }
    apply submseteq_length in Hsub. rewrite length_map, length_seq in Hsub. lia.
  - exists n. split; [exact Hn|].
    unfold add_number, bind, get, lift, modify.
    assert (Hnext : next_available (S (length L)) base base 2 L = Ok (channel_name base n)).
    { apply (next_available_first_free base L n (S (length L)) 1); [lia | lia | | exact Hout].
      intros j Hj. apply Hin. lia. }
    rewrite Hnext. reflexivity.
Qed.

(** *** The base names of the classifiers *)

Lemma has_family_pre (rest : string) : has_family ("Dixon_1_" +:+ rest).
Proof. exists "Dixon", rest. split; [now left | reflexivity]. Qed.

Lemma has_family_post (rest : string) : has_family ("Dixon_post_contrast_1_" +:+ rest).
Proof. exists "Dixon_post_contrast", rest. split; [now right | reflexivity]. Qed.

Lemma position_prefix_family (series_nr threshold : Z) (rest : string) :
  has_family (position_prefix series_nr threshold +:+ rest).
Proof.
  unfold position_prefix. destruct (series_nr <? threshold)%Z;
    [apply has_family_pre | apply has_family_post].
Qed.

Ltac dict_values H :=
  unfold dict_get in H;
  match type of H with
  | match ?d !! ?k with _ => _ end = _ =>
      let E := fresh "E" in
      destruct (d !! k) eqn:E; [|discriminate H];
      apply elem_of_list_to_map_2 in E;
      repeat (apply elem_of_cons in E as [E | E]);
      [ inversion E; inversion H; subst .. | inversion E ]
  end.

Lemma siemens_series_desc_family (d base : string) :
  dict_get siemens_series_desc d = Ok base -> has_family base.
Proof.
  intros H. dict_values H;
    first [apply (has_family_pre "out_phase") | apply (has_family_pre "in_phase")
          | apply (has_family_pre "fat") | apply (has_family_pre "water")
          | apply (has_family_post "out_phase") | apply (has_family_post "in_phase")
          | apply (has_family_post "fat") | apply (has_family_post "water")].
Qed.

Lemma ge_series_desc_family (d base : string) :
  dict_get ge_series_desc d = Ok base -> has_family base.
Proof.
  intros H. dict_values H;
    first [apply (has_family_pre "out_phase") | apply (has_family_pre "in_phase")
          | apply (has_family_pre "fat") | apply (has_family_pre "water")
          | apply (has_family_post "out_phase") | apply (has_family_post "in_phase")
          | apply (has_family_post "fat") | apply (has_family_post "water")].
Qed.

Lemma leeds_series_name_family (f : folder) (base : string) :
  leeds_series_name f = Ok base -> has_family base.
Proof.
  unfold leeds_series_name.
  destruct (py_int _); [|discriminate]. cbn [rbind].
  destruct (read_first f); [|discriminate]. cbn [rbind].
  destruct (attr _); [|discriminate]. cbn [rbind].
  destruct (index _ 3); [|discriminate]. cbn [rbind].
  intros H. inversion H. apply position_prefix_family.
Qed.

Lemma bordeaux_series_desc_family (f : folder) (base : string) :
  bordeaux_series_desc f = Ok base -> has_family base.
Proof.
  unfold bordeaux_series_desc.
  destruct (read_first f); [|discriminate]. cbn [rbind].
  destruct (attr _); [|discriminate]. cbn [rbind].
  apply siemens_series_desc_family.
Qed.

Lemma sheffield_series_desc_family (f : folder) (base : string) :
  sheffield_series_desc f = Ok base -> has_family base.
Proof.
  unfold sheffield_series_desc.
  destruct (read_first f); [|discriminate]. cbn [rbind].
  destruct (attr (SeriesDescription _)); [|discriminate]. cbn [rbind].
  destruct (attr (Manufacturer _)); [|discriminate]. cbn [rbind].
  destruct (String.eqb _ "Philips Healthcare"); [|apply ge_series_desc_family].
  destruct (attr (EchoTime _)); [|discriminate]. cbn [rbind].
  destruct (Qc_ltb _ _); destruct (String.eqb _ _); intros H; inversion H;
    first [apply (has_family_pre "out_phase") | apply (has_family_pre "in_phase")
          | apply (has_family_post "out_phase") | apply (has_family_post "in_phase")].
Qed.

Lemma bari_series_name_family (name base : string) :
  bari_series_name name = Ok base -> has_family base.
Proof.
  unfold bari_series_name. destruct (py_int _); [|discriminate]. cbn [rbind].
  intros H. inversion H.
  unfold position_prefix. destruct (_ <? _)%Z;
    [apply (has_family_pre "") | apply (has_family_post "")].
Qed.

(** A classifier whose base name is of one of the two families returns, and
    appends one name, whenever the base name could be derived. *)
Lemma classify_returns (name : result string) (base : string) (L : list string) :
  name = Ok base -> has_family base ->
  exists n, 1 <= n <= S (length L) /\
    bind (lift name) add_number L = (Ok tt, L ++ [channel_name base n]).
Proof.
  intros -> (family & rest & Hf & ->). unfold bind at 1, lift.
  apply add_number_returns. exact Hf.
Qed.

(** Once its base name is derived, every classifier returns: the bound
    on the loop of the embedding is never reached, and one name is
    appended, the first free one among the candidates. *)
Lemma classifiers_return (L : list string) (base : string) :
  (forall f, leeds_series_name f = Ok base ->
     exists n, 1 <= n <= S (length L) /\
       leeds_add_series_name f L = (Ok tt, L ++ [channel_name base n])) /\
  (forall f, bordeaux_series_desc f = Ok base ->
     exists n, 1 <= n <= S (length L) /\
       bordeaux_add_series_desc f L = (Ok tt, L ++ [channel_name base n])) /\
  (forall f, exeter_series_desc f = Ok base ->
     exists n, 1 <= n <= S (length L) /\
       exeter_add_series_desc f L = (Ok tt, L ++ [channel_name base n])) /\
  (forall f, sheffield_series_desc f = Ok base ->
     exists n, 1 <= n <= S (length L) /\
       sheffield_add_series_desc f L = (Ok tt, L ++ [channel_name base n])) /\
  (forall f, turku_series_desc f = Ok base ->
     exists n, 1 <= n <= S (length L) /\
       turku_add_series_desc f L = (Ok tt, L ++ [channel_name base n])) /\
  (forall name, bari_series_name name = Ok base ->
     exists n, 1 <= n <= S (length L) /\
       bari_add_series_name name L = (Ok tt, L ++ [channel_name base n])) /\
  (forall name, turku_philips_series_name name = Ok base ->
     exists n, 1 <= n <= S (length L) /\
       turku_philips_add_series_name name L = (Ok tt, L ++ [channel_name base n])).
Proof.
  repeat split; intros x Hx; (apply classify_returns; [exact Hx|]).
  - eapply leeds_series_name_family; eauto.
  - eapply bordeaux_series_desc_family; eauto.
  - eapply bordeaux_series_desc_family; eauto.
  - eapply sheffield_series_desc_family; eauto.
  - eapply sheffield_series_desc_family; eauto.
  - eapply bari_series_name_family; eauto.
  - eapply bari_series_name_family; eauto.
Qed.

(** ** Classification failures *)

Lemma add_number_raise (series_name : string) (L L' : list string) (e : exn) :
  add_number series_name L = (Raise e, L') -> L' = L.
Proof.
  unfold add_number, bind, get, lift, modify.
  destruct (next_available _ _ _ _ _); intros H; inversion H; reflexivity.
Qed.

Lemma classify_raise (name : result string) (L L' : list string) (e : exn) :
  bind (lift name) add_number L = (Raise e, L') -> L' = L.
Proof.
  unfold bind at 1, lift. destruct name as [n|e'].
  - apply add_number_raise.
  - intros H. inversion H. reflexivity.
Qed.


(** C7.  A classification call that fails leaves the ledger of the patient
    as it was: no name is appended. *)
Theorem failed_classification_keeps_ledger (L L' : list string) (e : exn) :
  (forall f, leeds_add_series_name f L = (Raise e, L') -> L' = L) /\
  (forall f, bordeaux_add_series_desc f L = (Raise e, L') -> L' = L) /\
  (forall f, exeter_add_series_desc f L = (Raise e, L') -> L' = L) /\
  (forall f, sheffield_add_series_desc f L = (Raise e, L') -> L' = L) /\
  (forall f, turku_add_series_desc f L = (Raise e, L') -> L' = L) /\
  (forall name, bari_add_series_name name L = (Raise e, L') -> L' = L) /\
  (forall name, turku_philips_add_series_name name L = (Raise e, L') -> L' = L).
Proof.
  repeat split; intros x; apply classify_raise.
Qed.

(** The failures that the specification lists do make the call fail. *)
Lemma bordeaux_dictionary_miss (f : folder) (ds : dataset) (d : string) (L : list string) :
  read_first f = Ok ds -> SeriesDescription ds = Some d ->
  siemens_series_desc !! d = None ->
  bordeaux_add_series_desc f L = (Raise KeyError, L).
Proof.
  intros Hf Hd Hmiss. unfold bordeaux_add_series_desc, bordeaux_series_desc, bind, lift.
  rewrite Hf. cbn [rbind]. rewrite Hd. cbn [attr rbind]. unfold dict_get. rewrite Hmiss.
  reflexivity.
Qed.

Lemma bordeaux_missing_attribute (f : folder) (ds : dataset) (L : list string) :
  read_first f = Ok ds -> SeriesDescription ds = None ->
  bordeaux_add_series_desc f L = (Raise KeyError, L).
Proof.
  intros Hf Hd. unfold bordeaux_add_series_desc, bordeaux_series_desc, bind, lift.
  rewrite Hf. cbn [rbind]. rewrite Hd. reflexivity.
Qed.

Lemma leeds_unparseable_number (f : folder) (L : list string) :
  Py.int (Py.last_chars 2 (basename f)) = None ->
  leeds_add_series_name f L = (Raise ValueError, L).
Proof.
  intros H. unfold leeds_add_series_name, leeds_series_name, bind, lift, py_int.
  rewrite H. reflexivity.
Qed.

Lemma leeds_short_image_type (f : folder) (ds : dataset) (z : Z) (it : list string)
    (L : list string) :
  Py.int (Py.last_chars 2 (basename f)) = Some z ->
  read_first f = Ok ds -> ImageType ds = Some it -> length it <= 3 ->
  leeds_add_series_name f L = (Raise IndexError, L).
Proof.
  intros H Hf Hit Hlen. unfold leeds_add_series_name, leeds_series_name, bind, lift, py_int.
  rewrite H. cbn [rbind]. rewrite Hf. cbn [rbind]. rewrite Hit. cbn [attr rbind].
  unfold index. rewrite (lookup_ge_None_2 it 3) by lia. reflexivity.
Qed.

(** ** Position heuristic *)

Lemma position_prefix_below (series_nr threshold : Z) :
  (series_nr < threshold)%Z -> position_prefix series_nr threshold = "Dixon_1_".
Proof. intros H. unfold position_prefix. now rewrite (proj2 (Z.ltb_lt _ _) H). Qed.

Lemma position_prefix_above (series_nr threshold : Z) :
  (threshold <= series_nr)%Z ->
  position_prefix series_nr threshold = "Dixon_post_contrast_1_".
Proof. intros H. unfold position_prefix. now rewrite (proj2 (Z.ltb_ge _ _) H). Qed.

(** C8.  The position heuristic: a series number strictly below the
    threshold of the site (20 for Leeds, on the last two characters of the
    folder name; 1000 for Bari and Turku Philips, on the number in the
    archive name) gives the base name 'Dixon_1_', a series number at or
    above it gives 'Dixon_post_contrast_1_'; Leeds appends the type read
    from the fourth value of ImageType.  With threshold 20, series 4 is
    'Dixon_1_' plus the type and series 41 'Dixon_post_contrast_1_' plus
    the type. *)
Theorem position_heuristic :
  (forall f series_nr ds image_type props,
     py_int (Py.last_chars 2 (basename f)) = Ok series_nr ->
     read_first f = Ok ds -> ImageType ds = Some image_type ->
     image_type !! 3%nat = Some props ->
     ((series_nr < 20)%Z ->
        leeds_series_name f = Ok ("Dixon_1_" +:+ image_type_suffix props)) /\
     ((20 <= series_nr)%Z ->
        leeds_series_name f = Ok ("Dixon_post_contrast_1_" +:+ image_type_suffix props))) /\
  (forall name series_nr,
     py_int (Py.drop 7 name) = Ok series_nr ->
     ((series_nr < 1000)%Z ->
        bari_series_name name = Ok "Dixon_1_" /\
        turku_philips_series_name name = Ok "Dixon_1_") /\
     ((1000 <= series_nr)%Z ->
        bari_series_name name = Ok "Dixon_post_contrast_1_" /\
        turku_philips_series_name name = Ok "Dixon_post_contrast_1_")) /\
  (forall files ds image_type props,
     index files 0 = Ok (Ok ds) -> ImageType ds = Some image_type ->
     image_type !! 3%nat = Some props ->
     leeds_add_series_name {| basename := "series_04"; listdir := files |} []
       = (Ok tt, ["Dixon_1_" +:+ image_type_suffix props]) /\
     leeds_add_series_name {| basename := "series_41"; listdir := files |} []
       = (Ok tt, ["Dixon_post_contrast_1_" +:+ image_type_suffix props])).
Proof.
  split; [|split].
  - intros f series_nr ds image_type props Hnr Hf Hit Hprops.
    unfold leeds_series_name. rewrite Hnr. cbn [rbind]. rewrite Hf. cbn [rbind].
    rewrite Hit. cbn [attr rbind]. unfold index. rewrite Hprops. cbn [rbind].
    split; intros H.
    + now rewrite position_prefix_below.
    + now rewrite position_prefix_above.
  - intros name series_nr Hnr.
    unfold bari_series_name, turku_philips_series_name. rewrite Hnr. cbn [rbind].
    split; intros H.
    + now rewrite position_prefix_below.
    + now rewrite position_prefix_above.
  - intros files ds image_type props Hfile Hit Hprops.
    unfold leeds_add_series_name, leeds_series_name, read_first.
    cbn [basename listdir]. rewrite Hfile.
    unfold bind, lift, add_number, bind, get, lift, modify.
    split.
    + change (py_int (Py.last_chars 2 "series_04")) with (@Ok Z 4%Z).
      cbn [rbind]. rewrite Hit. cbn [attr rbind]. unfold index. rewrite Hprops.
      reflexivity.
    + change (py_int (Py.last_chars 2 "series_41")) with (@Ok Z 41%Z).
      cbn [rbind]. rewrite Hit. cbn [attr rbind]. unfold index. rewrite Hprops.
      reflexivity.
Qed.

(** ** What a driver appends to the store *)

Section Appends.

Context {A B : Type} (P : write -> Prop).

Lemma appends_nothing (m : ST state A) :
  (forall s, store (snd (m s)) = store s) -> appends P m.
Proof.
  intros H s r s' Hm. exists []. rewrite app_nil_r. split; [|constructor].
  specialize (H s). rewrite Hm in H. exact H.
Qed.

Lemma appends_ret (a : A) : appends P (ret a).
Proof. apply appends_nothing. reflexivity. Qed.

Lemma appends_raise (e : exn) : appends P (@raise state A e).
Proof. apply appends_nothing. reflexivity. Qed.

Lemma appends_lift (r : result A) : appends P (lift r).
Proof. apply appends_nothing. reflexivity. Qed.

Lemma appends_bind (m : ST state A) (k : A -> ST state B) :
  appends P m -> (forall a, appends P (k a)) -> appends P (bind m k).
Proof.
  intros Hm Hk s r s'. unfold bind. destruct (m s) as [[a|e] s1] eqn:E.
  - intros H. destruct (Hm _ _ _ E) as (n1 & H1 & F1).
    destruct (Hk a _ _ _ H) as (n2 & H2 & F2).
    exists (n1 ++ n2). rewrite H2, H1, app_assoc. split; [reflexivity|].
    now apply Forall_app.
  - intros H. inversion H; subst. exact (Hm _ _ _ E).
Qed.

Lemma appends_try (m : ST state A) (h : exn -> ST state B) (k : A -> ST state B) :
  appends P m -> (forall e, appends P (h e)) -> (forall a, appends P (k a)) ->
  appends P (try_except_else m h k).
Proof.
  intros Hm Hh Hk s r s'. unfold try_except_else.
  destruct (m s) as [[a|e] s1] eqn:E; intros H;
    destruct (Hm _ _ _ E) as (n1 & H1 & F1).
  - destruct (Hk a _ _ _ H) as (n2 & H2 & F2).
    exists (n1 ++ n2). rewrite H2, H1, app_assoc. split; [reflexivity|].
    now apply Forall_app.
  - destruct (Hh e _ _ _ H) as (n2 & H2 & F2).
    exists (n1 ++ n2). rewrite H2, H1, app_assoc. split; [reflexivity|].
    now apply Forall_app.
Qed.

End Appends.

Lemma appends_get (P : write -> Prop) : appends P (@get state).
Proof. apply appends_nothing. reflexivity. Qed.

(** The store is known to a continuation that reads the state. *)
Lemma appends_get_bind {B} (P : write -> Prop) (k : state -> ST state B) :
  (forall s, appends P (k s)) -> appends P (bind get k).
Proof. intros H. apply appends_bind; [apply appends_get | exact H]. Qed.

(** The continuation of a pure step sees the value it returned. *)
Lemma appends_lift_bind {A B} (P : write -> Prop) (r : result A) (k : A -> ST state B) :
  (forall a, r = Ok a -> appends P (k a)) -> appends P (bind (lift r) k).
Proof.
  intros H. destruct r as [a|e].
  - intros s r' s' Hm. exact (H a eq_refl s r' s' Hm).
  - intros s r' s' Hm. unfold bind, lift in Hm. inversion Hm; subst.
    exists []. rewrite app_nil_r. split; [reflexivity | constructor].
Qed.

Lemma appends_try_lift {A B} (P : write -> Prop) (r : result A)
    (h : exn -> ST state B) (k : A -> ST state B) :
  (forall e, r = Raise e -> appends P (h e)) ->
  (forall a, r = Ok a -> appends P (k a)) ->
  appends P (try_except_else (lift r) h k).
Proof.
  intros Hh Hk. destruct r as [a|e]; intros s r' s' Hm.
  - exact (Hk a eq_refl s r' s' Hm).
  - exact (Hh e eq_refl s r' s' Hm).
Qed.

Lemma appends_for_each {A} (P : write -> Prop) (xs : list A) (body : A -> ST state unit) :
  (forall x, x ∈ xs -> appends P (body x)) -> appends P (for_each xs body).
Proof.
  induction xs as [|x xs IH]; intros H; cbn [for_each].
  - apply appends_ret.
  - apply appends_bind.
    + apply H. now left.
    + intros _. apply IH. intros y Hy. apply H. now right.
Qed.

Lemma appends_modify (P : write -> Prop) (f : state -> state) :
  (forall s, store (f s) = store s) -> appends P (modify f).
Proof. intros H. apply appends_nothing. exact H. Qed.

Lemma appends_logging_error (P : write -> Prop) (msg : string) (e : option exn) :
  appends P (logging_error msg e).
Proof. apply appends_nothing. reflexivity. Qed.

Lemma appends_on_pat_series {A} (P : write -> Prop) (m : ST (list string) A) :
  appends P (on_pat_series m).
Proof.
  apply appends_nothing. intros s. unfold on_pat_series.
  destruct (m (pat_series s)). reflexivity.
Qed.

Lemma appends_last_name (P : write -> Prop) : appends P last_name.
Proof.
  apply appends_nothing. intros s. unfold last_name.
  destruct (last (pat_series s)); reflexivity.
Qed.

Lemma appends_db_write_volume (P : write -> Prop) (v : volume) (a : address) (r : string) :
  P {| w_address := a; w_volume := v; w_ref := r |} ->
  appends P (db_write_volume v a r).
Proof.
  intros H s r' s' Hm. unfold db_write_volume, modify in Hm. inversion Hm; subst.
  eexists. split; [reflexivity|]. constructor; [exact H | constructor].
Qed.

Ltac appends_step :=
  first
    [ apply appends_ret | apply appends_raise | apply appends_lift
    | apply appends_logging_error | apply appends_on_pat_series
    | apply appends_last_name | apply appends_get
    | apply appends_modify; reflexivity
    | apply appends_get_bind; intros ?
    | apply appends_bind; [|intros ?]
    | apply appends_try; [|intros ?|intros ?]
    | apply appends_for_each; intros ? ?
    | match goal with
      | |- appends _ (if ?b then _ else _) => destruct b
      | |- appends _ (match ?x with _ => _ end) => destruct x
      | |- appends _ (let '(_, _) := ?x in _) => destruct x
      end ].

(** ** The sites that buffer their series *)

(** The last component that [swap_fat_water] can return. *)
Lemma swap_fat_water_last (record : list (list string)) (dixon : address)
    (series image_type : string) (out : address) :
  swap_fat_water record dixon series image_type = Ok out ->
  out = dixon \/
  out = take 3 dixon ++ [CStr (series +:+ "_water")] \/
  out = take 3 dixon ++ [CStr (series +:+ "_fat")].
Proof.
  induction record as [|row record IH]; cbn [swap_fat_water].
  - intros H. inversion H. auto.
  - destruct (index dixon 1) as [c1|]; [|discriminate]. cbn [rbind].
    destruct (index dixon 2) as [study|]; [|discriminate]. cbn [rbind].
    destruct (component_first study) as [c2|]; [|discriminate]. cbn [rbind].
    destruct (swap_row_matches row c1 c2 series); [|exact IH].
    destruct (index row 4) as [flag|]; [|discriminate]. cbn [rbind].
    destruct (String.eqb flag "1"); [|exact IH].
    destruct (String.eqb image_type "fat");
      [|destruct (String.eqb image_type "water"); [|exact IH]];
      intros H; inversion H; auto.
Qed.

Lemma written_name_snoc (a : address) (c : component) (v : volume) (r : string) :
  written_name {| w_address := a ++ [c]; w_volume := v; w_ref := r |}
  = Some (description c).
Proof. unfold written_name. cbn [w_address]. now rewrite last_snoc. Qed.

Lemma fat_is_image_type : "fat" ∈ image_types.
Proof. unfold image_types. set_solver. Qed.

Lemma water_is_image_type : "water" ∈ image_types.
Proof. unfold image_types. set_solver. Qed.

(** A buffered series is written under its own name or under the swapped
    one; both carry the repetition index of the loop. *)
Lemma swapped_address_repetition (record : list (list string)) (study : address)
    (named : string -> component) (series : string) (counter : nat) (image_type : string)
    (out : address) (v : volume) (r : string) :
  (forall d, description (named d) = d) ->
  series ∈ dixon_families -> counter ∈ repetitions -> image_type ∈ image_types ->
  swap_fat_water record
    (study ++ [named ((series +:+ "_" +:+ Py.str counter) +:+ "_" +:+ image_type)])
    (series +:+ "_" +:+ Py.str counter) image_type = Ok out ->
  repetition_1_to_3 {| w_address := out; w_volume := v; w_ref := r |}.
Proof.
  intros Hnamed Hs Hc Ht Hswap.
  apply swap_fat_water_last in Hswap as [-> | [-> | ->]].
  - exists series, counter, image_type. repeat split; try assumption.
    rewrite written_name_snoc, Hnamed. reflexivity.
  - exists series, counter, "water". repeat split; try assumption.
    + apply water_is_image_type.
    + rewrite written_name_snoc. reflexivity.
  - exists series, counter, "fat". repeat split; try assumption.
    + apply fat_is_image_type.
    + rewrite written_name_snoc. reflexivity.
Qed.

Lemma appends_in_proper_order (P : write -> Prop)
    (body : string -> nat -> string -> ST state unit) :
  (forall series counter image_type,
     series ∈ dixon_families -> counter ∈ repetitions -> image_type ∈ image_types ->
     appends P (body series counter image_type)) ->
  appends P (in_proper_order body).
Proof.
  intros H. unfold in_proper_order.
  apply appends_for_each. intros series Hs.
  apply appends_for_each. intros counter Hc.
  apply appends_for_each. intros image_type Ht.
  now apply H.
Qed.

Lemma appends_write_buffered (record : list (list string)) (pat_id : string)
    (study : address) (named : string -> component)
    (series : string) (counter : nat) (image_type : string) :
  (forall d, description (named d) = d) ->
  series ∈ dixon_families -> counter ∈ repetitions -> image_type ∈ image_types ->
  appends repetition_1_to_3
    (write_buffered record pat_id study named series counter image_type).
Proof.
  intros Hnamed Hs Hc Ht. unfold write_buffered. cbv zeta.
  apply appends_get_bind. intros s.
  destruct (tmp_series_folder s !! _) as [extract_to|]; [|apply appends_ret].
  apply appends_bind; [apply appends_lift|]. intros dixon.
  apply appends_lift_bind. intros dixon_clean Hswap.
  apply appends_try_lift.
  - intros e _. apply appends_logging_error.
  - intros dixon_vol _. apply appends_db_write_volume.
    eapply swapped_address_repetition; eassumption.
Qed.

Lemma description_CStr (d : string) : description (CStr d) = d.
Proof. reflexivity. Qed.

Lemma description_CTup (d : string) : description (CTup d 0) = d.
Proof. reflexivity. Qed.

Lemma appends_buffer_series (P : write -> Prop) (add : folder -> ST (list string) unit)
    (pat_id : string) (z : zip_file) :
  appends P (buffer_series add pat_id z).
Proof. unfold buffer_series. cbv zeta. repeat appends_step. Qed.

Lemma appends_sheffield_patient (record : list (list string)) (patient : patient_dir) :
  appends repetition_1_to_3 (sheffield_patient record patient).
Proof.
  unfold sheffield_patient. cbv zeta.
  destruct (Py.mem _ EXCLUDE); [apply appends_ret|].
  apply appends_get_bind. intros s.
  destruct (patient_exists _ _ _); [apply appends_ret|].
  apply appends_bind; [apply appends_lift|]. intros experiment.
  apply appends_bind; [apply appends_lift|]. intros all_zip_series.
  apply appends_bind; [apply appends_modify; reflexivity|]. intros _.
  apply appends_bind; [apply appends_modify; reflexivity|]. intros _.
  apply appends_bind.
  - apply appends_for_each. intros z _. apply appends_buffer_series.
  - intros _. apply appends_in_proper_order. intros series counter image_type Hs Hc Ht.
    apply appends_write_buffered; [apply description_CStr | assumption ..].
Qed.

Lemma appends_turku_ge_patient (record : list (list string)) (patient : patient_dir) :
  appends repetition_1_to_3 (turku_ge_patient record patient).
Proof.
  unfold turku_ge_patient. cbv zeta.
  destruct (turku_ge_ibeat_patient_id _) as [pat_id time_point].
  destruct (Py.mem _ EXCLUDE); [apply appends_ret|].
  apply appends_get_bind. intros s.
  destruct (study_exists _ _); [apply appends_ret|].
  apply appends_bind; [apply appends_lift|]. intros all_zip_series.
  apply appends_bind; [apply appends_modify; reflexivity|]. intros _.
  apply appends_bind; [apply appends_modify; reflexivity|]. intros _.
  apply appends_bind.
  - apply appends_for_each. intros z _. apply appends_buffer_series.
  - intros _. apply appends_in_proper_order. intros series counter image_type Hs Hc Ht.
    apply appends_write_buffered; [apply description_CStr | assumption ..].
Qed.

Lemma appends_bordeaux_patient (visit : string) (record : list (list string))
    (patient : patient_dir) :
  appends repetition_1_to_3 (bordeaux_patient visit record patient).
Proof.
  unfold bordeaux_patient. cbv zeta.
  destruct (Py.mem _ EXCLUDE); [apply appends_ret|].
  apply appends_get_bind. intros s.
  destruct (study_exists _ _); [apply appends_ret|].
  apply appends_bind; [apply appends_lift|]. intros all_zip_series.
  apply appends_bind; [apply appends_modify; reflexivity|]. intros _.
  apply appends_bind; [apply appends_modify; reflexivity|]. intros _.
  apply appends_bind.
  - apply appends_for_each. intros z _. apply appends_buffer_series.
  - intros _. apply appends_in_proper_order. intros series counter image_type Hs Hc Ht.
    apply appends_write_buffered; [apply description_CStr | assumption ..].
Qed.

Lemma appends_write_phases (P : write -> Prop) (pat_id name : string)
    (out_phase_clean in_phase_clean : address) (dixon_split : list (Qc * subseries))
    (out_phase in_phase : nat) :
  (forall v r, P {| w_address := out_phase_clean; w_volume := v; w_ref := r |}) ->
  (forall v r, P {| w_address := in_phase_clean; w_volume := v; w_ref := r |}) ->
  appends P (write_phases pat_id name out_phase_clean in_phase_clean
               dixon_split out_phase in_phase).
Proof.
  intros Hout Hin. unfold write_phases.
  apply appends_try; [apply appends_lift | intros e; apply appends_logging_error|].
  intros [[[o vo] i] vi].
  apply appends_bind; [|intros _]; apply appends_db_write_volume; auto.
Qed.

Lemma dixon_is_family : "Dixon" ∈ dixon_families.
Proof. unfold dixon_families. set_solver. Qed.

Lemma dixon_post_contrast_is_family : "Dixon_post_contrast" ∈ dixon_families.
Proof. unfold dixon_families. set_solver. Qed.

Lemma one_is_repetition : 1 ∈ repetitions.
Proof. unfold repetitions. set_solver. Qed.

Lemma out_phase_is_image_type : "out_phase" ∈ image_types.
Proof. unfold image_types. set_solver. Qed.

Lemma in_phase_is_image_type : "in_phase" ∈ image_types.
Proof. unfold image_types. set_solver. Qed.

Lemma appends_exeter_111 (patients : list patient_dir) :
  appends repetition_1_to_3 (exeter_111 patients).
Proof.
  unfold exeter_111. cbv zeta.
  apply appends_get_bind. intros s.
  destruct (study_exists _ _); [apply appends_ret|].
  apply appends_bind; [apply appends_lift|]. intros patient.
  apply appends_bind; [apply appends_lift|]. intros all_zip_series.
  apply appends_for_each. intros z _. unfold exeter_111_series. cbv zeta.
  apply appends_try; [apply appends_lift | intros e; apply appends_logging_error|].
  intros extract_to.
  apply appends_bind; [apply appends_lift|]. intros dixon.
  apply appends_bind; [apply appends_lift|]. intros dixon_split.
  apply appends_bind; [apply appends_lift|]. intros order.
  destruct (String.eqb (zip_name_of z) "series_04").
  - apply appends_write_phases; intros v r.
    + exists "Dixon", 1, "out_phase".
      split; [apply dixon_is_family|]. split; [apply one_is_repetition|].
      split; [apply out_phase_is_image_type | reflexivity].
    + exists "Dixon", 1, "in_phase".
      split; [apply dixon_is_family|]. split; [apply one_is_repetition|].
      split; [apply in_phase_is_image_type | reflexivity].
  - apply appends_write_phases; intros v r.
    + exists "Dixon_post_contrast", 1, "out_phase".
      split; [apply dixon_post_contrast_is_family|]. split; [apply one_is_repetition|].
      split; [apply out_phase_is_image_type | reflexivity].
    + exists "Dixon_post_contrast", 1, "in_phase".
      split; [apply dixon_post_contrast_is_family|]. split; [apply one_is_repetition|].
      split; [apply in_phase_is_image_type | reflexivity].
Qed.

Section ExeterAppends.

Variable reslice_coronal : volume -> result volume.

Lemma appends_exeter_write_buffered (visit : string) (record : list (list string))
    (pat_id : string) (study : address)
    (series : string) (counter : nat) (image_type : string) :
  series ∈ dixon_families -> counter ∈ repetitions -> image_type ∈ image_types ->
  appends repetition_1_to_3
    (exeter_write_buffered reslice_coronal visit record pat_id study
       series counter image_type).
Proof.
  intros Hs Hc Ht. unfold exeter_write_buffered. cbv zeta.
  apply appends_get_bind. intros s.
  destruct (tmp_series_folder s !! _) as [extract_to|]; [|apply appends_ret].
  apply appends_bind; [apply appends_lift|]. intros dixon.
  apply appends_lift_bind. intros dixon_clean Hswap.
  destruct (_ && _); [apply appends_ret|].
  apply appends_try; [apply appends_lift | intros e; apply appends_logging_error|].
  intros dixon_vol.
  apply appends_bind; [apply appends_lift|]. intros dixon_vol'.
  apply appends_db_write_volume.
  eapply (swapped_address_repetition record study (fun d => CTup d 0));
    [apply description_CTup | eassumption ..].
Qed.

Lemma appends_exeter_patient (visit : string) (record : list (list string))
    (patients : list patient_dir) (patient : patient_dir) :
  appends repetition_1_to_3
    (exeter_patient reslice_coronal visit record patients patient).
Proof.
  unfold exeter_patient. cbv zeta.
  destruct (Py.mem _ EXCLUDE); [apply appends_ret|].
  destruct (_ && _); [apply appends_exeter_111|].
  apply appends_get_bind. intros s.
  destruct (_ && _); [apply appends_ret|].
  apply appends_bind; [apply appends_lift|]. intros all_zip_series.
  apply appends_bind; [apply appends_modify; reflexivity|]. intros _.
  apply appends_bind; [apply appends_modify; reflexivity|]. intros _.
  apply appends_bind.
  - apply appends_for_each. intros z _. apply appends_buffer_series.
  - intros _. apply appends_in_proper_order. intros series counter image_type Hs Hc Ht.
    now apply appends_exeter_write_buffered.
Qed.

End ExeterAppends.

(** C9.  The sites that extract all series of a patient before writing
    (Sheffield, Turku GE, Bordeaux, Exeter) only ever write channel names
    whose repetition index is 1, 2 or 3.  A series that was classified and
    recorded in the ledger with index 4 is not written, and nothing is
    logged about it: of four acquisitions of the pre-contrast fat image of a
    Sheffield patient the store receives three. *)
Theorem buffered_sites_write_three_repetitions :
  (forall record patients s r s',
     sheffield record patients s = (r, s') ->
     exists new, store s' = store s ++ new /\ Forall repetition_1_to_3 new) /\
  (forall record patients s r s',
     turku_ge record patients s = (r, s') ->
     exists new, store s' = store s ++ new /\ Forall repetition_1_to_3 new) /\
  (forall visit record patients s r s',
     bordeaux_patients visit record patients s = (r, s') ->
     exists new, store s' = store s ++ new /\ Forall repetition_1_to_3 new) /\
  (forall reslice_coronal visit record patients s r s',
     exeter_patients reslice_coronal visit record patients s = (r, s') ->
     exists new, store s' = store s ++ new /\ Forall repetition_1_to_3 new) /\
  (let run := sheffield [] [four_fat_series] (initial []) in
   fst run = Ok tt /\
   pat_series (snd run) = ["Dixon_1_fat"; "Dixon_2_fat"; "Dixon_3_fat"; "Dixon_4_fat"] /\
   map written_name (store (snd run))
     = [Some "Dixon_1_fat"; Some "Dixon_2_fat"; Some "Dixon_3_fat"] /\
   map w_ref (store (snd run)) = ["3"; "4"; "5"] /\
   log (snd run) = []).
Proof.
  split; [|split; [|split; [|split]]].
  - intros record patients.
    apply (appends_for_each repetition_1_to_3 patients (sheffield_patient record)).
    intros p _. apply appends_sheffield_patient.
  - intros record patients.
    apply (appends_for_each repetition_1_to_3 patients (turku_ge_patient record)).
    intros p _. apply appends_turku_ge_patient.
  - intros visit record patients.
    apply (appends_for_each repetition_1_to_3 patients (bordeaux_patient visit record)).
    intros p _. apply appends_bordeaux_patient.
  - intros reslice_coronal visit record patients.
    apply (appends_for_each repetition_1_to_3 patients
             (exeter_patient reslice_coronal visit record patients)).
    intros p _. apply appends_exeter_patient.
  - vm_compute. repeat split; reflexivity.
Qed.

(** C5.  A second run over the same source and store writes nothing more.
    The Turku Philips driver tests the out-phase address only
    (line 908): a series without an opposed-phase image is extracted and
    written again by the second run. *)
Theorem turku_philips_second_run_writes_again :
  let run1 := turku_philips [philips_without_OP] (initial []) in
  let run2 := turku_philips [philips_without_OP] (initial (store (snd run1))) in
  fst run1 = Ok tt /\
  fst run2 = Ok tt /\
  map w_address (store (snd run1))
    = [ [CStr turku_philips_sitedatapath; CStr "5128_001"; CTup "Baseline" 0;
         CTup "Dixon_1_in_phase" 0];
        [CStr turku_philips_sitedatapath; CStr "5128_001"; CTup "Baseline" 0;
         CTup "Dixon_1_water" 0] ] /\
  store (snd run2) = store (snd run1) ++ store (snd run1).
Proof. vm_compute. repeat split; reflexivity. Qed.

(** C6.  A series whose volume cannot be assembled is logged and skipped,
    and the run goes on.  In the Turku Philips driver the write of
    line 950 follows the handler of line 948: when the first part of the
    first series fails, [vol] is unbound, the [NameError] leaves the driver
    and neither the next series nor the next patient is processed; when a
    later part fails, the volume of the part before it is written under
    the name of the failed part. *)
Theorem turku_philips_aborts_on_failed_volume :
  (let run := turku_philips [philips_corrupt_first; philips_sound] (initial []) in
   fst run = Raise NameError /\
   store (snd run) = [] /\
   log (snd run) = [("Patient 5128_002 - Dixon_1_", Some DbError)]) /\
  (let run := turku_philips [philips_corrupt_second] (initial []) in
   fst run = Ok tt /\
   map (fun w => (written_name w, w_ref w, w_volume w)) (store (snd run))
     = [ (Some "Dixon_1_out_phase", "501/OP", volume_of 7);
         (Some "Dixon_1_in_phase", "501/IP", volume_of 7) ]).
Proof. vm_compute. repeat split; reflexivity. Qed.

(** ** The theorems at sample inputs *)

Lemma lower_echo_time_is_out_phase_witness :
  (te_out_phase < te_in_phase)%Qc /\
  exists out_phase in_phase,
    phase_order two_echoes = Ok (out_phase, in_phase) /\
    index two_echoes out_phase = Ok (te_out_phase, part "echo_1" (Ok (volume_of 1))) /\
    index two_echoes in_phase = Ok (te_in_phase, part "echo_2" (Ok (volume_of 2))).
Proof.
  split; [reflexivity|].
  refine (proj1 (lower_echo_time_is_out_phase te_out_phase te_in_phase
                   (part "echo_1" (Ok (volume_of 1))) (part "echo_2" (Ok (volume_of 2)))
                   two_echoes _ _)).
  - reflexivity.
  - right. reflexivity.
Defined.

Lemma sample_record_flags_present :
  flags_present sample_record ["7128_001"; "Baseline"; "Dixon_1"].
Proof.
  intros row Hin Hkey. unfold sample_record in Hin.
  repeat (apply elem_of_cons in Hin as [-> | Hin]);
    [discriminate Hkey | eexists; reflexivity | discriminate Hkey | inversion Hin].
Defined.

Lemma sample_record_flagged :
  flagged sample_record ["7128_001"; "Baseline"; "Dixon_1"].
Proof.
  exists ["Sheffield"; "7128_001"; "Baseline"; "Dixon_1"; "1"].
  split; [|split; reflexivity].
  unfold sample_record. apply list_elem_of_further, list_elem_of_here.
Defined.

Lemma swap_fat_water_correct_witness :
  swap_fat_water sample_record (sample_address "Dixon_1_fat") "Dixon_1" "fat"
    = Ok (sample_address "Dixon_1_water") /\
  swap_fat_water sample_record (sample_address "Dixon_1_fat") "Dixon_1" "water"
    = Ok (sample_address "Dixon_1_fat").
Proof.
  exact (proj1 (swap_fat_water_correct sample_record (CStr sheffield_sitedatapath)
                  "7128_001" "Baseline" 0 (CStr "Dixon_1_fat") "Dixon_1"
                  sample_record_flags_present)
               sample_record_flagged).
Defined.

Lemma swap_fat_water_frame_witness :
  exists last,
    swap_fat_water sample_record (sample_address "Dixon_1_in_phase") "Dixon_1" "in_phase"
      = Ok [CStr sheffield_sitedatapath; CStr "7128_001"; CTup "Baseline" 0; last] /\
    ("in_phase" <> "fat" -> "in_phase" <> "water" -> last = CStr "Dixon_1_in_phase").
Proof.
  exact (proj2 (swap_fat_water_frame sample_record (sample_address "Dixon_1_in_phase")
                  "Dixon_1" "in_phase")
               (CStr sheffield_sitedatapath) "7128_001" "Baseline" 0%Z
               (CStr "Dixon_1_in_phase") eq_refl sample_record_flags_present).
Defined.

Lemma repeated_names_are_numbered_witness :
  for_each (replicate 3 "Dixon_1_fat") add_number []
  = (Ok tt, ["Dixon_1_fat"; "Dixon_2_fat"; "Dixon_3_fat"]).
Proof.
  refine (proj1 (proj2 (proj2 (proj2
            (repeated_names_are_numbered "Dixon" "fat" [] 3 _ _))))).
  - left. reflexivity.
  - intros k _ Hin. inversion Hin.
Defined.

Lemma failed_classification_keeps_ledger_witness :
  fst (bordeaux_add_series_desc unknown_description ["Dixon_1_fat"]) = Raise KeyError /\
  snd (bordeaux_add_series_desc unknown_description ["Dixon_1_fat"]) = ["Dixon_1_fat"].
Proof.
  split; [reflexivity|].
  refine (proj1 (proj2 (failed_classification_keeps_ledger
            ["Dixon_1_fat"]
            (snd (bordeaux_add_series_desc unknown_description ["Dixon_1_fat"]))
            KeyError)) unknown_description _).
  reflexivity.
Defined.

Lemma position_heuristic_witness :
  leeds_series_name leeds_fat_04 = Ok "Dixon_1_fat".
Proof.
  refine (proj1 (proj1 position_heuristic leeds_fat_04 4%Z _
                   ["DERIVED"; "PRIMARY"; "DIXON"; "FAT"] "FAT" _ _ _ _) _).
  - reflexivity.
  - reflexivity.
  - reflexivity.
  - reflexivity.
  - reflexivity.
Defined.

Lemma buffered_sites_write_three_repetitions_witness :
  exists new,
    store (snd (sheffield [] [four_fat_series] (initial []))) = [] ++ new /\
    Forall repetition_1_to_3 new.
Proof.
  refine (proj1 buffered_sites_write_three_repetitions [] [four_fat_series] (initial [])
            (fst (sheffield [] [four_fat_series] (initial [])))
            (snd (sheffield [] [four_fat_series] (initial []))) _).
  destruct (sheffield [] [four_fat_series] (initial [])). reflexivity.
Defined.

(** ** More on the ledger: interleaved classifications *)

Lemma str_starts_with_digit (k : nat) :
  exists c s, Py.str k = String c s /\ Py.is_digit c = true.
Proof.
  pose proof (all_digits_str k) as Hd.
  unfold Py.str, NilZero.string_of_uint in *.
  pose proof (to_uint_nonnil k) as Hn.
  destruct (Nat.to_uint k); try congruence; cbn in *;
    apply andb_true_iff in Hd as [Hc _]; eauto.
Qed.

Lemma plain_name (family rest : string) (k : nat) :
  is_family family -> Py.contains "_1_" rest = false ->
  channel_name (family +:+ "_1_" +:+ rest) k
  = family +:+ "_" +:+ Py.str k +:+ "_" +:+ rest.
Proof.
  intros Hf Hr. rewrite channel_name_shape by exact Hf.
  now rewrite name_tail_absent.
Qed.

(** The names of two plain base names never coincide. *)
Lemma plain_name_inj (b b' : string) (k k' : nat) :
  plain_base b -> plain_base b' ->
  channel_name b k = channel_name b' k' -> b = b' /\ k = k'.
Proof.
  intros (f & r & Hf & Hr & ->) (f' & r' & Hf' & Hr' & ->).
  rewrite !plain_name by assumption.
  destruct (str_starts_with_digit k) as (c & s & Hs & Hc).
  destruct (str_starts_with_digit k') as (c' & s' & Hs' & Hc').
  assert (Hsame : forall g, is_family g ->
            g +:+ "_" +:+ Py.str k +:+ "_" +:+ r = g +:+ "_" +:+ Py.str k' +:+ "_" +:+ r' ->
            k = k' /\ r = r').
  { intros g _ H. apply String.app_inj in H.
    rewrite !append_cons, !append_nil in H. inversion H as [H'].
    assert (Hk : Py.str k = Py.str k').
    { eapply digits_until_underscore; [apply all_digits_str | apply all_digits_str | exact H']. }
    rewrite Hk in H'. apply String.app_inj in H'. inversion H'.
    split; [now apply str_inj | reflexivity]. }
  destruct Hf as [-> | ->], Hf' as [-> | ->]; intros H.
  - destruct (Hsame "Dixon" (or_introl eq_refl) H) as [-> ->]. auto.
  - exfalso. rewrite Hs in H. inversion H; subst c. discriminate Hc.
  - exfalso. rewrite Hs' in H. inversion H; subst c'. discriminate Hc'.
  - destruct (Hsame "Dixon_post_contrast" (or_intror eq_refl) H) as [-> ->]. auto.
Qed.

Lemma occurrences_snoc (b b' : string) (seen : list string) :
  occurrences b (seen ++ [b']) = occurrences b seen + (if String.eqb b b' then 1 else 0).
Proof.
  unfold occurrences. rewrite List.filter_app, length_app. cbn [List.filter].
  destruct (String.eqb b b'); reflexivity.
Qed.

(** One run of the loop on a ledger that holds, of the names of [base],
    exactly the first [i]. *)
Lemma add_number_after (family rest : string) (L : list string) (i : nat) :
  is_family family ->
  let base := family +:+ "_1_" +:+ rest in
  i <= length L ->
  (forall k, 1 <= k -> channel_name base k ∈ L <-> k <= i) ->
  add_number base L = (Ok tt, L ++ [channel_name base (S i)]).
Proof.
  intros Hf base Hlen Hmem. unfold add_number, bind, get, lift, modify.
  assert (Hnext : next_available (S (length L)) base base 2 L
                  = Ok (channel_name base (S i))).
  { apply (next_available_first_free base L (S i) (S (length L)) 1); [lia | lia | |].
    - intros j Hj. apply Hmem; lia.
    - intros Hin. apply Hmem in Hin; lia. }
  rewrite Hnext. reflexivity.
Qed.

Lemma occurrences_le (b : string) (seen : list string) : occurrences b seen <= length seen.
Proof. unfold occurrences. apply List.filter_length_le. Qed.

Lemma ledger_of_step (seen L : list string) (b : string) :
  plain_base b -> ledger_of seen L ->
  add_number b L = (Ok tt, L ++ [channel_name b (S (occurrences b seen))]) /\
  ledger_of (seen ++ [b]) (L ++ [channel_name b (S (occurrences b seen))]).
Proof.
  intros Hb [Hlen Hmem]. split.
  - destruct Hb as (f & r & Hf & Hr & ->).
    apply add_number_after; [exact Hf | rewrite Hlen; apply occurrences_le |].
    intros k Hk. apply Hmem; [|exact Hk]. exists f, r. auto.
  - split; [rewrite !length_app, Hlen; reflexivity|].
    intros b' k Hb' Hk. rewrite elem_of_app, list_elem_of_singleton, occurrences_snoc.
    rewrite (Hmem b' k Hb' Hk). split.
    + intros [Hle | Heq]; [lia|].
      apply plain_name_inj in Heq as [-> ->]; [|assumption ..].
      rewrite String.eqb_refl. lia.
    + intros Hle. destruct (String.eqb b' b) eqn:E.
      * apply String.eqb_eq in E. subst b'.
        destruct (decide (k <= occurrences b seen)); [now left | right].
        f_equal. lia.
      * left. lia.
Qed.

Lemma numbered_run (calls seen L : list string) :
  Forall plain_base calls -> ledger_of seen L ->
  for_each calls add_number L = (Ok tt, L ++ numbered seen calls) /\
  ledger_of (seen ++ calls) (L ++ numbered seen calls).
Proof.
  intros Hcalls. revert seen L. induction Hcalls as [|b calls Hb Hcalls IH]; intros seen L HL.
  - cbn [for_each numbered]. rewrite !app_nil_r. auto.
  - destruct (ledger_of_step seen L b Hb HL) as [Hstep HL'].
    destruct (IH _ _ HL') as [Hrun Hfinal].
    cbn [for_each numbered]. unfold bind at 1. rewrite Hstep.
    rewrite <- !app_assoc in *. cbn [app] in *. auto.
Qed.

Lemma ledger_of_nil : ledger_of [] [].
Proof.
  split; [reflexivity|]. intros b k _ Hk. cbn. split.
  - intros H. inversion H.
  - lia.
Qed.

(** The names recorded for one patient are pairwise distinct. *)
Lemma numbered_NoDup (calls seen L : list string) :
  Forall plain_base calls -> ledger_of seen L -> NoDup L ->
  NoDup (L ++ numbered seen calls).
Proof.
  intros Hcalls. revert seen L. induction Hcalls as [|b calls Hb Hcalls IH]; intros seen L HL Hnd.
  - cbn [numbered]. now rewrite app_nil_r.
  - cbn [numbered]. destruct (ledger_of_step seen L b Hb HL) as [_ HL'].
    replace (L ++ channel_name b (S (occurrences b seen)) :: numbered (seen ++ [b]) calls)
      with ((L ++ [channel_name b (S (occurrences b seen))]) ++ numbered (seen ++ [b]) calls)
      by (now rewrite <- app_assoc).
    apply IH; [exact HL'|].
    apply NoDup_app. split; [exact Hnd|]. split; [|apply NoDup_singleton].
    intros x Hx Hx'. apply list_elem_of_singleton in Hx'. subst x.
    destruct HL as [_ Hmem]. apply Hmem in Hx; [lia | exact Hb | lia].
Qed.

Lemma numbered_replicate (b : string) (N i : nat) (seen : list string) :
  occurrences b seen = i ->
  numbered seen (replicate N b) = map (channel_name b) (seq (S i) N).
Proof.
  revert i seen. induction N as [|N IH]; intros i seen Hi; [reflexivity|].
  cbn [replicate numbered seq map]. rewrite Hi. f_equal.
  apply IH. rewrite occurrences_snoc, String.eqb_refl. lia.
Qed.


Lemma plain_base_pre (rest : string) :
  Py.contains "_1_" rest = false -> plain_base ("Dixon_1_" +:+ rest).
Proof. intros H. exists "Dixon", rest. split; [now left | auto]. Qed.

Lemma plain_base_post (rest : string) :
  Py.contains "_1_" rest = false -> plain_base ("Dixon_post_contrast_1_" +:+ rest).
Proof. intros H. exists "Dixon_post_contrast", rest. split; [now right | auto]. Qed.

(** X1.  The classifications of one patient, base names interleaved: each
    call records its base name with the number of the calls so far that
    derived the same base name, and the names recorded are pairwise
    distinct.  The base names are those of the dictionaries and of the
    known image types (no '_1_' after the family). *)
Theorem interleaved_classifications_are_numbered (calls : list string) :
  Forall plain_base calls ->
  for_each calls add_number [] = (Ok tt, numbered [] calls) /\
  NoDup (numbered [] calls).
Proof.
  intros Hcalls. split.
  - exact (proj1 (numbered_run calls [] [] Hcalls ledger_of_nil)).
  - exact (numbered_NoDup calls [] [] Hcalls ledger_of_nil (NoDup_nil_2)).
Qed.

Lemma two_acquisitions_plain : Forall plain_base two_acquisitions.
Proof.
  unfold two_acquisitions.
  repeat (apply Forall_cons; split;
          [first [ apply (plain_base_pre "out_phase") | apply (plain_base_pre "in_phase")
                 | apply (plain_base_pre "fat") | apply (plain_base_pre "water")
                 | apply (plain_base_post "fat") ]; reflexivity |]).
  apply Forall_nil_2.
Defined.

Lemma interleaved_classifications_are_numbered_witness :
  for_each two_acquisitions add_number []
  = (Ok tt,
     ["Dixon_1_out_phase"; "Dixon_1_in_phase"; "Dixon_1_fat"; "Dixon_1_water";
      "Dixon_2_out_phase"; "Dixon_2_in_phase"; "Dixon_post_contrast_1_fat";
      "Dixon_3_out_phase"]).
Proof.
  exact (proj1 (interleaved_classifications_are_numbered two_acquisitions
                  two_acquisitions_plain)).
Defined.

(** ** More on the classifiers *)

Lemma classifier_add {A} (name_of : A -> result string) (add : A -> ST (list string) unit) :
  classifier name_of add -> forall x, add x = bind (lift (name_of x)) add_number.
Proof. intros H. destruct H; reflexivity. Qed.

Lemma classifier_family {A} (name_of : A -> result string)
    (add : A -> ST (list string) unit) (x : A) (base : string) :
  classifier name_of add -> name_of x = Ok base -> has_family base.
Proof.
  intros H. destruct H.
  - apply leeds_series_name_family.
  - apply bordeaux_series_desc_family.
  - apply bordeaux_series_desc_family.
  - apply sheffield_series_desc_family.
  - apply sheffield_series_desc_family.
  - apply bari_series_name_family.
  - apply bari_series_name_family.
Qed.

(** The loop returns the first candidate that the ledger does not hold. *)
Lemma add_number_first_free (family rest : string) (L : list string) :
  is_family family ->
  exists n, 1 <= n <= S (length L) /\
    add_number (family +:+ "_1_" +:+ rest) L
      = (Ok tt, L ++ [channel_name (family +:+ "_1_" +:+ rest) n]) /\
    (channel_name (family +:+ "_1_" +:+ rest) n ∉ L) /\
    (forall j, 1 <= j < n -> channel_name (family +:+ "_1_" +:+ rest) j ∈ L).
Proof.
  intros Hf. set (base := family +:+ "_1_" +:+ rest).
  destruct (first_free_name base L (S (length L))) as [Hall | (n & Hn & Hout & Hin)].
  - exfalso.
    assert (Hnd : NoDup (map (channel_name base) (seq 1 (S (length L))))).
    { apply NoDup_fmap_2_strong; [|apply NoDup_seq].
      intros j k _ _. apply channel_name_inj. exact Hf. }
    assert (Hsub : map (channel_name base) (seq 1 (S (length L))) ⊆+ L).
    { apply NoDup_submseteq; [exact Hnd|].
      intros x Hx. apply list_elem_of_fmap in Hx as (j & -> & Hj).
      apply elem_of_seq in Hj. apply Hall. lia. }
    apply submseteq_length in Hsub. rewrite length_map, length_seq in Hsub. lia.
  - exists n. split; [exact Hn|]. split; [|split; [exact Hout | exact Hin]].
    unfold add_number, bind, get, lift, modify.
    assert (Hnext : next_available (S (length L)) base base 2 L = Ok (channel_name base n)).
    { apply (next_available_first_free base L n (S (length L)) 1); [lia | lia | | exact Hout].
      intros j Hj. apply Hin. lia. }
    rewrite Hnext. reflexivity.
Qed.

Lemma classifier_appends {A : Type}
    (name_of : A -> result string) (add : A -> ST (list string) unit)
    (x : A) (base : string) (L : list string) :
  classifier name_of add ->
  name_of x = Ok base ->
  exists n, 1 <= n <= S (length L) /\
    add x L = (Ok tt, L ++ [channel_name base n]) /\
    (channel_name base n ∉ L) /\
    (forall j, 1 <= j < n -> channel_name base j ∈ L).
Proof.
  intros Hc Hname.
  destruct (classifier_family name_of add x base Hc Hname) as (family & rest & Hf & ->).
  destruct (add_number_first_free family rest L Hf) as (n & Hn & Hadd & Hout & Hin).
  exists n. split; [exact Hn|]. split; [|split; [exact Hout | exact Hin]].
  rewrite (classifier_add name_of add Hc). unfold bind at 1, lift. rewrite Hname.
  exact Hadd.
Qed.

(** X2.  Once its base name is derived, each of the seven classifiers
    returns (the while loop stops within len(all_series) + 1 tests) and
    appends exactly one name: the first of the candidates base, base with
    _2_, base with _3_, ... that the ledger does not hold.  A ledger without
    duplicates stays without duplicates. *)
Theorem classification_appends_first_free_name {A : Type}
    (name_of : A -> result string) (add : A -> ST (list string) unit)
    (x : A) (base : string) (L : list string) :
  classifier name_of add ->
  name_of x = Ok base ->
  exists n, 1 <= n <= S (length L) /\
    add x L = (Ok tt, L ++ [channel_name base n]) /\
    (channel_name base n ∉ L) /\
    (forall j, 1 <= j < n -> channel_name base j ∈ L) /\
    (NoDup L -> NoDup (L ++ [channel_name base n])).
Proof.
  intros Hc Hname.
  destruct (classifier_appends name_of add x base L Hc Hname)
    as (n & Hn & Hadd & Hout & Hin).
  exists n. split; [exact Hn|]. split; [exact Hadd|].
  split; [exact Hout | split; [exact Hin|]].
  intros Hnd. apply NoDup_app. split; [exact Hnd|]. split; [|apply NoDup_singleton].
  intros y Hy Hy'. apply list_elem_of_singleton in Hy'. subst y. contradiction.
Qed.

Lemma classification_appends_first_free_name_witness :
  exists n, 1 <= n <= S (length ledger_with_gap) /\
    sheffield_add_series_desc philips_in_phase ledger_with_gap
      = (Ok tt, ledger_with_gap ++ [channel_name "Dixon_1_in_phase" n]) /\
    (channel_name "Dixon_1_in_phase" n ∉ ledger_with_gap) /\
    (forall j, 1 <= j < n -> channel_name "Dixon_1_in_phase" j ∈ ledger_with_gap) /\
    (NoDup ledger_with_gap ->
     NoDup (ledger_with_gap ++ [channel_name "Dixon_1_in_phase" n])).
Proof.
  refine (classification_appends_first_free_name sheffield_series_desc
            sheffield_add_series_desc philips_in_phase "Dixon_1_in_phase"
            ledger_with_gap classifier_sheffield _).
  reflexivity.
Defined.

(** *** The names of the description classifiers *)











(** ** Patient identifiers *)

Lemma length_append (s t : string) :
  String.length (s +:+ t) = String.length s + String.length t.
Proof.
  induction s as [|c s IH]; [reflexivity|].
  rewrite append_cons. cbn [String.length]. now rewrite IH.
Qed.

Lemma length_take_le (n : nat) (s : string) : String.length (Py.take n s) <= n.
Proof.
  revert s. induction n as [|n IH]; intros [|c s]; cbn; try lia.
  specialize (IH s). lia.
Qed.

(** Replacing one character by one character keeps the length. *)
Lemma length_dashes_to_underscores (s : string) :
  String.length (dashes_to_underscores s) = String.length s.
Proof.
  unfold dashes_to_underscores, Py.replace.
  induction s as [|c s IH]; [reflexivity|].
  cbn [Py.replace_from Py.starts_with String.length Nat.sub].
  destruct (Ascii.eqb "-" c && true).
  - rewrite append_cons, append_nil. cbn [String.length]. now rewrite IH.
  - cbn [String.length]. now rewrite IH.
Qed.

Lemma contains_too_long (sub s : string) :
  String.length s < String.length sub -> Py.contains sub s = false.
Proof.
  revert sub. induction s as [|c s IH]; intros sub Hlen.
  - destruct sub; [cbn in Hlen; lia | reflexivity].
  - cbn [Py.contains]. rewrite IH by (cbn in Hlen; lia).
    rewrite orb_false_r.
    assert (Hs : forall t u, String.length u < String.length t ->
                             Py.starts_with t u = false).
    { induction t as [|a t IHt]; intros u Hu; [cbn in Hu; lia|].
      destruct u as [|b u]; [reflexivity|]. cbn [Py.starts_with].
      rewrite IHt by (cbn in Hu; lia). apply andb_false_r. }
    now apply Hs.
Qed.

(** No dash is left after [replace('-', '_')]. *)
Lemma dashes_to_underscores_no_dash (s : string) :
  Py.contains "-" (dashes_to_underscores s) = false.
Proof.
  unfold dashes_to_underscores, Py.replace.
  induction s as [|c s IH]; [reflexivity|].
  cbn [Py.replace_from Py.starts_with String.length Nat.sub].
  destruct (Ascii.eqb "-" c && true) eqn:E.
  - rewrite append_cons, append_nil. cbn [Py.contains Py.starts_with].
    rewrite IH. reflexivity.
  - cbn [Py.contains Py.starts_with]. rewrite E, IH. reflexivity.
Qed.

(** X4.  The identifier that the Turku Philips driver derives from a folder
    name has at most eight characters and no dash, and the time point is
    'Baseline' for every folder: '_followup' has nine characters and is
    looked for in the first eight of the name (lines 103-109). *)
Theorem turku_philips_time_point_is_baseline (folder : string) :
  snd (turku_philips_ibeat_patient_id folder) = "Baseline" /\
  String.length (fst (turku_philips_ibeat_patient_id folder)) <= 8 /\
  Py.contains "-" (fst (turku_philips_ibeat_patient_id folder)) = false.
Proof.
  unfold turku_philips_ibeat_patient_id.
  assert (Hlen : String.length (dashes_to_underscores (Py.take 8 folder)) <= 8).
  { rewrite length_dashes_to_underscores. apply length_take_le. }
  rewrite (contains_too_long "_followup") by (cbn [String.length]; lia).
  cbn [fst snd]. split; [reflexivity|]. split; [apply length_take_le|].
  assert (Hsame : Py.take 8 (dashes_to_underscores (Py.take 8 folder))
                  = dashes_to_underscores (Py.take 8 folder)).
  { generalize dependent (dashes_to_underscores (Py.take 8 folder)).
    intros s Hs.
    do 9 (destruct s as [|? s]; [reflexivity|]). cbn [String.length] in Hs. lia. }
  rewrite Hsame. apply dashes_to_underscores_no_dash.
Qed.

Lemma take_append (a b : string) : Py.take (String.length a) (a +:+ b) = a.
Proof.
  induction a as [|c a IH]; [destruct b; reflexivity|].
  rewrite append_cons. cbn [String.length Py.take]. now rewrite IH.
Qed.

Lemma drop_append (a b : string) : Py.drop (String.length a) (a +:+ b) = b.
Proof.
  induction a as [|c a IH]; [destruct b; reflexivity|].
  rewrite append_cons. cbn [String.length Py.drop]. exact IH.
Qed.

Lemma dashes_to_underscores_append (s t : string) :
  dashes_to_underscores (s +:+ t) = dashes_to_underscores s +:+ dashes_to_underscores t.
Proof.
  unfold dashes_to_underscores, Py.replace.
  induction s as [|c s IH]; [reflexivity|].
  rewrite append_cons. cbn [Py.replace_from Py.starts_with String.length Nat.sub].
  destruct (Ascii.eqb "-" c && true).
  - rewrite IH, !append_cons, !append_nil. reflexivity.
  - rewrite IH, append_cons. reflexivity.
Qed.

Lemma dashes_to_underscores_id (s : string) :
  Py.contains "-" s = false -> dashes_to_underscores s = s.
Proof.
  unfold dashes_to_underscores, Py.replace.
  induction s as [|c s IH]; [reflexivity|].
  cbn [Py.contains]. intros H. apply orb_false_iff in H as [Hc Hs].
  cbn [Py.replace_from]. rewrite Hc. f_equal. auto.
Qed.

Section PatientFolder.

Variables a b : string.
Hypothesis length_a : String.length a = 4.
Hypothesis length_b : String.length b = 3.
Hypothesis plain_a : Py.contains "-" a = false.
Hypothesis plain_b : Py.contains "-" b = false.

(** The part [a-b] of a folder name becomes [a_b]. *)
Lemma normalise_dashed (rest : string) :
  dashes_to_underscores (a +:+ "-" +:+ b +:+ rest)
  = (a +:+ "_" +:+ b) +:+ dashes_to_underscores rest.
Proof.
  rewrite !dashes_to_underscores_append.
  rewrite (dashes_to_underscores_id a plain_a), (dashes_to_underscores_id b plain_b).
  change (dashes_to_underscores "-") with "_".
  rewrite !append_assoc. reflexivity.
Qed.

Lemma length_dashed : String.length (a +:+ "-" +:+ b) = 8.
Proof. rewrite !length_append, length_a, length_b. reflexivity. Qed.

Lemma length_underscored : String.length (a +:+ "_" +:+ b) = 8.
Proof. rewrite !length_append, length_a, length_b. reflexivity. Qed.

Lemma take_8_dashed (rest : string) :
  Py.take 8 (a +:+ "-" +:+ b +:+ rest) = a +:+ "-" +:+ b.
Proof.
  replace (a +:+ "-" +:+ b +:+ rest) with ((a +:+ "-" +:+ b) +:+ rest)
    by (rewrite !append_assoc; reflexivity).
  rewrite <- length_dashed at 1. apply take_append.
Qed.

Lemma take_8_underscored (rest : string) :
  Py.take 8 ((a +:+ "_" +:+ b) +:+ rest) = a +:+ "_" +:+ b.
Proof. rewrite <- length_underscored at 1. apply take_append. Qed.

Lemma normalised_dashed : dashes_to_underscores (a +:+ "-" +:+ b) = a +:+ "_" +:+ b.
Proof.
  rewrite !dashes_to_underscores_append.
  rewrite (dashes_to_underscores_id a plain_a), (dashes_to_underscores_id b plain_b).
  reflexivity.
Qed.

End PatientFolder.

(** X5.  Every site derives the identifier [a_b] from the folder of the
    patient [a-b] (four characters, three characters, no dash): after the
    prefix 'iBE-' for Bordeaux, Exeter, Turku GE, Leeds and Bari, whatever
    follows the number for the first three; from the first eight characters
    for Turku Philips; from the undashed number for Bari; from the number
    after a three-character prefix for Sheffield, where 2178_157 is read as
    7128_157. *)
Theorem patient_identifiers_are_normalised (a b rest : string) :
  String.length a = 4 -> String.length b = 3 ->
  Py.contains "-" a = false -> Py.contains "-" b = false ->
  bordeaux_ibeat_patient_id ("iBE-" +:+ a +:+ "-" +:+ b +:+ rest) = a +:+ "_" +:+ b /\
  exeter_ibeat_patient_id ("iBE-" +:+ a +:+ "-" +:+ b +:+ rest) = a +:+ "_" +:+ b /\
  fst (turku_ge_ibeat_patient_id ("iBE-" +:+ a +:+ "-" +:+ b +:+ rest)) = a +:+ "_" +:+ b /\
  fst (turku_philips_ibeat_patient_id (a +:+ "-" +:+ b +:+ rest)) = a +:+ "_" +:+ b /\
  leeds_ibeat_patient_id ("iBE-" +:+ a +:+ "-" +:+ b) = a +:+ "_" +:+ b /\
  bari_ibeat_patient_id ("iBE-" +:+ a +:+ "-" +:+ b) = a +:+ "_" +:+ b /\
  (Py.take 3 a <> "iBE" -> bari_ibeat_patient_id (a +:+ b) = a +:+ "_" +:+ b) /\
  (forall p, String.length p = 3 ->
     sheffield_ibeat_patient_id (p +:+ a +:+ b)
     = if String.eqb (a +:+ "_" +:+ b) "2178_157" then "7128_157" else a +:+ "_" +:+ b).
Proof.
  intros Ha Hb Hpa Hpb.
  assert (Hdrop : forall s, Py.drop 4 ("iBE-" +:+ s) = s) by (intros s; reflexivity).
  assert (Htake : forall s, Py.take 3 ("iBE-" +:+ s) = "iBE") by (intros s; reflexivity).
  repeat split.
  - unfold bordeaux_ibeat_patient_id, Py.slice. rewrite Hdrop.
    change (12 - 4) with 8. rewrite (take_8_dashed a b Ha Hb).
    apply normalised_dashed; assumption.
  - unfold exeter_ibeat_patient_id, Py.slice.
    replace (String.eqb ("iBE-" +:+ a +:+ "-" +:+ b +:+ rest) "3128-542") with false
      by reflexivity.
    rewrite Hdrop. change (12 - 4) with 8. rewrite (take_8_dashed a b Ha Hb).
    apply normalised_dashed; assumption.
  - unfold turku_ge_ibeat_patient_id. rewrite Hdrop.
    rewrite (normalise_dashed a b Hpa Hpb).
    destruct (Py.contains "_followup" _); cbn [fst];
      apply (take_8_underscored a b Ha Hb).
  - unfold turku_philips_ibeat_patient_id. rewrite (take_8_dashed a b Ha Hb).
    rewrite (normalised_dashed a b Hpa Hpb).
    assert (H8 : Py.take 8 (a +:+ "_" +:+ b) = a +:+ "_" +:+ b).
    { pose proof (take_8_underscored a b Ha Hb "") as H.
      replace ((a +:+ "_" +:+ b) +:+ "") with (a +:+ "_" +:+ b) in H; [exact H|].
      clear. induction (a +:+ "_" +:+ b) as [|c s IH]; [reflexivity|].
      rewrite append_cons. now f_equal. }
    destruct (Py.contains "_followup" _); cbn [fst]; exact H8.
  - unfold leeds_ibeat_patient_id. rewrite Htake, Hdrop. cbn [String.eqb Ascii.eqb].
    change (String.eqb "iBE" "iBE") with true. cbv iota.
    apply normalised_dashed; assumption.
  - unfold bari_ibeat_patient_id. rewrite Htake, Hdrop.
    change (String.eqb "iBE" "iBE") with true. cbv iota.
    apply normalised_dashed; assumption.
  - intros Hne. unfold bari_ibeat_patient_id.
    assert (Ht3 : Py.take 3 (a +:+ b) = Py.take 3 a).
    { do 4 (destruct a as [|? a]; [discriminate Ha|]). reflexivity. }
    rewrite Ht3. destruct (String.eqb (Py.take 3 a) "iBE") eqn:E;
      [apply String.eqb_eq in E; contradiction|].
    rewrite <- Ha. now rewrite take_append, drop_append.
  - intros p Hp. unfold sheffield_ibeat_patient_id.
    assert (H3 : Py.drop 3 (p +:+ a +:+ b) = a +:+ b)
      by (rewrite <- Hp; apply drop_append).
    assert (H4 : Py.take 4 (a +:+ b) = a) by (rewrite <- Ha; apply take_append).
    assert (H5 : Py.drop 4 (a +:+ b) = b) by (rewrite <- Ha; apply drop_append).
    cbv zeta. rewrite H3, H4, H5. reflexivity.
Qed.

Lemma patient_identifiers_are_normalised_witness :
  bordeaux_ibeat_patient_id "iBE-2128-001_baseline" = "2128_001" /\
  exeter_ibeat_patient_id "iBE-2128-001_baseline" = "2128_001".
Proof.
  pose proof (patient_identifiers_are_normalised "2128" "001" "_baseline"
                eq_refl eq_refl eq_refl eq_refl) as H.
  exact (conj (proj1 H) (proj1 (proj2 H))).
Defined.

(** ** Sorting the archives of a patient *)

Lemma insert_by_key_perm {A} (k : Z) (a : A) (l : list (Z * A)) :
  insert_by_key k a l ≡ₚ (k, a) :: l.
Proof.
  induction l as [|[k' a'] l IH]; cbn [insert_by_key]; [reflexivity|].
  destruct (k <=? k')%Z; [reflexivity|].
  rewrite IH. apply Permutation_swap.
Qed.

Lemma insertion_sort_perm {A} (kl : list (Z * A)) : insertion_sort kl ≡ₚ kl.
Proof.
  induction kl as [|[k a] kl IH]; [reflexivity|].
  cbn [insertion_sort fold_right fst snd]. fold (insertion_sort kl).
  rewrite insert_by_key_perm. now rewrite IH.
Qed.

Lemma insert_by_key_sorted {A} (k : Z) (a : A) (l : list (Z * A)) :
  nondecreasing (map fst l) -> nondecreasing (map fst (insert_by_key k a l)).
Proof.
  induction l as [|[k' a'] l IH]; cbn [insert_by_key map fst nondecreasing].
  - intros _. split; [constructor | exact I].
  - intros [Hall Hs]. destruct (k <=? k')%Z eqn:E.
    + cbn [map fst nondecreasing]. apply Z.leb_le in E.
      split; [|split; assumption].
      constructor; [exact E|]. eapply Forall_impl; [exact Hall|].
      intros x Hx. cbn in Hx. lia.
    + cbn [map fst nondecreasing]. apply Z.leb_gt in E. split; [|auto].
      assert (Hp : map fst (insert_by_key k a l) ≡ₚ k :: map fst l).
      { rewrite insert_by_key_perm. reflexivity. }
      rewrite Hp. constructor; [lia | exact Hall].
Qed.

Lemma insertion_sort_sorted {A} (kl : list (Z * A)) :
  nondecreasing (map fst (insertion_sort kl)).
Proof.
  induction kl as [|[k a] kl IH]; [exact I|].
  cbn [insertion_sort fold_right fst snd]. fold (insertion_sort kl).
  now apply insert_by_key_sorted.
Qed.

(** The insertion passes only smaller keys, so equal keys keep the order
    of the input. *)
Lemma insert_by_key_filter {A} (k k0 : Z) (a : A) (l : list (Z * A)) :
  List.filter (fun x => (fst x =? k)%Z) (insert_by_key k0 a l)
  = if (k0 =? k)%Z then (k0, a) :: List.filter (fun x => (fst x =? k)%Z) l
    else List.filter (fun x => (fst x =? k)%Z) l.
Proof.
  induction l as [|[k' a'] l IH]; cbn [insert_by_key List.filter fst].
  - destruct (k0 =? k)%Z; reflexivity.
  - destruct (k0 <=? k')%Z eqn:E; cbn [List.filter fst].
    + destruct (k0 =? k)%Z; reflexivity.
    + rewrite IH. apply Z.leb_gt in E.
      destruct (k0 =? k)%Z eqn:E0; [|reflexivity].
      apply Z.eqb_eq in E0. subst k0.
      destruct (k' =? k)%Z eqn:E1; [apply Z.eqb_eq in E1; lia | reflexivity].
Qed.

Lemma insertion_sort_filter {A} (k : Z) (kl : list (Z * A)) :
  List.filter (fun x => (fst x =? k)%Z) (insertion_sort kl)
  = List.filter (fun x => (fst x =? k)%Z) kl.
Proof.
  induction kl as [|[k0 a] kl IH]; [reflexivity|].
  cbn [insertion_sort fold_right fst snd]. fold (insertion_sort kl).
  rewrite insert_by_key_filter, IH. cbn [List.filter fst]. reflexivity.
Qed.

(** The keys are computed in the order of the list; the pairs hold each
    element with its key. *)
Lemma keyed_ok {A} (key : A -> result Z) (l : list A) (kl : list (Z * A)) :
  keyed key l = Ok kl ->
  map snd kl = l /\ Forall (fun ka => key (snd ka) = Ok (fst ka)) kl.
Proof.
  revert kl. induction l as [|a l IH]; cbn [keyed]; intros kl H.
  - inversion H. split; [reflexivity | constructor].
  - destruct (key a) as [k|] eqn:Hk; [|discriminate]. cbn [rbind] in H.
    destruct (keyed key l) as [kl'|]; [|discriminate]. cbn [rbind] in H.
    inversion H; subst kl. destruct (IH kl' eq_refl) as [Hm Hf].
    split; [cbn; now rewrite Hm | constructor; [exact Hk | exact Hf]].
Qed.

Lemma keyed_returns {A} (key : A -> result Z) (l : list A) :
  Forall (fun a => exists k, key a = Ok k) l -> exists kl, keyed key l = Ok kl.
Proof.
  induction 1 as [|a l [k Hk] _ [kl IH]]; cbn [keyed]; [eauto|].
  rewrite Hk, IH. cbn [rbind]. eauto.
Qed.

(** The first key that cannot be computed ends the sort. *)
Lemma keyed_raises {A} (key : A -> result Z) (pre post : list A) (a : A) (e : exn) :
  Forall (fun a => exists k, key a = Ok k) pre -> key a = Raise e ->
  keyed key (pre ++ a :: post) = Raise e.
Proof.
  induction 1 as [|b pre [k Hk] _ IH]; intros Ha; cbn [app keyed].
  - rewrite Ha. reflexivity.
  - rewrite Hk. cbn [rbind]. rewrite (IH Ha). reflexivity.
Qed.

Lemma filter_map_snd {A} (key : A -> result Z) (k : Z) (kl : list (Z * A)) :
  Forall (fun ka => key (snd ka) = Ok (fst ka)) kl ->
  with_key key k (map snd kl) = map snd (List.filter (fun x => (fst x =? k)%Z) kl).
Proof.
  unfold with_key. induction 1 as [|[k' a] kl Hk _ IH]; [reflexivity|].
  cbn [map List.filter fst snd] in *. rewrite Hk.
  destruct (k' =? k)%Z; cbn [map snd]; now rewrite IH.
Qed.

(** X6.  [sorted(l, key=...)] as the drivers use it: when every key can be
    computed the result is a permutation of the input, its keys are in
    nondecreasing order, and elements with equal keys keep the order of the
    input; the first key that cannot be computed raises, and nothing is
    returned. *)
Theorem sorted_by_is_a_stable_sort {A : Type} (key : A -> result Z) (l : list A) :
  (Forall (fun a => exists k, key a = Ok k) l ->
   exists out keys,
     sorted_by key l = Ok out /\
     out ≡ₚ l /\
     Forall2 (fun a k => key a = Ok k) out keys /\
     nondecreasing keys /\
     forall k, with_key key k out = with_key key k l) /\
  (forall pre a post e,
     l = pre ++ a :: post ->
     Forall (fun a => exists k, key a = Ok k) pre ->
     key a = Raise e ->
     sorted_by key l = Raise e).
Proof.
  split.
  - intros Hall. destruct (keyed_returns key l Hall) as [kl Hkl].
    destruct (keyed_ok key l kl Hkl) as [Hsnd Hkeys].
    assert (Hsorted : Forall (fun ka => key (snd ka) = Ok (fst ka)) (insertion_sort kl)).
    { rewrite insertion_sort_perm. exact Hkeys. }
    exists (map snd (insertion_sort kl)), (map fst (insertion_sort kl)).
    split; [|split; [|split; [|split]]].
    + unfold sorted_by. rewrite Hkl. reflexivity.
    + rewrite insertion_sort_perm. now rewrite Hsnd.
    + apply Forall2_fmap. apply Forall_Forall2_diag.
      eapply Forall_impl; [exact Hsorted|]. auto.
    + apply insertion_sort_sorted.
    + intros k. rewrite <- Hsnd.
      rewrite !(filter_map_snd key k) by assumption.
      now rewrite insertion_sort_filter.
  - intros pre a post e -> Hpre Ha. unfold sorted_by.
    rewrite (keyed_raises key pre post a e Hpre Ha). reflexivity.
Qed.

Lemma unordered_names_have_numbers :
  Forall (fun a => exists k, name_number a = Ok k) unordered_names.
Proof.
  unfold unordered_names.
  repeat (apply Forall_cons; split; [eexists; reflexivity|]). apply Forall_nil_2.
Defined.

Lemma sorted_by_is_a_stable_sort_witness :
  exists out keys,
    sorted_by name_number unordered_names = Ok out /\
    out ≡ₚ unordered_names /\
    Forall2 (fun a k => name_number a = Ok k) out keys /\
    nondecreasing keys /\
    forall k, with_key name_number k out = with_key name_number k unordered_names.
Proof.
  exact (proj1 (sorted_by_is_a_stable_sort name_number unordered_names)
           unordered_names_have_numbers).
Defined.

Example sorted_unordered_names :
  sorted_by name_number unordered_names
  = Ok ["series_3.zip"; "series_501.zip"; "series_0501.zip"; "series_1201.zip"].
Proof. reflexivity. Qed.

(** ** Failures inside the drivers *)

(** The state after some writes and some log entries. *)
Lemma write_phases_cases (pat_id name : string) (out_phase_clean in_phase_clean : address)
    (dixon_split : list (Qc * subseries)) (out_phase in_phase : nat) (s : state) :
  (exists o i vo vi,
     index dixon_split out_phase = Ok o /\ sub_volume (snd o) = Ok vo /\
     index dixon_split in_phase = Ok i /\ sub_volume (snd i) = Ok vi /\
     write_phases pat_id name out_phase_clean in_phase_clean dixon_split out_phase in_phase s
     = (Ok tt,
        {| store := store s ++
             [ {| w_address := out_phase_clean; w_volume := vo; w_ref := sub_ref (snd o) |};
               {| w_address := in_phase_clean; w_volume := vi; w_ref := sub_ref (snd i) |} ];
           log := log s; pat_series := pat_series s;
           tmp_series_folder := tmp_series_folder s; vol := vol s |})) \/
  (exists e,
     write_phases pat_id name out_phase_clean in_phase_clean dixon_split out_phase in_phase s
     = (Ok tt,
        {| store := store s;
           log := log s ++ [("Patient " +:+ pat_id +:+ " - " +:+ name, Some e)];
           pat_series := pat_series s;
           tmp_series_folder := tmp_series_folder s; vol := vol s |})).
Proof.
  destruct (index dixon_split out_phase) as [o|e1] eqn:Ho.
  2: { right. exists e1. unfold write_phases, try_except_else, lift. rewrite Ho. reflexivity. }
  destruct (sub_volume (snd o)) as [vo|e2] eqn:Hvo.
  2: { right. exists e2. unfold write_phases, try_except_else, lift.
       rewrite Ho. cbn [rbind]. rewrite Hvo. reflexivity. }
  destruct (index dixon_split in_phase) as [i|e3] eqn:Hi.
  2: { right. exists e3. unfold write_phases, try_except_else, lift.
       rewrite Ho. cbn [rbind]. rewrite Hvo. cbn [rbind]. rewrite Hi. reflexivity. }
  destruct (sub_volume (snd i)) as [vi|e4] eqn:Hvi.
  2: { right. exists e4. unfold write_phases, try_except_else, lift.
       rewrite Ho. cbn [rbind]. rewrite Hvo. cbn [rbind]. rewrite Hi. cbn [rbind].
       rewrite Hvi. reflexivity. }
  left. exists o, i, vo, vi. repeat (split; [first [assumption | reflexivity]|]).
  now apply write_phases_ok.
Qed.


Lemma zip_series_number_raises (z : zip_file) (e : exn) :
  zip_series_number z = Raise e -> e = ValueError.
Proof.
  unfold zip_series_number, py_int.
  destruct (Py.int _); intros H; [discriminate|]. now inversion H.
Qed.

Lemma keyed_zip_series_number_raises (l : list zip_file) (z : zip_file) :
  In z l -> zip_series_number z = Raise ValueError ->
  keyed zip_series_number l = Raise ValueError.
Proof.
  intros Hin Hz. induction l as [|a l IH]; [destruct Hin|].
  cbn [keyed]. destruct (zip_series_number a) as [k|e] eqn:Ha.
  - destruct Hin as [->|Hin]; [congruence|].
    cbn [rbind]. rewrite (IH Hin). reflexivity.
  - cbn [rbind]. now rewrite (zip_series_number_raises a e Ha).
Qed.

Lemma sorted_by_zip_series_number_raises (l : list zip_file) (z : zip_file) :
  In z l -> zip_series_number z = Raise ValueError ->
  sorted_by zip_series_number l = Raise ValueError.
Proof.
  intros Hin Hz. unfold sorted_by.
  now rewrite (keyed_zip_series_number_raises l z Hin Hz).
Qed.

(** X7.  A file of a patient folder whose name has no integer between its
    eighth character and its extension stops the whole run (lines 560-563
    and 881-882): the sort key [int(x[7:-4])] raises [ValueError] outside
    every [try], so for Bari (unless the name holds "OT") and for Turku's
    Philips scanner the driver raises at that patient, before anything is
    extracted, written or logged, and no later patient is processed. *)
Theorem unnumbered_file_aborts_the_run (pat : patient_dir) (rest : list patient_dir)
    (z : zip_file) (s : state) :
  In z (dir_files pat) ->
  Py.int (Py.slice 7 (String.length (zip_filename z) - 4) (zip_filename z)) = None ->
  (Py.mem (bari_ibeat_patient_id (dir_name pat)) EXCLUDE = false ->
   Py.contains "OT" (zip_filename z) = false ->
   bari (pat :: rest) s = (Raise ValueError, s)) /\
  (Py.mem (fst (turku_philips_ibeat_patient_id (dir_name pat))) EXCLUDE = false ->
   turku_philips (pat :: rest) s = (Raise ValueError, s)).
Proof.
  intros Hin Hint.
  assert (Hz : zip_series_number z = Raise ValueError).
  { unfold zip_series_number, py_int. now rewrite Hint. }
  split.
  - intros Hex HOT. unfold bari. cbn [for_each]. unfold bind at 1.
    unfold bari_patient. rewrite Hex. unfold bind at 1, lift.
    rewrite (sorted_by_zip_series_number_raises _ z); [reflexivity| |exact Hz].
    apply filter_In. split; [exact Hin|]. now rewrite HOT.
  - intros Hex. unfold turku_philips. cbn [for_each]. unfold bind at 1.
    unfold turku_philips_patient. rewrite Hex. unfold bind at 1, lift.
    now rewrite (sorted_by_zip_series_number_raises _ z Hin Hz).
Qed.

Lemma unnumbered_file_aborts_the_run_witness :
  bari [folder_with_stray_file] (initial []) = (Raise ValueError, initial []) /\
  turku_philips [folder_with_stray_file] (initial []) = (Raise ValueError, initial []).
Proof.
  destruct (unnumbered_file_aborts_the_run folder_with_stray_file []
              {| zip_filename := "readme.txt"; zip_extractall := Raise BadZipFile |}
              (initial [])) as [Hb Ht].
  - right. left. reflexivity.
  - reflexivity.
  - split; [apply Hb; reflexivity | apply Ht; reflexivity].
Defined.

(** ** Running a driver again *)

Section Blind.

Context {A B : Type} (l b : bool) (P : write -> Prop).

Lemma blind_still (m : ST state A) (r : result A) :
  (forall s, m s = (r, s)) -> blind2 l b P m m.
Proof.
  intros H s t Hst. rewrite !H. cbn [fst snd].
  split; [reflexivity|]. split; [exact Hst|].
  exists []. rewrite !app_nil_r. auto.
Qed.

Lemma blind_ret (a : A) : blind2 l b P (ret a) (ret a).
Proof. apply (blind_still _ (Ok a)). reflexivity. Qed.

Lemma blind_lift (r : result A) : blind2 l b P (lift r) (lift r).
Proof. apply (blind_still _ r). reflexivity. Qed.

Lemma blind_bind (m1 m2 : ST state A) (k1 k2 : A -> ST state B) :
  blind2 l b P m1 m2 -> (forall a, blind2 l b P (k1 a) (k2 a)) ->
  blind2 l b P (bind m1 k1) (bind m2 k2).
Proof.
  intros Hm Hk s t Hst. destruct (Hm s t Hst) as (Hr & Ha & new & Hs & Ht & HP).
  unfold bind. destruct (m1 s) as [r1 s1], (m2 t) as [r2 t1].
  cbn [fst snd] in *. subst r2. destruct r1 as [a|e].
  - destruct (Hk a s1 t1 Ha) as (Hr' & Ha' & new' & Hs' & Ht' & HP').
    split; [exact Hr'|]. split; [exact Ha'|].
    exists (new ++ new'). rewrite Hs', Ht', Hs, Ht, <- !app_assoc.
    split; [reflexivity|]. split; [reflexivity|]. now apply Forall_app.
  - cbn [fst snd]. split; [reflexivity|]. split; [exact Ha|].
    exists new. auto.
Qed.

Lemma blind_try (m1 m2 : ST state A) (h1 h2 : exn -> ST state B)
    (k1 k2 : A -> ST state B) :
  blind2 l b P m1 m2 -> (forall e, blind2 l b P (h1 e) (h2 e)) ->
  (forall a, blind2 l b P (k1 a) (k2 a)) ->
  blind2 l b P (try_except_else m1 h1 k1) (try_except_else m2 h2 k2).
Proof.
  intros Hm Hh Hk s t Hst. destruct (Hm s t Hst) as (Hr & Ha & new & Hs & Ht & HP).
  unfold try_except_else. destruct (m1 s) as [r1 s1], (m2 t) as [r2 t1].
  cbn [fst snd] in *. subst r2. destruct r1 as [a|e].
  - destruct (Hk a s1 t1 Ha) as (Hr' & Ha' & new' & Hs' & Ht' & HP').
    split; [exact Hr'|]. split; [exact Ha'|].
    exists (new ++ new'). rewrite Hs', Ht', Hs, Ht, <- !app_assoc.
    split; [reflexivity|]. split; [reflexivity|]. now apply Forall_app.
  - destruct (Hh e s1 t1 Ha) as (Hr' & Ha' & new' & Hs' & Ht' & HP').
    split; [exact Hr'|]. split; [exact Ha'|].
    exists (new ++ new'). rewrite Hs', Ht', Hs, Ht, <- !app_assoc.
    split; [reflexivity|]. split; [reflexivity|]. now apply Forall_app.
Qed.

Lemma blind_get_bind (k1 k2 : state -> ST state B) :
  (forall s t, agree l b s t -> blind2 l b P (k1 s) (k2 t)) ->
  blind2 l b P (bind get k1) (bind get k2).
Proof. intros H s t Hst. exact (H s t Hst s t Hst). Qed.

Lemma blind_lift_bind (r : result A) (k1 k2 : A -> ST state B) :
  (forall a, r = Ok a -> blind2 l b P (k1 a) (k2 a)) ->
  blind2 l b P (bind (lift r) k1) (bind (lift r) k2).
Proof.
  intros H. destruct r as [a|e].
  - exact (H a eq_refl).
  - intros s t Hst. cbn. split; [reflexivity|]. split; [exact Hst|].
    exists []. rewrite !app_nil_r. auto.
Qed.

Lemma blind_try_lift (r : result A) (h1 h2 : exn -> ST state B)
    (k1 k2 : A -> ST state B) :
  (forall e, r = Raise e -> blind2 l b P (h1 e) (h2 e)) ->
  (forall a, r = Ok a -> blind2 l b P (k1 a) (k2 a)) ->
  blind2 l b P (try_except_else (lift r) h1 k1) (try_except_else (lift r) h2 k2).
Proof.
  intros Hh Hk. destruct r as [a|e].
  - exact (Hk a eq_refl).
  - exact (Hh e eq_refl).
Qed.

End Blind.

Lemma blind_modify (l b : bool) (P : write -> Prop) (f : state -> state) :
  (forall s, store (f s) = store s) ->
  (forall s t, agree l b s t -> agree l b (f s) (f t)) ->
  blind2 l b P (modify f) (modify f).
Proof.
  intros Hstore Hf s t Hst. unfold modify. cbn [fst snd].
  split; [reflexivity|]. split; [now apply Hf|].
  exists []. rewrite !app_nil_r, !Hstore. auto.
Qed.

Lemma blind_logging_error (l b : bool) (P : write -> Prop) (msg : string) (e : option exn) :
  blind2 l b P (logging_error msg e) (logging_error msg e).
Proof.
  apply blind_modify; [reflexivity|]. intros s t Hst. exact Hst.
Qed.

Lemma blind_db_write_volume (l b : bool) (P : write -> Prop)
    (v : volume) (a : address) (r : string) :
  P {| w_address := a; w_volume := v; w_ref := r |} ->
  blind2 l b P (db_write_volume v a r) (db_write_volume v a r).
Proof.
  intros H s t Hst. unfold db_write_volume, modify. cbn [fst snd store].
  split; [reflexivity|]. split; [exact Hst|].
  eexists. split; [reflexivity|]. split; [reflexivity|].
  constructor; [exact H | constructor].
Qed.

Lemma blind_on_pat_series {A} (b : bool) (P : write -> Prop) (m : ST (list string) A) :
  blind2 true b P (on_pat_series m) (on_pat_series m).
Proof.
  intros s t [Hl Hb]. unfold on_pat_series. rewrite (Hl eq_refl).
  destruct (m (pat_series t)) as [r l']. cbn [fst snd].
  split; [reflexivity|]. split; [split; [reflexivity | exact Hb]|].
  exists []. rewrite !app_nil_r. auto.
Qed.

Lemma blind_last_name (b : bool) (P : write -> Prop) :
  blind2 true b P last_name last_name.
Proof.
  intros s t [Hl Hb]. unfold last_name. rewrite (Hl eq_refl).
  destruct (last (pat_series t)); cbn [fst snd];
    (split; [reflexivity|]; split; [split; assumption|]);
    exists []; rewrite !app_nil_r; auto.
Qed.

Lemma blind_for_each {A} (l b : bool) (P : write -> Prop)
    (xs : list A) (body : A -> ST state unit) :
  (forall x, x ∈ xs -> blind2 l b P (body x) (body x)) ->
  blind2 l b P (for_each xs body) (for_each xs body).
Proof.
  induction xs as [|x xs IH]; intros H; cbn [for_each].
  - apply blind_ret.
  - apply blind_bind.
    + apply H. now left.
    + intros _. apply IH. intros y Hy. apply H. now right.
Qed.

Lemma blind_weaken {A} (l b : bool) (P P' : write -> Prop) (m1 m2 : ST state A) :
  (forall w, P w -> P' w) -> blind2 l b P m1 m2 -> blind2 l b P' m1 m2.
Proof.
  intros HP H s t Hst. destruct (H s t Hst) as (Hr & Ha & new & Hs & Ht & HF).
  split; [exact Hr|]. split; [exact Ha|]. exists new.
  split; [exact Hs|]. split; [exact Ht|]. eapply Forall_impl; eassumption.
Qed.

(** [pat_series = []] at the head of the loop over the series of a
    patient: what follows does not depend on the list left by the patient
    before. *)
Lemma blind_after_reset_ledger (P : write -> Prop) (m : ST state unit) :
  blind2 true false P m m ->
  blind2 false false P (bind (modify (set_pat_series [])) (fun _ => m))
                       (bind (modify (set_pat_series [])) (fun _ => m)).
Proof.
  intros H s t _. unfold bind, modify.
  destruct (H (set_pat_series [] s) (set_pat_series [] t))
    as (Hr & _ & new & Hs & Ht & HP).
  { split; [reflexivity | discriminate]. }
  split; [exact Hr|]. split; [split; discriminate|].
  exists new. auto.
Qed.

(** The same with [tmp_series_folder = {}]. *)
Lemma blind_after_reset_buffer (P : write -> Prop) (m : ST state unit) :
  blind2 true true P m m ->
  blind2 false false P
    (bind (modify (set_pat_series []))
       (fun _ => bind (modify (set_tmp_series_folder ∅)) (fun _ => m)))
    (bind (modify (set_pat_series []))
       (fun _ => bind (modify (set_tmp_series_folder ∅)) (fun _ => m))).
Proof.
  intros H s t _. unfold bind, modify.
  destruct (H (set_tmp_series_folder ∅ (set_pat_series [] s))
              (set_tmp_series_folder ∅ (set_pat_series [] t)))
    as (Hr & _ & new & Hs & Ht & HP).
  { split; reflexivity. }
  split; [exact Hr|]. split; [split; discriminate|].
  exists new. auto.
Qed.

(** *** The tests on the store *)

Lemma stored_app (st new : list write) : stored (st ++ new) = stored st ++ stored new.
Proof. unfold stored. apply map_app. Qed.

Lemma series_exists_mono (a : address) (st new : list write) :
  series_exists a st = true -> series_exists a (st ++ new) = true.
Proof.
  unfold series_exists. rewrite !bool_decide_eq_true, stored_app, elem_of_app. auto.
Qed.

Lemma study_exists_mono (a : address) (st new : list write) :
  study_exists a st = true -> study_exists a (st ++ new) = true.
Proof.
  unfold study_exists.
  rewrite !bool_decide_eq_true, stored_app, map_app, elem_of_app. auto.
Qed.

Lemma patient_exists_mono (site pat_id : string) (st new : list write) :
  patient_exists site pat_id st = true -> patient_exists site pat_id (st ++ new) = true.
Proof.
  unfold patient_exists.
  rewrite !bool_decide_eq_true, stored_app, map_app, elem_of_app. auto.
Qed.

Lemma study_exists_cover (a : address) (st new : list write) (w : write) :
  under a w -> length a = 3 -> study_exists a (st ++ w :: new) = true.
Proof.
  intros Hw Hlen. unfold study_exists, under in *. rewrite Hlen in Hw.
  rewrite bool_decide_eq_true, stored_app, map_app, elem_of_app. right.
  cbn [stored map]. rewrite <- Hw. now left.
Qed.

Lemma patient_exists_cover (site pat_id : string) (st new : list write) (w : write) :
  under [CStr site; CStr pat_id] w -> patient_exists site pat_id (st ++ w :: new) = true.
Proof.
  intros Hw. unfold patient_exists, under in *. cbn [length] in Hw.
  rewrite bool_decide_eq_true, stored_app, map_app, elem_of_app. right.
  cbn [stored map]. rewrite <- Hw. now left.
Qed.

Lemma under_snoc (study : address) (c : component) (v : volume) (r : string) :
  under study {| w_address := study ++ [c]; w_volume := v; w_ref := r |}.
Proof.
  unfold under, norm. cbn [w_address]. rewrite map_app.
  apply take_app_length'. now rewrite length_map.
Qed.

Lemma under_take (n : nat) (study : address) (w : write) :
  under study w -> under (take n study) w.
Proof.
  unfold under, norm. intros H. rewrite length_take, <- firstn_map, <- H.
  rewrite take_take. reflexivity.
Qed.

(** *** A run after a run *)

Section Rerun.

Context {A : Type} (m : A -> ST state unit).
Context (check : A -> list write -> bool) (P : A -> write -> Prop).

Hypothesis Hguard : forall p, guarded (check p) (P p) (m p).
Hypothesis Hmono :
  forall p st new, check p st = true -> check p (st ++ new) = true.
Hypothesis Hcover :
  forall p st w new, P p w -> check p (st ++ w :: new) = true.

Lemma guarded_step (p : A) (s : state) :
  exists new, store (snd (m p s)) = store s ++ new.
Proof.
  destruct (Hguard p) as (Q & HQ & HB). rewrite HQ.
  destruct (check p (store s)).
  - exists []. now rewrite app_nil_r.
  - destruct (HB s s) as (_ & _ & new & Hs & _).
    { split; discriminate. }
    exists new. exact Hs.
Qed.

Lemma guarded_run (ps : list A) (s : state) :
  exists new, store (snd (for_each ps m s)) = store s ++ new.
Proof.
  revert s. induction ps as [|p ps IH]; intros s; cbn [for_each].
  - exists []. now rewrite app_nil_r.
  - unfold bind. destruct (guarded_step p s) as (n1 & H1).
    destruct (m p s) as [[[]|e] s1]; cbn [snd] in *.
    + destruct (IH s1) as (n2 & H2). exists (n1 ++ n2).
      now rewrite H2, H1, app_assoc.
    + exists n1. exact H1.
Qed.

Lemma second_run (ps : list A) (s s' t : state) (more : list write) :
  for_each ps m s = (Ok tt, s') -> store t = store s' ++ more ->
  fst (for_each ps m t) = Ok tt /\ store (snd (for_each ps m t)) = store t.
Proof.
  revert s t. induction ps as [|p ps IH]; intros s t Hrun Ht; cbn [for_each] in *.
  - split; reflexivity.
  - unfold bind in Hrun |- *.
    destruct (m p s) as [[[]|e] s1] eqn:E1; [|discriminate].
    destruct (guarded_run ps s1) as (new2 & Hn2). rewrite Hrun in Hn2. cbn [snd] in Hn2.
    destruct (Hguard p) as (Q & HQ & HB). rewrite HQ in E1. rewrite HQ.
    destruct (check p (store t)) eqn:Ct.
    { exact (IH s1 t Hrun Ht). }
    destruct (check p (store s)) eqn:Cs.
    { inversion E1; subst s1. exfalso.
      rewrite Ht, Hn2, <- app_assoc in Ct. rewrite (Hmono _ _ _ Cs) in Ct. discriminate. }
    destruct (HB s t) as (Hr & _ & new & Hs & Hnew & HP).
    { split; discriminate. }
    rewrite E1 in Hr, Hs. cbn [fst snd] in Hr, Hs.
    destruct new as [|w new].
    2: { exfalso. apply Forall_cons in HP as [Hw _].
         rewrite Ht, Hn2, Hs, <- !app_assoc in Ct. cbn [app] in Ct.
         rewrite (Hcover p _ w _ Hw) in Ct. discriminate. }
    rewrite app_nil_r in Hnew.
    destruct (Q t) as [r2 t1]. cbn [fst snd] in Hr, Hnew. subst r2.
    destruct (IH s1 t1 Hrun) as [H1 H2].
    { now rewrite Hnew. }
    split; [exact H1|]. now rewrite H2.
Qed.

End Rerun.

(** ** The second run of the sites that buffer their series *)

Lemma blind_buffer_series (P : write -> Prop) (add : folder -> ST (list string) unit)
    (pat_id : string) (z : zip_file) :
  blind2 true true P (buffer_series add pat_id z) (buffer_series add pat_id z).
Proof.
  unfold buffer_series. cbv zeta.
  apply blind_try; [apply blind_lift | intros e; apply blind_logging_error |].
  intros extract_to.
  apply blind_try; [apply blind_on_pat_series | intros e; apply blind_logging_error |].
  intros _.
  apply blind_bind; [apply blind_last_name|]. intros name.
  apply blind_get_bind. intros s t [_ Hb]. rewrite (Hb eq_refl).
  apply blind_modify; [reflexivity|].
  intros s0 t0 [Hl0 _]. split; [exact Hl0 | reflexivity].
Qed.

Lemma blind_in_proper_order (l b : bool) (P : write -> Prop)
    (body : string -> nat -> string -> ST state unit) :
  (forall series counter image_type,
     blind2 l b P (body series counter image_type) (body series counter image_type)) ->
  blind2 l b P (in_proper_order body) (in_proper_order body).
Proof.
  intros H. unfold in_proper_order.
  apply blind_for_each. intros series _.
  apply blind_for_each. intros counter _.
  apply blind_for_each. intros image_type _.
  apply H.
Qed.

Lemma swapped_address_under (record : list (list string)) (study : address)
    (c : component) (series image_type : string) (out : address)
    (v : volume) (r : string) :
  length study = 3 ->
  swap_fat_water record (study ++ [c]) series image_type = Ok out ->
  under study {| w_address := out; w_volume := v; w_ref := r |}.
Proof.
  intros Hlen Hswap.
  apply swap_fat_water_last in Hswap as [-> | [-> | ->]].
  - apply under_snoc.
  - rewrite take_app_length' by (symmetry; exact Hlen). apply under_snoc.
  - rewrite take_app_length' by (symmetry; exact Hlen). apply under_snoc.
Qed.

Lemma blind_write_buffered (record : list (list string)) (pat_id : string)
    (study : address) (named : string -> component)
    (series : string) (counter : nat) (image_type : string) :
  length study = 3 ->
  blind2 true true (under study)
    (write_buffered record pat_id study named series counter image_type)
    (write_buffered record pat_id study named series counter image_type).
Proof.
  intros Hlen. unfold write_buffered. cbv zeta.
  apply blind_get_bind. intros s t [_ Hb]. rewrite (Hb eq_refl).
  destruct (tmp_series_folder t !! _) as [extract_to|]; [|apply blind_ret].
  apply blind_bind; [apply blind_lift|]. intros dixon.
  apply blind_lift_bind. intros dixon_clean Hswap.
  apply blind_try_lift.
  - intros e _. apply blind_logging_error.
  - intros dixon_vol _. apply blind_db_write_volume.
    eapply swapped_address_under; eassumption.
Qed.

(** Both loops of a patient, after the two resets. *)
Lemma blind_buffered_patient (record : list (list string)) (pat_id : string)
    (study : address) (named : string -> component)
    (add : folder -> ST (list string) unit) (zips : list zip_file) :
  length study = 3 ->
  blind2 false false (under study)
    (bind (modify (set_pat_series []))
       (fun _ => bind (modify (set_tmp_series_folder ∅))
          (fun _ => bind (for_each zips (buffer_series add pat_id))
             (fun _ => in_proper_order (write_buffered record pat_id study named)))))
    (bind (modify (set_pat_series []))
       (fun _ => bind (modify (set_tmp_series_folder ∅))
          (fun _ => bind (for_each zips (buffer_series add pat_id))
             (fun _ => in_proper_order (write_buffered record pat_id study named))))).
Proof.
  intros Hlen. apply blind_after_reset_buffer. apply blind_bind.
  - apply blind_for_each. intros z _. apply blind_buffer_series.
  - intros _. apply blind_in_proper_order. intros series counter image_type.
    now apply blind_write_buffered.
Qed.

Lemma sheffield_patient_guarded (record : list (list string)) (patient : patient_dir) :
  let pat_id := sheffield_ibeat_patient_id (dir_name patient) in
  guarded
    (fun st => Py.mem pat_id EXCLUDE || patient_exists sheffield_sitedatapath pat_id st)
    (under [CStr sheffield_sitedatapath; CStr pat_id])
    (sheffield_patient record patient).
Proof.
  cbv zeta. unfold guarded, sheffield_patient. cbv zeta.
  destruct (Py.mem _ EXCLUDE).
  { exists (ret tt). split; [intros s; reflexivity | apply blind_ret]. }
  cbn [orb]. eexists. split.
  - intros s. unfold bind at 1, get.
    destruct (patient_exists _ _ (store s)); reflexivity.
  - apply blind_bind; [apply blind_lift|]. intros experiment.
    apply blind_bind; [apply blind_lift|]. intros zips.
    eapply blind_weaken; [|apply blind_buffered_patient; reflexivity].
    intros w Hw. exact (under_take 2 _ w Hw).
Qed.

Lemma turku_ge_patient_guarded (record : list (list string)) (patient : patient_dir) :
  let id := turku_ge_ibeat_patient_id (dir_name patient) in
  let study := [CStr turku_sitedatapath; CStr (fst id); CTup (snd id) 0] in
  guarded
    (fun st => Py.mem (fst id) EXCLUDE || study_exists study st)
    (under study)
    (turku_ge_patient record patient).
Proof.
  cbv zeta. unfold guarded, turku_ge_patient. cbv zeta.
  destruct (turku_ge_ibeat_patient_id _) as [pat_id time_point]. cbn [fst snd].
  destruct (Py.mem _ EXCLUDE).
  { exists (ret tt). split; [intros s; reflexivity | apply blind_ret]. }
  cbn [orb]. eexists. split.
  - intros s. unfold bind at 1, get.
    destruct (study_exists _ (store s)); reflexivity.
  - apply blind_bind; [apply blind_lift|]. intros zips.
    apply blind_buffered_patient. reflexivity.
Qed.

Lemma bordeaux_patient_guarded (visit : string) (record : list (list string))
    (patient : patient_dir) :
  let pat_id := bordeaux_ibeat_patient_id (dir_name patient) in
  let study := [CStr bordeaux_sitedatapath; CStr pat_id; CTup visit 0] in
  guarded
    (fun st => Py.mem pat_id EXCLUDE || study_exists study st)
    (under study)
    (bordeaux_patient visit record patient).
Proof.
  cbv zeta. unfold guarded, bordeaux_patient. cbv zeta.
  destruct (Py.mem _ EXCLUDE).
  { exists (ret tt). split; [intros s; reflexivity | apply blind_ret]. }
  cbn [orb]. eexists. split.
  - intros s. unfold bind at 1, get.
    destruct (study_exists _ (store s)); reflexivity.
  - apply blind_bind; [apply blind_lift|]. intros zips.
    apply blind_buffered_patient. reflexivity.
Qed.

Lemma orb_mono (b : bool) (check : list write -> bool) (st new : list write) :
  (check st = true -> check (st ++ new) = true) ->
  b || check st = true -> b || check (st ++ new) = true.
Proof. destruct b; cbn [orb]; auto. Qed.

(** X9.  Sheffield, Turku GE and Bordeaux do not write twice (lines
    693-699, 793-794 and 977-980): after a run that returned, a run over
    the same download area with the same swap records returns too and
    leaves the store as it finds it, whatever was written to the store in
    between.  A patient whose folder or study is in the store is skipped;
    a patient of whom the first run could write nothing is extracted again
    and again nothing is written. *)
Theorem buffered_sites_second_run_writes_nothing
    (run : list patient_dir -> ST state unit)
    (patients : list patient_dir) (s s' t : state) (more : list write) :
  buffered_driver run ->
  run patients s = (Ok tt, s') ->
  store t = store s' ++ more ->
  fst (run patients t) = Ok tt /\ store (snd (run patients t)) = store t.
Proof.
  intros [record|record|visit record] Hrun Ht.
  - unfold sheffield in *.
    eapply (second_run (sheffield_patient record)
              (fun p st =>
                 Py.mem (sheffield_ibeat_patient_id (dir_name p)) EXCLUDE
                 || patient_exists sheffield_sitedatapath
                      (sheffield_ibeat_patient_id (dir_name p)) st)
              (fun p => under [CStr sheffield_sitedatapath;
                               CStr (sheffield_ibeat_patient_id (dir_name p))]));
      [| | |exact Hrun|exact Ht].
    + intros p. exact (sheffield_patient_guarded record p).
    + intros p st new. apply orb_mono, patient_exists_mono.
    + intros p st w new Hw. cbv beta.
      rewrite (patient_exists_cover _ _ st new w Hw). apply orb_true_r.
  - unfold turku_ge in *.
    eapply (second_run (turku_ge_patient record)
              (fun p st =>
                 Py.mem (fst (turku_ge_ibeat_patient_id (dir_name p))) EXCLUDE
                 || study_exists
                      [CStr turku_sitedatapath;
                       CStr (fst (turku_ge_ibeat_patient_id (dir_name p)));
                       CTup (snd (turku_ge_ibeat_patient_id (dir_name p))) 0] st)
              (fun p => under [CStr turku_sitedatapath;
                               CStr (fst (turku_ge_ibeat_patient_id (dir_name p)));
                               CTup (snd (turku_ge_ibeat_patient_id (dir_name p))) 0]));
      [| | |exact Hrun|exact Ht].
    + intros p. exact (turku_ge_patient_guarded record p).
    + intros p st new. apply orb_mono, study_exists_mono.
    + intros p st w new Hw. cbv beta.
      rewrite (study_exists_cover _ st new w Hw eq_refl). apply orb_true_r.
  - unfold bordeaux_patients in *.
    eapply (second_run (bordeaux_patient visit record)
              (fun p st =>
                 Py.mem (bordeaux_ibeat_patient_id (dir_name p)) EXCLUDE
                 || study_exists
                      [CStr bordeaux_sitedatapath;
                       CStr (bordeaux_ibeat_patient_id (dir_name p));
                       CTup visit 0] st)
              (fun p => under [CStr bordeaux_sitedatapath;
                               CStr (bordeaux_ibeat_patient_id (dir_name p));
                               CTup visit 0]));
      [| | |exact Hrun|exact Ht].
    + intros p. exact (bordeaux_patient_guarded visit record p).
    + intros p st new. apply orb_mono, study_exists_mono.
    + intros p st w new Hw. cbv beta.
      rewrite (study_exists_cover _ st new w Hw eq_refl). apply orb_true_r.
Qed.

Lemma buffered_sites_second_run_writes_nothing_witness :
  let s' := snd (sheffield sample_record [four_fat_series] (initial [])) in
  length (store s') = 3 /\
  fst (sheffield sample_record [four_fat_series] s') = Ok tt /\
  store (snd (sheffield sample_record [four_fat_series] s')) = store s'.
Proof.
  cbv zeta. split; [vm_compute; reflexivity|].
  apply (buffered_sites_second_run_writes_nothing (sheffield sample_record)
           [four_fat_series] (initial [])
           (snd (sheffield sample_record [four_fat_series] (initial []))) _ []).
  - constructor.
  - vm_compute. reflexivity.
  - now rewrite app_nil_r.
Defined.

(** ** The second run of Leeds *)

Lemma blind_leeds_series (pat_id : string) (z : zip_file) :
  blind2 true false (under [CStr leeds_sitedatapath; CStr pat_id])
    (leeds_series pat_id z) (leeds_series pat_id z).
Proof.
  unfold leeds_series. cbv zeta.
  apply blind_bind; [apply blind_lift|]. intros extract_to.
  apply blind_try; [apply blind_on_pat_series | intros e; apply blind_logging_error |].
  intros _.
  apply blind_bind; [apply blind_lift|]. intros dixon.
  apply blind_bind; [apply blind_last_name|]. intros name.
  apply blind_try; [apply blind_lift | intros e; apply blind_logging_error |].
  intros dixon_vol. apply blind_db_write_volume. reflexivity.
Qed.

Lemma blind_leeds_054 (db_volume_moved : list series -> result volume)
    (patients : list patient_dir) :
  blind2 false false (under [CStr leeds_sitedatapath; CStr "4128_054"])
    (leeds_054 db_volume_moved patients) (leeds_054 db_volume_moved patients).
Proof.
  unfold leeds_054. cbv zeta.
  apply blind_bind; [apply blind_lift|]. intros pat.
  apply blind_bind; [apply blind_lift|]. intros temp_database_1.
  apply blind_bind; [apply blind_lift|]. intros temp_database_2.
  apply blind_for_each. intros x _.
  apply blind_try; [apply blind_lift | intros e; apply blind_logging_error |].
  intros dixon_vol. apply blind_db_write_volume. reflexivity.
Qed.

Lemma leeds_patient_guarded (db_volume_moved : list series -> result volume)
    (patients : list patient_dir) (pat : patient_dir) :
  let pat_id := leeds_ibeat_patient_id (dir_name pat) in
  guarded (patient_exists leeds_sitedatapath pat_id)
    (under [CStr leeds_sitedatapath; CStr pat_id])
    (leeds_patient db_volume_moved patients pat).
Proof.
  cbv zeta. unfold guarded, leeds_patient. cbv zeta.
  eexists. split.
  - intros s. unfold bind at 1, get.
    destruct (patient_exists _ _ (store s)); reflexivity.
  - destruct (String.eqb _ "4128_054") eqn:E.
    + apply String.eqb_eq in E. rewrite E. apply blind_leeds_054.
    + apply blind_after_reset_ledger. apply blind_for_each. intros z _.
      apply blind_leeds_series.
Qed.

(** X10.  Leeds does not write twice (lines 435-439): after a run that
    returned, a run over the same download area returns too and leaves
    the store as it finds it, whatever was written to the store in
    between; this holds for the regrouped patient 4128_054 as for the
    others. *)
Theorem leeds_second_run_writes_nothing
    (db_volume_moved : list series -> result volume)
    (patients : list patient_dir) (s s' t : state) (more : list write) :
  leeds db_volume_moved patients s = (Ok tt, s') ->
  store t = store s' ++ more ->
  fst (leeds db_volume_moved patients t) = Ok tt /\
  store (snd (leeds db_volume_moved patients t)) = store t.
Proof.
  intros Hrun Ht. unfold leeds in *.
  eapply (second_run (leeds_patient db_volume_moved patients)
            (fun p => patient_exists leeds_sitedatapath
                        (leeds_ibeat_patient_id (dir_name p)))
            (fun p => under [CStr leeds_sitedatapath;
                             CStr (leeds_ibeat_patient_id (dir_name p))]));
    [| | |exact Hrun|exact Ht].
  - intros p. exact (leeds_patient_guarded db_volume_moved patients p).
  - intros p st new. apply patient_exists_mono.
  - intros p st w new Hw. exact (patient_exists_cover _ _ st new w Hw).
Qed.

Lemma leeds_second_run_writes_nothing_witness :
  let run := leeds (fun _ => Raise DbError) [leeds_fat_patient] in
  let s' := snd (run (initial [])) in
  map written_name (store s') = [Some "Dixon_1_fat"] /\
  fst (run s') = Ok tt /\ store (snd (run s')) = store s'.
Proof.
  cbv zeta. split; [vm_compute; reflexivity|].
  apply (leeds_second_run_writes_nothing (fun _ => Raise DbError)
           [leeds_fat_patient] (initial [])
           (snd (leeds (fun _ => Raise DbError) [leeds_fat_patient] (initial []))) _ []).
  - vm_compute. reflexivity.
  - now rewrite app_nil_r.
Defined.

(** ** The second run of Bari *)

Lemma blind_write_phases (l b : bool) (P : write -> Prop) (pat_id name : string)
    (out_phase_clean in_phase_clean : address) (dixon_split : list (Qc * subseries))
    (out_phase in_phase : nat) :
  (forall v r, P {| w_address := out_phase_clean; w_volume := v; w_ref := r |}) ->
  (forall v r, P {| w_address := in_phase_clean; w_volume := v; w_ref := r |}) ->
  blind2 l b P
    (write_phases pat_id name out_phase_clean in_phase_clean dixon_split out_phase in_phase)
    (write_phases pat_id name out_phase_clean in_phase_clean dixon_split out_phase in_phase).
Proof.
  intros Hout Hin. unfold write_phases.
  apply blind_try; [apply blind_lift | intros e; apply blind_logging_error |].
  intros [[[o vo] i] vi].
  apply blind_bind; [apply blind_db_write_volume, Hout|].
  intros _. apply blind_db_write_volume, Hin.
Qed.

Lemma blind_bari_030 (l b : bool) (dixon_split : list (Qc * subseries)) :
  blind2 l b (fun _ => True) (bari_030 dixon_split) (bari_030 dixon_split).
Proof.
  unfold bari_030. cbv zeta.
  apply blind_bind; [apply blind_lift|]. intros order.
  apply blind_bind; [apply blind_lift|]. intros series1.
  apply blind_bind; [apply blind_lift|]. intros p1.
  apply blind_bind; [apply blind_lift|]. intros v1.
  apply blind_bind; [now apply blind_db_write_volume|]. intros _.
  apply blind_bind; [apply blind_lift|]. intros series2.
  apply blind_bind; [apply blind_lift|]. intros p2.
  apply blind_bind; [apply blind_lift|]. intros v2.
  now apply blind_db_write_volume.
Qed.

(** The repair of patient 1128_030 writes the out-phase image first. *)
Lemma bari_030_writes (dixon_split : list (Qc * subseries)) (u u' : state) :
  bari_030 dixon_split u = (Ok tt, u') ->
  pat_series u' = pat_series u /\
  series_exists
    ([CStr bari_sitedatapath; CStr "1128_030"; CTup "Baseline" 0]
       ++ [CTup ("Dixon_1_" +:+ "out_phase") 0]) (store u') = true.
Proof.
  unfold bari_030. cbv zeta. unfold bind, lift.
  destruct (phase_order dixon_split) as [order|]; [|discriminate].
  destruct (index dixon_split (fst order)) as [series1|]; [|discriminate].
  destruct (sub_pixel_data (snd series1)) as [p1|]; [|discriminate].
  destruct (bari_030_out_phase p1) as [v1|]; [|discriminate].
  unfold db_write_volume at 1, modify at 1.
  destruct (index dixon_split (snd order)) as [series2|]; [|discriminate].
  destruct (sub_pixel_data (snd series2)) as [p2|]; [|discriminate].
  destruct (bari_030_in_phase (affine v1) p2) as [v2|]; [|discriminate].
  unfold db_write_volume, modify. intros H. inversion H. cbn [store pat_series].
  split; [reflexivity|].
  unfold series_exists. rewrite bool_decide_eq_true, !stored_app, !elem_of_app.
  left. right. cbn [stored map w_address]. left.
Qed.

(** What the Bari driver does with one archive: classify, test the store
    for the out-phase address, and go on without reading the store. *)
Lemma bari_series_shape (pat_id : string) (z : zip_file) :
  exists tail : string -> ST state unit,
    (forall s,
       bari_series pat_id z s =
       match bari_add_series_name (zip_name_of z) (pat_series s) with
       | (Ok _, l') =>
           match last l' with
           | Some name =>
               if series_exists
                    ([CStr bari_sitedatapath; CStr pat_id; CTup "Baseline" 0]
                       ++ [CTup (name +:+ "out_phase") 0]) (store s)
               then (Ok tt, set_pat_series l' s)
               else tail name (set_pat_series l' s)
           | None => (Raise IndexError, set_pat_series l' s)
           end
       | (Raise e, l') =>
           logging_error
             ("Patient " +:+ pat_id +:+ " - error renaming " +:+ zip_name_of z) (Some e)
             (set_pat_series l' s)
       end) /\
    (forall name, blind2 true false (fun _ => True) (tail name) (tail name)) /\
    (forall name u u',
       tail name u = (Ok tt, u') ->
       pat_series u' = pat_series u /\
       (store u' = store u \/
        series_exists
          ([CStr bari_sitedatapath; CStr pat_id; CTup "Baseline" 0]
             ++ [CTup (name +:+ "out_phase") 0]) (store u') = true)).
Proof.
  eexists. split; [|split].
  - intros s. unfold bari_series. cbv zeta.
    unfold try_except_else at 1. unfold on_pat_series.
    destruct (bari_add_series_name (zip_name_of z) (pat_series s)) as [[[]|e] l'];
      [|reflexivity].
    unfold bind at 1. unfold last_name. cbn [pat_series set_pat_series].
    destruct (last l') as [name|]; [|reflexivity].
    unfold bind at 1. unfold get. cbn [store set_pat_series].
    destruct (series_exists _ (store s)); [reflexivity|].
    lazymatch goal with
    | |- ?T ?x = ?e name ?x =>
        let T' := eval pattern name in T in
        lazymatch T' with ?f name => unify e f end
    end.
    reflexivity.
  - intros name. cbv beta.
    apply blind_try; [apply blind_lift | intros e; apply blind_logging_error |].
    intros extract_to.
    apply blind_bind; [apply blind_lift|]. intros dixon.
    apply blind_try; [apply blind_lift | intros e; apply blind_logging_error |].
    intros dixon_split.
    destruct (length dixon_split =? 1)%nat; [apply blind_logging_error|].
    destruct (String.eqb pat_id "1128_030" && String.eqb name "Dixon_1_");
      [apply blind_bari_030|].
    apply blind_bind; [apply blind_lift|]. intros order.
    apply blind_write_phases; intros; exact I.
  - intros name u u'. cbv beta.
    unfold try_except_else at 1. unfold lift at 1.
    destruct (zip_extractall z) as [extract_to|e].
    2: { intros H. inversion H. split; [reflexivity | now left]. }
    unfold bind at 1, lift at 1.
    destruct (index (ex_series extract_to) 0) as [dixon|e]; [|discriminate].
    unfold try_except_else at 1. unfold lift at 1.
    destruct (split_EchoTime dixon) as [dixon_split|e].
    2: { intros H. inversion H. split; [reflexivity | now left]. }
    destruct (length dixon_split =? 1)%nat.
    { intros H. inversion H. split; [reflexivity | now left]. }
    destruct (String.eqb pat_id "1128_030" && String.eqb name "Dixon_1_") eqn:E.
    { apply andb_true_iff in E as [E1 E2].
      apply String.eqb_eq in E1, E2. subst pat_id name.
      intros H. destruct (bari_030_writes _ _ _ H) as [H1 H2]. auto. }
    unfold bind at 1, lift at 1.
    destruct (phase_order dixon_split) as [order|e]; [|discriminate].
    intros H.
    destruct (write_phases_cases pat_id name
                ([CStr bari_sitedatapath; CStr pat_id; CTup "Baseline" 0]
                   ++ [CTup (name +:+ "out_phase") 0])
                ([CStr bari_sitedatapath; CStr pat_id; CTup "Baseline" 0]
                   ++ [CTup (name +:+ "in_phase") 0])
                dixon_split (fst order) (snd order) u)
      as [(o & i & vo & vi & _ & _ & _ & _ & Hw) | (e & Hw)];
      rewrite Hw in H; inversion H; cbn [store pat_series];
      (split; [reflexivity|]).
    + right. unfold series_exists.
      rewrite bool_decide_eq_true, stored_app, elem_of_app.
      right. cbn [stored map w_address]. now left.
    + now left.
Qed.

(** One archive in the second run. *)
Lemma bari_series_again (pat_id : string) (z : zip_file)
    (s s' t : state) (more : list write) :
  bari_series pat_id z s = (Ok tt, s') ->
  pat_series t = pat_series s ->
  store t = store s' ++ more ->
  (exists new, store s' = store s ++ new) /\
  fst (bari_series pat_id z t) = Ok tt /\
  store (snd (bari_series pat_id z t)) = store t /\
  pat_series (snd (bari_series pat_id z t)) = pat_series s'.
Proof.
  destruct (bari_series_shape pat_id z) as (tail & Hshape & Hblind & Hcover).
  rewrite !Hshape. intros Hrun Hl Ht. rewrite Hl.
  destruct (bari_add_series_name (zip_name_of z) (pat_series s)) as [[[]|e] l'].
  2: { unfold logging_error, modify in *. inversion Hrun; subst s'. cbn.
       repeat split; try reflexivity. exists []. now rewrite app_nil_r. }
  destruct (last l') as [name|]; [|discriminate].
  destruct (series_exists _ (store s)) eqn:Cs.
  { inversion Hrun; subst s'. cbn [store set_pat_series] in Ht.
    rewrite Ht, (series_exists_mono _ _ more Cs). cbn.
    repeat split; try reflexivity; [exists []; now rewrite app_nil_r | exact Ht]. }
  destruct (Hblind name (set_pat_series l' s) (set_pat_series l' t))
    as (Hr & _ & new & Hs & Hnew & _).
  { split; [reflexivity | discriminate]. }
  destruct (Hcover name _ _ Hrun) as [Hkeep Hwritten].
  rewrite Hrun in Hr, Hs. cbn [fst snd store pat_series set_pat_series] in *.
  split; [exists new; exact Hs|].
  destruct (series_exists _ (store t)) eqn:Ct.
  { cbn. repeat split; try reflexivity. now rewrite Hkeep. }
  assert (Hnil : new = []).
  { destruct Hwritten as [Hsame | Hex].
    - rewrite Hs in Hsame. symmetry in Hsame.
      rewrite <- (app_nil_r (store s)) in Hsame at 1.
      now apply app_inv_head in Hsame.
    - rewrite Ht, (series_exists_mono _ _ more Hex) in Ct. discriminate. }
  subst new. rewrite app_nil_r in Hnew.
  destruct (tail name (set_pat_series l' t)) as [r2 t1] eqn:E2.
  cbn [fst snd] in *. subst r2.
  destruct (Hcover name _ _ E2) as [Hkeep2 _]. cbn [pat_series set_pat_series] in Hkeep2.
  repeat split; [exact Hnew | now rewrite Hkeep, Hkeep2].
Qed.

Lemma bari_series_appends (pat_id : string) (z : zip_file) (s : state) :
  exists new, store (snd (bari_series pat_id z s)) = store s ++ new.
Proof.
  destruct (bari_series_shape pat_id z) as (tail & Hshape & Hblind & _).
  rewrite Hshape.
  destruct (bari_add_series_name (zip_name_of z) (pat_series s)) as [[[]|e] l'].
  2: { exists []. now rewrite app_nil_r. }
  destruct (last l') as [name|]; [|exists []; now rewrite app_nil_r].
  destruct (series_exists _ (store s)); [exists []; now rewrite app_nil_r|].
  destruct (Hblind name (set_pat_series l' s) (set_pat_series l' s))
    as (_ & _ & new & Hs & _).
  { split; [reflexivity | discriminate]. }
  exists new. exact Hs.
Qed.

Lemma for_each_appends {A} (body : A -> ST state unit) (xs : list A) :
  (forall x s, exists new, store (snd (body x s)) = store s ++ new) ->
  forall s, exists new, store (snd (for_each xs body s)) = store s ++ new.
Proof.
  intros Hbody. induction xs as [|x xs IH]; intros s; cbn [for_each].
  - exists []. now rewrite app_nil_r.
  - unfold bind. destruct (Hbody x s) as (n1 & H1).
    destruct (body x s) as [[[]|e] s1]; cbn [snd] in *.
    + destruct (IH s1) as (n2 & H2). exists (n1 ++ n2).
      now rewrite H2, H1, app_assoc.
    + exists n1. exact H1.
Qed.

(** The archives of one patient in the second run. *)
Lemma bari_loop_again (pat_id : string) (zs : list zip_file)
    (s s' t : state) (more : list write) :
  for_each zs (bari_series pat_id) s = (Ok tt, s') ->
  pat_series t = pat_series s ->
  store t = store s' ++ more ->
  fst (for_each zs (bari_series pat_id) t) = Ok tt /\
  store (snd (for_each zs (bari_series pat_id) t)) = store t.
Proof.
  revert s t. induction zs as [|z zs IH]; intros s t Hrun Hl Ht; cbn [for_each] in *.
  - split; reflexivity.
  - unfold bind in Hrun |- *.
    destruct (bari_series pat_id z s) as [[[]|e] s1] eqn:E1; [|discriminate].
    destruct (for_each_appends (bari_series pat_id) zs (bari_series_appends pat_id) s1)
      as (n2 & H2).
    rewrite Hrun in H2. cbn [snd] in H2.
    destruct (bari_series_again pat_id z s s1 t (n2 ++ more) E1 Hl)
      as (_ & Hr & Hstore & Hledger).
    { now rewrite Ht, H2, app_assoc. }
    destruct (bari_series pat_id z t) as [r2 t1]. cbn [fst snd] in *. subst r2.
    destruct (IH s1 t1 Hrun Hledger) as [H3 H4].
    { now rewrite Hstore. }
    split; [exact H3 | now rewrite H4].
Qed.

Lemma bari_patient_appends (pat : patient_dir) (s : state) :
  exists new, store (snd (bari_patient pat s)) = store s ++ new.
Proof.
  unfold bari_patient. cbv zeta.
  destruct (Py.mem _ EXCLUDE); [exists []; now rewrite app_nil_r|].
  unfold bind at 1, lift.
  destruct (sorted_by zip_series_number _) as [zs|e];
    [|exists []; now rewrite app_nil_r].
  unfold bind at 1, modify.
  destruct (for_each_appends (bari_series (bari_ibeat_patient_id (dir_name pat))) zs
              (bari_series_appends _) (set_pat_series [] s)) as (new & H).
  exists new. exact H.
Qed.

Lemma bari_patient_again (pat : patient_dir) (s s' t : state) (more : list write) :
  bari_patient pat s = (Ok tt, s') ->
  store t = store s' ++ more ->
  fst (bari_patient pat t) = Ok tt /\ store (snd (bari_patient pat t)) = store t.
Proof.
  unfold bari_patient. cbv zeta.
  destruct (Py.mem _ EXCLUDE); [split; reflexivity|].
  unfold bind at 1 3, lift.
  destruct (sorted_by zip_series_number _) as [zs|e]; [|discriminate].
  unfold bind, modify. intros Hrun Ht.
  exact (bari_loop_again _ zs (set_pat_series [] s) s' (set_pat_series [] t) more
           Hrun eq_refl Ht).
Qed.

(** X11.  Bari does not write twice (lines 584-586): after a run that
    returned, a run over the same download area returns too and leaves
    the store as it finds it, whatever was written to the store in
    between.  The driver tests the out-phase address of every series, and
    it writes the out-phase image before the in-phase image, also in the
    repair of patient 1128_030. *)
Theorem bari_second_run_writes_nothing
    (patients : list patient_dir) (s s' t : state) (more : list write) :
  bari patients s = (Ok tt, s') ->
  store t = store s' ++ more ->
  fst (bari patients t) = Ok tt /\ store (snd (bari patients t)) = store t.
Proof.
  unfold bari. revert s t.
  induction patients as [|pat patients IH]; intros s t Hrun Ht; cbn [for_each] in *.
  - split; reflexivity.
  - unfold bind in Hrun |- *.
    destruct (bari_patient pat s) as [[[]|e] s1] eqn:E1; [|discriminate].
    destruct (for_each_appends bari_patient patients bari_patient_appends s1)
      as (n2 & H2).
    rewrite Hrun in H2. cbn [snd] in H2.
    destruct (bari_patient_again pat s s1 t (n2 ++ more) E1) as [Hr Hstore].
    { now rewrite Ht, H2, app_assoc. }
    destruct (bari_patient pat t) as [r2 t1]. cbn [fst snd] in *. subst r2.
    destruct (IH s1 t1 Hrun) as [H3 H4].
    { now rewrite Hstore. }
    split; [exact H3 | now rewrite H4].
Qed.

Lemma bari_second_run_writes_nothing_witness :
  let s' := snd (bari [bari_two_echoes] (initial [])) in
  map written_name (store s') = [Some "Dixon_1_out_phase"; Some "Dixon_1_in_phase"] /\
  fst (bari [bari_two_echoes] s') = Ok tt /\
  store (snd (bari [bari_two_echoes] s')) = store s'.
Proof.
  cbv zeta. split; [vm_compute; reflexivity|].
  apply (bari_second_run_writes_nothing [bari_two_echoes] (initial [])
           (snd (bari [bari_two_echoes] (initial []))) _ []).
  - vm_compute. reflexivity.
  - now rewrite app_nil_r.
Defined.

(** ** The gap of one slice at Exeter *)










(** ** The first loop of the sites that buffer their series *)





(** ** The second run of Exeter *)









Section ExeterAgain.

Variable reslice_coronal : volume -> result volume.




Lemma blind_exeter_111 (patients : list patient_dir) :
  guarded
    (study_exists [CStr exeter_sitedatapath; CStr "3128_111"; CTup "Baseline" 0])
    (under [CStr exeter_sitedatapath; CStr "3128_111"; CTup "Baseline" 0])
    (exeter_111 patients).
Proof.
  unfold guarded, exeter_111. cbv zeta. eexists. split.
  - intros s. unfold bind at 1, get.
    destruct (study_exists _ (store s)); reflexivity.
  - apply blind_bind; [apply blind_lift|]. intros patient.
    apply blind_bind; [apply blind_lift|]. intros zips.
    apply blind_for_each. intros z _. unfold exeter_111_series. cbv zeta.
    apply blind_try; [apply blind_lift | intros e; apply blind_logging_error |].
    intros extract_to.
    apply blind_bind; [apply blind_lift|]. intros dixon.
    apply blind_bind; [apply blind_lift|]. intros dixon_split.
    apply blind_bind; [apply blind_lift|]. intros order.
    apply blind_write_phases; intros v r; apply under_snoc.
Qed.


End ExeterAgain.



(** ** Where a driver writes *)

Lemma guarded_appends (check : list write -> bool) (P : write -> Prop)
    (m : ST state unit) :
  guarded check P m -> appends P m.
Proof.
  intros (Q & HQ & HB) s r s' Hm. rewrite HQ in Hm.
  destruct (check (store s)).
  - inversion Hm; subst. exists []. rewrite app_nil_r. auto.
  - destruct (HB s s) as (_ & _ & new & Hs & _ & HP); [split; discriminate|].
    rewrite Hm in Hs. exists new. auto.
Qed.

Lemma appends_weaken {A} (P P' : write -> Prop) (m : ST state A) :
  (forall w, P w -> P' w) -> appends P m -> appends P' m.
Proof.
  intros HP H s r s' Hm. destruct (H s r s' Hm) as (new & Hnew & HF).
  exists new. split; [exact Hnew|]. eapply Forall_impl; eassumption.
Qed.

Lemma under_patient (site pat_id : string) (c : component) (rest : address) (w : write) :
  under ([CStr site; CStr pat_id] ++ c :: rest) w -> under [CStr site; CStr pat_id] w.
Proof. intros H. exact (under_take 2 _ w H). Qed.

Lemma appends_leeds_patient (db_volume_moved : list series -> result volume)
    (patients : list patient_dir) (p : patient_dir) :
  appends (under [CStr leeds_sitedatapath; CStr (leeds_ibeat_patient_id (dir_name p))])
    (leeds_patient db_volume_moved patients p).
Proof. eapply guarded_appends, leeds_patient_guarded. Qed.

Lemma appends_sheffield_patient_under (record : list (list string)) (p : patient_dir) :
  appends
    (under [CStr sheffield_sitedatapath; CStr (sheffield_ibeat_patient_id (dir_name p))])
    (sheffield_patient record p).
Proof. eapply guarded_appends, sheffield_patient_guarded. Qed.

Lemma appends_turku_ge_patient_under (record : list (list string)) (p : patient_dir) :
  appends
    (under [CStr turku_sitedatapath; CStr (fst (turku_ge_ibeat_patient_id (dir_name p)))])
    (turku_ge_patient record p).
Proof.
  eapply appends_weaken; [|eapply guarded_appends, turku_ge_patient_guarded].
  intros w. apply (under_patient _ _ _ []).
Qed.

Lemma appends_bordeaux_patient_under (visit : string) (record : list (list string))
    (p : patient_dir) :
  appends
    (under [CStr bordeaux_sitedatapath; CStr (bordeaux_ibeat_patient_id (dir_name p))])
    (bordeaux_patient visit record p).
Proof.
  eapply appends_weaken; [|eapply guarded_appends, bordeaux_patient_guarded].
  intros w. apply (under_patient _ _ _ []).
Qed.

Lemma appends_bari_030 (dixon_split : list (Qc * subseries)) :
  appends (under [CStr bari_sitedatapath; CStr "1128_030"]) (bari_030 dixon_split).
Proof.
  unfold bari_030. cbv zeta.
  apply appends_bind; [apply appends_lift|]. intros order.
  apply appends_bind; [apply appends_lift|]. intros series1.
  apply appends_bind; [apply appends_lift|]. intros p1.
  apply appends_bind; [apply appends_lift|]. intros v1.
  apply appends_bind; [apply appends_db_write_volume; reflexivity|]. intros _.
  apply appends_bind; [apply appends_lift|]. intros series2.
  apply appends_bind; [apply appends_lift|]. intros p2.
  apply appends_bind; [apply appends_lift|]. intros v2.
  apply appends_db_write_volume. reflexivity.
Qed.

Lemma appends_bari_series (pat_id : string) (z : zip_file) :
  appends (under [CStr bari_sitedatapath; CStr pat_id]) (bari_series pat_id z).
Proof.
  unfold bari_series. cbv zeta.
  apply appends_try;
    [apply appends_on_pat_series | intros e; apply appends_logging_error |].
  intros _.
  apply appends_bind; [apply appends_last_name|]. intros name.
  apply appends_get_bind. intros s.
  destruct (series_exists _ (store s)); [apply appends_ret|].
  apply appends_try; [apply appends_lift | intros e; apply appends_logging_error |].
  intros extract_to.
  apply appends_bind; [apply appends_lift|]. intros dixon.
  apply appends_try; [apply appends_lift | intros e; apply appends_logging_error |].
  intros dixon_split.
  destruct (length dixon_split =? 1)%nat; [apply appends_logging_error|].
  destruct (String.eqb pat_id "1128_030" && String.eqb name "Dixon_1_") eqn:E.
  { apply andb_true_iff in E as [E1 _]. apply String.eqb_eq in E1. subst pat_id.
    apply appends_bari_030. }
  apply appends_bind; [apply appends_lift|]. intros order.
  apply appends_write_phases; intros v r; reflexivity.
Qed.

Lemma appends_bari_patient (p : patient_dir) :
  appends (under [CStr bari_sitedatapath; CStr (bari_ibeat_patient_id (dir_name p))])
    (bari_patient p).
Proof.
  unfold bari_patient. cbv zeta.
  destruct (Py.mem _ EXCLUDE); [apply appends_ret|].
  apply appends_bind; [apply appends_lift|]. intros zips.
  apply appends_bind; [apply appends_modify; reflexivity|]. intros _.
  apply appends_for_each. intros z _. apply appends_bari_series.
Qed.

Lemma appends_turku_philips_series (pat_id : string) (z : zip_file) :
  appends (under [CStr turku_philips_sitedatapath; CStr pat_id])
    (turku_philips_series pat_id z).
Proof.
  unfold turku_philips_series. cbv zeta.
  apply appends_try;
    [apply appends_on_pat_series | intros e; apply appends_logging_error |].
  intros _.
  apply appends_bind; [apply appends_last_name|]. intros name.
  apply appends_get_bind. intros s.
  destruct (series_exists _ (store s)); [apply appends_ret|].
  apply appends_try; [apply appends_lift | intros e; apply appends_logging_error |].
  intros extract_to.
  apply appends_bind; [apply appends_lift|]. intros dixon.
  apply appends_try; [apply appends_lift | intros e; apply appends_logging_error |].
  intros dixon_split.
  destruct (length dixon_split =? 1)%nat; [apply appends_logging_error|].
  apply appends_for_each. intros part _.
  unfold turku_philips_write_split.
  apply appends_bind.
  { apply appends_try; [apply appends_lift | intros e; apply appends_logging_error |].
    intros v. apply appends_modify. reflexivity. }
  intros _. apply appends_get_bind. intros s1.
  apply appends_bind; [apply appends_lift|]. intros v.
  apply appends_lift_bind. intros a Ha.
  apply appends_db_write_volume.
  destruct (_ !! fst part) as [a'|] eqn:Hlookup; [|discriminate].
  inversion Ha; subst a'.
  apply elem_of_list_to_map_2 in Hlookup.
  repeat (apply elem_of_cons in Hlookup as [Hlookup | Hlookup];
          [inversion Hlookup; reflexivity|]).
  inversion Hlookup.
Qed.

Lemma appends_turku_philips_patient (p : patient_dir) :
  appends
    (under [CStr turku_philips_sitedatapath;
            CStr (fst (turku_philips_ibeat_patient_id (dir_name p)))])
    (turku_philips_patient p).
Proof.
  unfold turku_philips_patient. cbv zeta.
  destruct (Py.mem _ EXCLUDE); [apply appends_ret|].
  apply appends_bind; [apply appends_lift|]. intros zips.
  apply appends_bind; [apply appends_modify; reflexivity|]. intros _.
  apply appends_for_each. intros z _. apply appends_turku_philips_series.
Qed.

Lemma appends_exeter_patient_under (reslice_coronal : volume -> result volume)
    (visit : string) (record : list (list string))
    (patients : list patient_dir) (p : patient_dir) :
  appends (under [CStr exeter_sitedatapath; CStr (exeter_ibeat_patient_id (dir_name p))])
    (exeter_patient reslice_coronal visit record patients p).
Proof.
  unfold exeter_patient. cbv zeta.
  destruct (Py.mem _ EXCLUDE); [apply appends_ret|].
  destruct (String.eqb visit "Baseline" && String.eqb _ "3128_111") eqn:E.
  { apply andb_true_iff in E as [_ E]. apply String.eqb_eq in E. rewrite E.
    eapply appends_weaken; [|eapply guarded_appends, blind_exeter_111].
    intros w. apply (under_patient _ _ _ []). }
  clear E. apply appends_get_bind. intros s.
  destruct (negb _ && _); [apply appends_ret|].
  apply appends_bind; [apply appends_lift|]. intros zips.
  apply appends_bind; [apply appends_modify; reflexivity|]. intros _.
  apply appends_bind; [apply appends_modify; reflexivity|]. intros _.
  apply appends_bind.
  { apply appends_for_each. intros z _. apply appends_buffer_series. }
  intros _. apply appends_in_proper_order. intros series counter image_type _ _ _.
  unfold exeter_write_buffered. cbv zeta.
  apply appends_get_bind. intros s1.
  destruct (tmp_series_folder s1 !! _) as [extract_to|]; [|apply appends_ret].
  apply appends_bind; [apply appends_lift|]. intros dixon.
  apply appends_lift_bind. intros dixon_clean Hswap.
  destruct (_ && _); [apply appends_ret|].
  apply appends_try; [apply appends_lift | intros e; apply appends_logging_error|].
  intros dixon_vol.
  apply appends_bind; [apply appends_lift|]. intros dixon_vol'.
  apply appends_db_write_volume.
  apply (under_patient _ _ (CTup visit 0) []).
  eapply swapped_address_under; [reflexivity | exact Hswap].
Qed.

Lemma appends_patients (site : string) (id : patient_dir -> string)
    (body : patient_dir -> ST state unit) (patients : list patient_dir) :
  (forall p, appends (under [CStr site; CStr (id p)]) (body p)) ->
  appends (under_patient_of site id patients) (for_each patients body).
Proof.
  intros H. apply appends_for_each. intros p Hp.
  eapply appends_weaken; [|apply H].
  intros w Hw. exists p. auto.
Qed.

(** X16.  Each of the seven drivers only appends to the store, and every
    volume it writes goes under the folder of its own site and the
    identifier of one of the patients of the run: no driver writes to
    another site or to a patient it was not given, whether it returns or
    raises.  For Leeds this includes the regrouped patient 4128_054, for
    Exeter patient 3128_111, for Bari the repair of patient 1128_030. *)
Theorem drivers_write_under_their_patients
    (site : string) (id : patient_dir -> string)
    (run : list patient_dir -> ST state unit)
    (patients : list patient_dir) (s : state) :
  site_driver site id run ->
  exists new,
    store (snd (run patients s)) = store s ++ new /\
    Forall (under_patient_of site id patients) new.
Proof.
  intros Hd.
  assert (Happ : appends (under_patient_of site id patients) (run patients)).
  { destruct Hd.
    - apply appends_patients. apply appends_leeds_patient.
    - apply appends_patients. apply appends_bari_patient.
    - apply appends_patients. apply appends_sheffield_patient_under.
    - apply appends_patients. apply appends_turku_ge_patient_under.
    - apply appends_patients. apply appends_turku_philips_patient.
    - apply appends_patients. apply appends_bordeaux_patient_under.
    - apply appends_patients. apply appends_exeter_patient_under. }
  destruct (run patients s) as [r s'] eqn:E.
  exact (Happ s r s' E).
Qed.

Lemma drivers_write_under_their_patients_witness :
  exists new,
    store (snd (turku_philips [philips_corrupt_second; philips_sound] (initial [])))
    = [] ++ new /\
    Forall (under_patient_of turku_philips_sitedatapath
              (fun p => fst (turku_philips_ibeat_patient_id (dir_name p)))
              [philips_corrupt_second; philips_sound]) new.
Proof.
  exact (drivers_write_under_their_patients _ _ _
           [philips_corrupt_second; philips_sound] (initial []) turku_philips_site).
Defined.

